(** * mcl-bbl-engine: the action queues, the credential harvester and the
      response transformers

    A shallow embedding of [src/mbe.js], [src/utils/getString.js],
    [src/utils/getCourses.js] and [src/utils/getAssignments.js].

    - JavaScript values that reach the utilities come from [response.json()]
      and [JSON.parse]; they are modelled by the inductive type [value].
      JSON numbers are restricted to integers (printed in decimal).
    - An expression that may raise is a [completion]: [Normal v] or [Throw e].
    - The engine is a transition system: every synchronous segment of the
      source between two [await]s is one [step].
    - The closure queued by [getCourses] and the response handlers are
      functions of how their awaited calls settle.
    - [this.emit] calls the subscribers inside the segment of the caller and
      throws what a subscriber throws. The engine is read twice: first with
      subscribers that return, then, in the module [Subscribed], with the
      subscribers as an input that may throw; the first reading is the
      second one at the subscribers that return
      ([step_with_passive_subscribers]). [initialize] and [login] are read
      in [Subscribed] only. *)

From Stdlib Require Import List String Ascii ZArith Lia Bool Arith.
From Stdlib Require Import Numbers.DecimalString.
Import ListNotations.
Open Scope string_scope.
Local Set Warnings "-register-all".

(* ------------------------------------------------------------------ *)
(** ** Completions: normal return or a thrown error *)

Inductive error : Type :=
| TypeError (msg : string)
| SyntaxError (msg : string).

Inductive completion (A : Type) : Type :=
| Normal (a : A)
| Throw (e : error).
Arguments Normal {A} a.
Arguments Throw {A} e.

Definition bind {A B : Type} (c : completion A) (k : A -> completion B)
  : completion B :=
  match c with
  | Normal a => k a
  | Throw e => Throw e
  end.

Notation "x <- c ;; k" := (bind c (fun x => k))
  (at level 61, c at next level, right associativity).

(** [try { c } catch { h }] with a handler that ignores the error. *)
Definition try_catch {A : Type} (c : completion A) (h : A) : completion A :=
  match c with
  | Normal a => Normal a
  | Throw _ => Normal h
  end.

(* ------------------------------------------------------------------ *)
(** ** JavaScript values *)

Inductive value : Type :=
| VUndef
| VNull
| VBool (b : bool)
| VNum (n : Z)
| VStr (s : string)
| VArr (l : list value)
| VObj (fields : list (string * value)).

(** ToBoolean. *)
Definition truthy (v : value) : bool :=
  match v with
  | VUndef | VNull => false
  | VBool b => b
  | VNum n => negb (Z.eqb n 0)
  | VStr s => negb (String.eqb s "")
  | VArr _ | VObj _ => true
  end.

(** [a || b] *)
Definition js_or (a b : value) : value := if truthy a then a else b.

Fixpoint assoc (k : string) (fs : list (string * value)) : option value :=
  match fs with
  | [] => None
  | (k', v) :: fs' => if String.eqb k k' then Some v else assoc k fs'
  end.

(** Property read [v.k], for the property names this program reads (none of
    them is an index, [length] or a member of a built-in prototype): reading
    from [null] or [undefined] throws, a primitive or an array has no such
    property, an object yields its own field. *)
Definition get_prop (v : value) (k : string) : completion value :=
  match v with
  | VUndef => Throw (TypeError ("Cannot read properties of undefined (reading '" ++ k ++ "')"))
  | VNull => Throw (TypeError ("Cannot read properties of null (reading '" ++ k ++ "')"))
  | VObj fs => Normal (match assoc k fs with Some x => x | None => VUndef end)
  | _ => Normal VUndef
  end.

(** Optional chaining [v?.k]. *)
Definition get_prop_opt (v : value) (k : string) : completion value :=
  match v with
  | VUndef | VNull => Normal VUndef
  | _ => get_prop v k
  end.

(* ------------------------------------------------------------------ *)
(** ** Strings: [String.prototype.split] with a string separator *)

Fixpoint drop (n : nat) (s : string) : string :=
  match n, s with
  | O, _ => s
  | S _, EmptyString => EmptyString
  | S n', String _ s' => drop n' s'
  end.

(** [cut sep s] finds the leftmost occurrence of [sep] in [s] and returns the
    text before it and the text after it. *)
Fixpoint cut (sep s : string) : option (string * string) :=
  if String.prefix sep s then Some (EmptyString, drop (String.length sep) s)
  else match s with
       | EmptyString => None
       | String c s' =>
           match cut sep s' with
           | Some (a, b) => Some (String c a, b)
           | None => None
           end
       end.

(** The pieces of [s] between the non-overlapping occurrences of a non-empty
    separator, found from left to right. *)
Fixpoint split_fuel (fuel : nat) (sep s : string) : list string :=
  match fuel with
  | O => [s]
  | S f =>
      match cut sep s with
      | None => [s]
      | Some (a, b) => a :: split_fuel f sep b
      end
  end.

Fixpoint chars (s : string) : list string :=
  match s with
  | EmptyString => []
  | String c s' => String c EmptyString :: chars s'
  end.

(** [s.split(sep)]: an empty separator splits into code units. *)
Definition split (s sep : string) : list string :=
  if String.eqb sep "" then chars s
  else split_fuel (String.length s) sep s.

(** Array read [a[i]] of an array of strings: [undefined] out of range. *)
Definition index_str (a : list string) (i : nat) : value :=
  match nth_error a i with
  | Some x => VStr x
  | None => VUndef
  end.

(** Method call [v.split(sep)] on a value. *)
Definition call_split (v : value) (sep : string) : completion (list string) :=
  match v with
  | VStr s => Normal (split s sep)
  | VUndef => Throw (TypeError "Cannot read properties of undefined (reading 'split')")
  | VNull => Throw (TypeError "Cannot read properties of null (reading 'split')")
  | _ => Throw (TypeError "split is not a function")
  end.

(* ------------------------------------------------------------------ *)
(** ** src/utils/getString.js *)

Definition not_found : value := VBool false.

Definition getString_body (string left right : string) : completion value :=
  parts <- call_split (VStr string) left ;;
  inner <- call_split (index_str parts 1) right ;;
  Normal (index_str inner 0).

Definition getString (string left right : string) : completion value :=
  try_catch (getString_body string left right) not_found.

Definition nl : string := String (ascii_of_nat 10) EmptyString.

(** [sub] occurs somewhere in [s]. *)
Definition occurs (sub s : string) : Prop :=
  exists pre post, s = pre ++ sub ++ post.

(** [s = pre ++ sub ++ post] and this is the leftmost occurrence of [sub]. *)
Definition first_occurrence (sub s pre post : string) : Prop :=
  s = pre ++ sub ++ post /\
  forall pre' post', s = pre' ++ sub ++ post' ->
                     String.length pre <= String.length pre'.

(** The first piece of [s.split(sep)]. *)
Definition first_piece (sep s : string) : string :=
  match cut sep s with
  | Some (a, _) => a
  | None => s
  end.

(** The texts of the two worked examples of the extraction utility. *)
Definition page_with_user : string := "a=user: {x:1}," ++ nl ++ "rest".
Definition page_without_marker : string := "no marker here".
Definition page_without_right : string := "a=user: xyz".

(* ------------------------------------------------------------------ *)
(** ** Arrays, template literals and [Map] *)

(** [Array.prototype.map] and [filter] with a callback that may throw: the
    elements are visited from left to right and the first throw ends the
    call. *)
Fixpoint mapM {A B : Type} (f : A -> completion B) (l : list A)
  : completion (list B) :=
  match l with
  | [] => Normal []
  | x :: l' => y <- f x ;; ys <- mapM f l' ;; Normal (y :: ys)
  end.

Fixpoint filterM {A : Type} (f : A -> completion bool) (l : list A)
  : completion (list A) :=
  match l with
  | [] => Normal []
  | x :: l' =>
      b <- f x ;; ys <- filterM f l' ;; Normal (if b then x :: ys else ys)
  end.

Definition Z_to_string (n : Z) : string := NilZero.string_of_int (Z.to_int n).

(** ToString, as a template literal applies it. A plain object prints as
    [[object Object]] unless it has an own [toString] field: a parsed field is
    never callable, and the fallback [valueOf] does not give a primitive, so
    the conversion throws. An array prints its elements joined by commas,
    [null] and [undefined] elements as the empty string. *)
Fixpoint to_string (v : value) : completion string :=
  match v with
  | VUndef => Normal "undefined"
  | VNull => Normal "null"
  | VBool true => Normal "true"
  | VBool false => Normal "false"
  | VNum n => Normal (Z_to_string n)
  | VStr s => Normal s
  | VObj fs =>
      match assoc "toString" fs with
      | Some _ => Throw (TypeError "Cannot convert object to primitive value")
      | None => Normal "[object Object]"
      end
  | VArr l =>
      (fix join (l : list value) : completion string :=
         match l with
         | [] => Normal ""
         | x :: rest =>
             a <- match x with
                  | VUndef | VNull => Normal ""
                  | _ => to_string x
                  end ;;
             match rest with
             | [] => Normal a
             | _ => b <- join rest ;; Normal (a ++ "," ++ b)
             end
         end) l
  end.

(** SameValueZero on parsed values: primitives compare by content; two
    objects or arrays met at different places of a parsed document are
    different references, hence never equal. *)
Definition same_value_zero (a b : value) : bool :=
  match a, b with
  | VUndef, VUndef => true
  | VNull, VNull => true
  | VBool x, VBool y => Bool.eqb x y
  | VNum x, VNum y => Z.eqb x y
  | VStr x, VStr y => String.eqb x y
  | _, _ => false
  end.

(** A [Map]: its entries in insertion order. *)
Definition jsmap : Type := list (value * value).

(** [m.set(k, v)]: a present key keeps its place and takes the new value, a
    new key goes to the end. *)
Fixpoint map_set (k v : value) (m : jsmap) : jsmap :=
  match m with
  | [] => [(k, v)]
  | (k', v') :: m' =>
      if same_value_zero k' k then (k', v) :: m'
      else (k', v') :: map_set k v m'
  end.

Fixpoint map_get (k : value) (m : jsmap) : value :=
  match m with
  | [] => VUndef
  | (k', v') :: m' => if same_value_zero k' k then v' else map_get k m'
  end.

(** [new Map(pairs)] *)
Definition map_of_pairs (ps : list (value * value)) : jsmap :=
  fold_left (fun m p => map_set (fst p) (snd p) m) ps [].

(** [Array.from(m.values())] *)
Definition map_values (m : jsmap) : list value := List.map snd m.

(** [v === "s"] *)
Definition is_str (v : value) (s : string) : bool :=
  match v with
  | VStr x => String.eqb x s
  | _ => false
  end.

(** What [console.error] printed, oldest first. *)
Definition console : Type := list string.

(* ------------------------------------------------------------------ *)
(** ** src/utils/getCourses.js *)

Definition course_kept (enrollment : value) : completion bool :=
  course <- get_prop enrollment "course" ;;
  if truthy course then
    org <- get_prop course "isOrganization" ;;
    Normal (negb (truthy org))
  else Normal false.

Definition course_entry (enrollment : value) : completion value :=
  courseDetails <- get_prop enrollment "course" ;;
  courseId <- get_prop courseDetails "courseId" ;;
  name <- get_prop courseDetails "name" ;;
  id <- get_prop courseDetails "id" ;;
  Normal (VObj [("courseId", courseId); ("courseName", name); ("id", id)]).

(** The guard [!coursesDataObject || !Array.isArray(coursesDataObject.results)]:
    [Some results] when the guard lets the input through. *)
Definition results_array (coursesDataObject : value) : option (list value) :=
  if truthy coursesDataObject then
    match get_prop coursesDataObject "results" with
    | Normal (VArr l) => Some l
    | _ => None
    end
  else None.

Definition getCoursesAsJson (coursesDataObject : value)
  : console * completion value :=
  match results_array coursesDataObject with
  | None =>
      (["Invalid or incomplete course data object provided. 'results' array is missing."],
       Normal (VObj [("courses", VArr [])]))
  | Some results =>
      ([],
       kept <- filterM course_kept results ;;
       courses <- mapM course_entry kept ;;
       Normal (VObj [("courses", VArr courses)]))
  end.

(* ------------------------------------------------------------------ *)
(** ** src/utils/getAssignments.js *)

(** [for (const course of sx_courses) courseMap.set(course.id, course.name)].
    An array is iterated by element, a string by character; any other truthy
    value is not iterable. *)
Definition iterate (v : value) : completion (list value) :=
  match v with
  | VArr l => Normal l
  | VStr s => Normal (List.map VStr (chars s))
  | _ => Throw (TypeError "sx_courses is not iterable")
  end.

Fixpoint fill_courseMap (courses : list value) (courseMap : jsmap)
  : completion jsmap :=
  match courses with
  | [] => Normal courseMap
  | course :: rest =>
      id <- get_prop course "id" ;;
      name <- get_prop course "name" ;;
      fill_courseMap rest (map_set id name courseMap)
  end.

Definition build_courseMap (sv_extras : value) : completion jsmap :=
  sx_courses <- get_prop sv_extras "sx_courses" ;;
  if truthy sx_courses then
    courses <- iterate sx_courses ;;
    fill_courseMap courses []
  else Normal [].

(** [entry.providerId === 'bb-nautilus'] *)
Definition from_provider (entry : value) : completion bool :=
  providerId <- get_prop entry "providerId" ;;
  Normal (is_str providerId "bb-nautilus").

(** [entry.itemSpecificData?.notificationDetails?.sourceType] is ['UA'] or
    ['TE']. *)
Definition is_assignment_or_test (entry : value) : completion bool :=
  details <- get_prop entry "itemSpecificData" ;;
  notificationDetails <- get_prop_opt details "notificationDetails" ;;
  type <- get_prop_opt notificationDetails "sourceType" ;;
  Normal (is_str type "UA" || is_str type "TE")%bool.

Definition to_activity (courseMap : jsmap) (entry : value) : completion value :=
  details <- get_prop entry "itemSpecificData" ;;
  notificationDetails <- get_prop details "notificationDetails" ;;
  title <- get_prop details "title" ;;
  se_courseId <- get_prop entry "se_courseId" ;;
  sourceType <- get_prop notificationDetails "sourceType" ;;
  dueDate <- get_prop notificationDetails "dueDate" ;;
  startDate <- get_prop notificationDetails "startDate" ;;
  Normal (VObj
    [("activityName", js_or title (VStr "Untitled Activity"));
     ("courseName", js_or (map_get se_courseId courseMap) (VStr "Unknown Course"));
     ("type", VStr (if is_str sourceType "UA" then "Assignment" else "Test"));
     ("dueDate", js_or dueDate VNull);
     ("givenDate", js_or startDate VNull)]).

(** The template literal [`${act.activityName}-${act.courseName}`]. *)
Definition activity_key (act : value) : completion string :=
  activityName <- get_prop act "activityName" ;;
  courseName <- get_prop act "courseName" ;;
  a <- to_string activityName ;;
  c <- to_string courseName ;;
  Normal (a ++ "-" ++ c).

Definition keyed (act : value) : completion (value * value) :=
  k <- activity_key act ;; Normal (VStr k, act).

(** The guard [!streamDataObject || !streamDataObject.sv_streamEntries ||
    !streamDataObject.sv_extras]: [Some (entries, extras)] when the input gets
    through. *)
Definition stream_parts (streamDataObject : value) : option (value * value) :=
  if truthy streamDataObject then
    match get_prop streamDataObject "sv_streamEntries",
          get_prop streamDataObject "sv_extras" with
    | Normal entries, Normal extras =>
        if (truthy entries && truthy extras)%bool then Some (entries, extras)
        else None
    | _, _ => None
    end
  else None.

(** [sv_streamEntries.filter(...)]: only an array has the method. *)
Definition as_array (v : value) : completion (list value) :=
  match v with
  | VArr l => Normal l
  | _ => Throw (TypeError "streamDataObject.sv_streamEntries.filter is not a function")
  end.

(** The entries that pass both filters, in stream order. *)
Definition kept_entries (entries : list value) : completion (list value) :=
  fromProvider <- filterM from_provider entries ;;
  filterM is_assignment_or_test fromProvider.

Definition getActivitiesAsJson (streamDataObject : value)
  : console * completion value :=
  match stream_parts streamDataObject with
  | None =>
      (["Invalid or incomplete data object provided."],
       Normal (VObj [("activities", VArr [])]))
  | Some (sv_streamEntries, sv_extras) =>
      ([],
       courseMap <- build_courseMap sv_extras ;;
       entries <- as_array sv_streamEntries ;;
       kept <- kept_entries entries ;;
       allActivities <- mapM (to_activity courseMap) kept ;;
       pairs <- mapM keyed allActivities ;;
       Normal (VObj [("activities",
                      VArr (map_values (map_of_pairs pairs)))]))
  end.

(** A stream entry as the portal sends it. *)
Definition stream_entry (title courseId sourceType : string)
    (dates : list (string * value)) : value :=
  VObj [("providerId", VStr "bb-nautilus");
        ("se_courseId", VStr courseId);
        ("itemSpecificData",
         VObj [("title", VStr title);
               ("notificationDetails",
                VObj (("sourceType", VStr sourceType) :: dates))])].

Definition extras_course (id name : string) : value :=
  VObj [("id", VStr id); ("name", VStr name)].

Definition stream (entries courses : list value) : value :=
  VObj [("sv_streamEntries", VArr entries);
        ("sv_extras", VObj [("sx_courses", VArr courses)])].

(* ------------------------------------------------------------------ *)
(** ** src/mbe.js: the engine *)

Inductive level : Type := INFO | DEBUG | WARN | ERROR.

Definition level_name (l : level) : string :=
  match l with
  | INFO => "INFO"
  | DEBUG => "DEBUG"
  | WARN => "WARN"
  | ERROR => "ERROR"
  end.

Inductive queue_id : Type := Browser | Api.

(** A queued closure, known to the coordinator by its identity only. *)
Definition action : Type := nat.

(** How an awaited action settles. A rejection carries the [Error] whose
    [message] the [catch] block reads. *)
Inductive outcome : Type :=
| Resolved
| Rejected (message : string).

(** What an observer of the engine sees, oldest first: the notifications of
    the emitter, the calls [action()] of the drain loops and the settling of
    the awaited promises. *)
Inductive obs : Type :=
| Emit (name : string) (payload : value)
| Invoked (q : queue_id) (a : action)
| Finished (q : queue_id) (a : action) (o : outcome).

(** One queue with its gate and its re-entrancy flag. [awaiting] is the
    action at whose [await] the drain loop of this queue is suspended. *)
Record queue_state : Type := mkQueue {
  actionQueue : list action;
  isReady : bool;
  isProcessing : bool;
  awaiting : option action
}.

Record engine : Type := mkEngine {
  browser : queue_state;
  api : queue_state;
  cookie : value;
  userData : value;
  trace : list obs
}.

(** The fields the constructor sets. *)
Definition new_queue : queue_state := mkQueue [] false false None.
Definition new_engine : engine := mkEngine new_queue new_queue VNull VNull [].

Definition queue_of (q : queue_id) (e : engine) : queue_state :=
  match q with
  | Browser => browser e
  | Api => api e
  end.

Definition set_queue (q : queue_id) (s : queue_state) (e : engine) : engine :=
  match q with
  | Browser => mkEngine s (api e) (cookie e) (userData e) (trace e)
  | Api => mkEngine (browser e) s (cookie e) (userData e) (trace e)
  end.

Definition observe (o : obs) (e : engine) : engine :=
  mkEngine (browser e) (api e) (cookie e) (userData e) (trace e ++ [o]).

(** [this.emit('log', { date: Date.now(), level, message })] *)
Definition log_payload (now : Z) (lvl : level) (message : string) : value :=
  VObj [("date", VNum now); ("level", VStr (level_name lvl));
        ("message", VStr message)].

(** [_log(level, message)] when the subscribers of [log] return: the entry
    is emitted and the caller goes on. With a subscriber that throws, [_log]
    throws; that is [Subscribed._log]. *)
Definition _log (now : Z) (lvl : level) (message : string) (e : engine)
  : engine :=
  observe (Emit "log" (log_payload now lvl message)) e.

Definition failure_prefix (q : queue_id) : string :=
  match q with
  | Browser => "Browser action failed: "
  | Api => "API action failed: "
  end.

(** The head of the [while] loop of [_tryProcessBrowserQueue] and
    [_tryProcessApiQueue]: with an empty queue the flag is cleared and the
    routine returns; otherwise the head action is shifted off, called, and
    the routine is suspended at its [await]. *)
Definition drain_loop (q : queue_id) (e : engine) : engine :=
  let s := queue_of q e in
  match actionQueue s with
  | [] => set_queue q (mkQueue [] (isReady s) false None) e
  | a :: rest =>
      observe (Invoked q a)
        (set_queue q (mkQueue rest (isReady s) (isProcessing s) (Some a)) e)
  end.

(** [_tryProcessBrowserQueue] / [_tryProcessApiQueue], up to the first
    [await]. *)
Definition _tryProcessQueue (q : queue_id) (e : engine) : engine :=
  let s := queue_of q e in
  if (negb (isReady s) || isProcessing s)%bool then e
  else drain_loop q
         (set_queue q (mkQueue (actionQueue s) (isReady s) true (awaiting s)) e).

(** The two drain routines of the source are this one routine, once per
    queue. *)
Abbreviation _tryProcessBrowserQueue := (_tryProcessQueue Browser).
Abbreviation _tryProcessApiQueue := (_tryProcessQueue Api).

(** The rest of one loop iteration, from the point where the awaited action
    settles: the [catch] block on a rejection, then the loop head again.
    This is the iteration when the subscribers return from the report of
    the [catch] block; [Subscribed.resume] also covers a report that
    throws. *)
Definition resume (now : Z) (q : queue_id) (o : outcome) (e : engine)
  : option engine :=
  let s := queue_of q e in
  match awaiting s with
  | None => None
  | Some a =>
      let e1 := observe (Finished q a o) e in
      let e2 := match o with
                | Resolved => e1
                | Rejected message =>
                    _log now ERROR (failure_prefix q ++ message) e1
                end in
      Some (drain_loop q e2)
  end.

(** [this.browserActionQueue.push(action)] / [this.apiActionQueue.push(action)] *)
Definition push (q : queue_id) (a : action) (e : engine) : engine :=
  let s := queue_of q e in
  set_queue q (mkQueue (actionQueue s ++ [a]) (isReady s) (isProcessing s)
                 (awaiting s)) e.

Definition set_ready (q : queue_id) (e : engine) : engine :=
  let s := queue_of q e in
  set_queue q (mkQueue (actionQueue s) true (isProcessing s) (awaiting s)) e.

Definition set_cookie (c : value) (e : engine) : engine :=
  mkEngine (browser e) (api e) c (userData e) (trace e).

Definition set_userData (u : value) (e : engine) : engine :=
  mkEngine (browser e) (api e) (cookie e) u (trace e).

Definition isBrowserReady (e : engine) : bool := isReady (browser e).
Definition isApiReady (e : engine) : bool := isReady (api e).

Definition _checkApiReady (now : Z) (e : engine) : engine :=
  if isApiReady e then e
  else if (truthy (cookie e) && truthy (userData e))%bool then
    _tryProcessApiQueue
      (_log now INFO "API credentials acquired. API queue is now ready."
         (set_ready Api e))
  else e.

(** The synchronous segments of the engine, one constructor each. *)
Inductive event : Type :=
| InitializeDone
    (* initialize, from [this.isBrowserReady = true] on *)
| GetActivities (a : action)
    (* getActivities(); [a] is the closure it creates *)
| GetCourses (a : action)
    (* getCourses(); [a] is the closure it creates *)
| Settled (q : queue_id) (o : outcome)
    (* the action awaited by the drain loop of [q] settles *)
| RequestHeaders (header_cookie : value)
    (* the route handler up to [await route.continue()] *)
| RouteContinued
    (* the route handler after [await route.continue()] *)
| UltraResponse (responseBody : string)
    (* the response handler for GET /ultra after [await response.text()] *)
| LogCall (lvl : level) (message : string).
    (* any other call of [_log]: initialize, login, the queued closures *)

Section Engine.

(** [JSON.parse], an input of the model. *)
Variable JSON_parse : string -> completion value.

Definition on_ultra_response (now : Z) (responseBody : string) (e : engine)
  : engine :=
  match getString responseBody "user: " ("," ++ nl) with
  | Normal userDataString =>
      if truthy userDataString then
        match userDataString with
        | VStr text =>
            match JSON_parse text with
            | Normal u => _checkApiReady now (set_userData u e)
            | Throw _ => e
            end
        | _ => e
        end
      else e
  | Throw _ => e
  end.

Definition step (now : Z) (e : engine) (ev : event) : option engine :=
  match ev with
  | InitializeDone =>
      Some (_tryProcessBrowserQueue
              (_log now INFO "Browser is ready. Processing browser action queue."
                 (set_ready Browser e)))
  | GetActivities a =>
      Some (_tryProcessBrowserQueue
              (push Browser a
                 (_log now DEBUG "Queueing browser action: getActivities" e)))
  | GetCourses a =>
      Some (_tryProcessApiQueue
              (push Api a
                 (_log now DEBUG "Queueing API action: getCourses" e)))
  | Settled q o => resume now q o e
  | RequestHeaders header_cookie =>
      Some (if truthy header_cookie then set_cookie header_cookie e else e)
  | RouteContinued => Some (_checkApiReady now e)
  | UltraResponse responseBody => Some (on_ultra_response now responseBody e)
  | LogCall lvl message => Some (_log now lvl message e)
  end.

(** A run: the segments in the order the event loop schedules them, each
    with the reading of [Date.now()] at that time. *)
Fixpoint run (e : engine) (evs : list (Z * event)) : option engine :=
  match evs with
  | [] => Some e
  | (now, ev) :: rest =>
      match step now e ev with
      | Some e' => run e' rest
      | None => None
      end
  end.

End Engine.


(** The actions of queue [q] called so far, in the order of the calls. *)
Fixpoint invoked (q : queue_id) (tr : list obs) : list action :=
  match tr with
  | [] => []
  | Invoked q' a :: tr' =>
      match q, q' with
      | Browser, Browser | Api, Api => a :: invoked q tr'
      | _, _ => invoked q tr'
      end
  | _ :: tr' => invoked q tr'
  end.

(** The actions of queue [q] that have settled, with their outcomes. *)
Fixpoint finished (q : queue_id) (tr : list obs) : list (action * outcome) :=
  match tr with
  | [] => []
  | Finished q' a o :: tr' =>
      match q, q' with
      | Browser, Browser | Api, Api => (a, o) :: finished q tr'
      | _, _ => finished q tr'
      end
  | _ :: tr' => finished q tr'
  end.

(** The payloads of the [log] notifications. *)
Fixpoint logs (tr : list obs) : list value :=
  match tr with
  | [] => []
  | Emit name payload :: tr' =>
      if String.eqb name "log" then payload :: logs tr' else logs tr'
  | _ :: tr' => logs tr'
  end.

(* ------------------------------------------------------------------ *)
(** ** Reading a run *)

(** The actions the callers handed to queue [q], in the order of the
    requests. *)
Fixpoint enqueued (q : queue_id) (evs : list (Z * event)) : list action :=
  match evs with
  | [] => []
  | (_, GetActivities a) :: rest =>
      match q with
      | Browser => a :: enqueued q rest
      | Api => enqueued q rest
      end
  | (_, GetCourses a) :: rest =>
      match q with
      | Browser => enqueued q rest
      | Api => a :: enqueued q rest
      end
  | _ :: rest => enqueued q rest
  end.

(** How many times an action of queue [q] settles in a run. *)
Fixpoint settlements (q : queue_id) (evs : list (Z * event)) : nat :=
  match evs with
  | [] => 0
  | (_, Settled q' _) :: rest =>
      match q, q' with
      | Browser, Browser | Api, Api => S (settlements q rest)
      | _, _ => settlements q rest
      end
  | _ :: rest => settlements q rest
  end.


Definition opt_list {A : Type} (o : option A) : list A :=
  match o with
  | Some a => [a]
  | None => []
  end.

(** The state of queue [q] between two segments, after the requests [enq]:
    - every requested action has been called or is still queued, in the order
      of the requests;
    - the called actions have settled, but for the one awaited;
    - the flag is up exactly while the drain loop is suspended at an [await];
    - behind a closed gate nothing drains and nothing has been called;
    - behind an open gate the queue is empty whenever no drain is active. *)
Definition inv (q : queue_id) (enq : list action) (e : engine) : Prop :=
  let s := queue_of q e in
  (invoked q (trace e) ++ actionQueue s)%list = enq /\
  (List.map fst (finished q (trace e)) ++ opt_list (awaiting s))%list
    = invoked q (trace e) /\
  (isProcessing s = true <-> awaiting s <> None) /\
  (isReady s = false -> isProcessing s = false /\ invoked q (trace e) = []) /\
  (isReady s = true -> isProcessing s = false -> actionQueue s = []).

(** The [log] payloads a drain of queue [q] emits for the settlements
    [outs]: one ERROR entry per rejection. *)
Definition error_log (q : queue_id) (p : Z * outcome) : list value :=
  match snd p with
  | Resolved => []
  | Rejected message =>
      [log_payload (fst p) ERROR (failure_prefix q ++ message)]
  end.


(** A fragment of [JSON.parse], enough for the sample runs. *)
Definition sample_parse (text : string) : completion value :=
  if String.eqb text "{}" then Normal (VObj [])
  else if String.eqb text "null" then Normal VNull
  else if String.eqb text "false" then Normal (VBool false)
  else if String.eqb text "0" then Normal (VNum 0)
  else if String.eqb text "1" then Normal (VNum 1)
  else Throw (SyntaxError "Unexpected token").

(** Three requests made while both gates are closed. *)
Definition early_requests : list (Z * event) :=
  [(1%Z, GetActivities 11); (2%Z, GetCourses 21); (3%Z, GetActivities 12)].

Definition after_early_requests : engine :=
  match run sample_parse new_engine early_requests with
  | Some e => e
  | None => new_engine
  end.

Definition after_initialize : engine :=
  match step sample_parse 4%Z after_early_requests InitializeDone with
  | Some e => e
  | None => new_engine
  end.


(** A cookie and a parsed identity of [false] are recorded, and every
    pending check has run. *)
Definition falsy_identity_run : list (Z * event) :=
  [(1%Z, RequestHeaders (VStr "JSESSIONID=1"));
   (2%Z, RouteContinued);
   (3%Z, UltraResponse ("x user: false," ++ nl ++ "y"))].

(** A cookie, then an identity that is an object. *)
Definition credentials_run : list (Z * event) :=
  [(1%Z, RequestHeaders (VStr "JSESSIONID=1"));
   (2%Z, RouteContinued);
   (3%Z, UltraResponse ("x user: {}," ++ nl ++ "y"))].

Definition after_cookie : engine :=
  match run sample_parse new_engine
          [(1%Z, RequestHeaders (VStr "JSESSIONID=1")); (2%Z, RouteContinued)]
  with
  | Some e => e
  | None => new_engine
  end.

(** The payload of a [log] notification, as the engine builds it from a
    reading of the clock. *)
Definition log_shape (times : list Z) (p : value) : Prop :=
  exists now lvl message,
    In now times /\
    p = VObj [("date", VNum now); ("level", VStr (level_name lvl));
              ("message", VStr message)] /\
    In (level_name lvl) ["INFO"; "DEBUG"; "WARN"; "ERROR"].

(** What a segment adds to the [log] notifications was built by [_log] from
    the clock reading of that segment. *)
Definition logged_at (now : Z) (p : value) : Prop :=
  exists lvl message, p = log_payload now lvl message.

(* ------------------------------------------------------------------ *)
(** ** Reading the transformers *)

(** The field [k] of a record, [undefined] when the record has none. *)
Definition field (v : value) (k : string) : value :=
  match v with
  | VObj fs => match assoc k fs with Some x => x | None => VUndef end
  | _ => VUndef
  end.

Definition nullish (v : value) : bool :=
  match v with
  | VUndef | VNull => true
  | _ => false
  end.

(** The input provides a [results] array. *)
Definition has_results (input : value) (results : list value) : Prop :=
  exists fs, input = VObj fs /\ assoc "results" fs = Some (VArr results).

(** An enrollment record with a course that is not an organization. *)
Definition is_course (enrollment : value) : bool :=
  (truthy (field enrollment "course") &&
   negb (truthy (field (field enrollment "course") "isOrganization")))%bool.

Definition course_record (enrollment : value) : value :=
  let course := field enrollment "course" in
  VObj [("courseId", field course "courseId");
        ("courseName", field course "name");
        ("id", field course "id")].

Definition courses_diagnostic : string :=
  "Invalid or incomplete course data object provided. 'results' array is missing.".

(** The worked example of the courses transformer. *)
Definition sample_enrollments : value :=
  VObj [("results",
    VArr [VObj [("course",
                 VObj [("courseId", VStr "A-1"); ("name", VStr "Intro");
                       ("id", VStr "_1_1"); ("isOrganization", VBool false)])];
          VObj [("course", VObj [("isOrganization", VBool true)])]])].

Definition sample_courses : value :=
  VObj [("courses",
    VArr [VObj [("courseId", VStr "A-1"); ("courseName", VStr "Intro");
                ("id", VStr "_1_1")]])].

(** The input is missing, or one of its two top-level fields is missing or
    falsy. *)
Definition lacks_stream_parts (input : value) : Prop :=
  truthy input = false \/
  truthy (field input "sv_streamEntries") = false \/
  truthy (field input "sv_extras") = false.

Definition activities_diagnostic : string :=
  "Invalid or incomplete data object provided.".

Definition no_activities : value := VObj [("activities", VArr [])].

(** Inputs with both top-level fields present on which the transformer
    throws: a [null] stream entry, and stream entries that are not an
    array. *)
Definition stream_with_null_entry : value :=
  VObj [("sv_streamEntries", VArr [VNull]); ("sv_extras", VObj [])].

Definition stream_entries_not_array : value :=
  VObj [("sv_streamEntries", VObj []); ("sv_extras", VObj [])].

(** The activity record of a kept stream entry. *)
Definition activity_of (courseMap : jsmap) (entry : value) : value :=
  let details := field entry "itemSpecificData" in
  let notificationDetails := field details "notificationDetails" in
  VObj
    [("activityName", js_or (field details "title") (VStr "Untitled Activity"));
     ("courseName",
      js_or (map_get (field entry "se_courseId") courseMap)
        (VStr "Unknown Course"));
     ("type",
      VStr (if is_str (field notificationDetails "sourceType") "UA"
            then "Assignment" else "Test"));
     ("dueDate", js_or (field notificationDetails "dueDate") VNull);
     ("givenDate", js_or (field notificationDetails "startDate") VNull)].

(** The lookup table has no entry for the key [k]. *)
Definition no_entry (k : value) (courseMap : jsmap) : Prop :=
  forall k' v, In (k', v) courseMap -> same_value_zero k' k = false.

(** A stream with an untitled test of an unlisted course and a dated
    assignment. *)
Definition sample_stream : value :=
  stream
    [VObj [("providerId", VStr "bb-nautilus");
           ("se_courseId", VStr "_9_1");
           ("itemSpecificData",
            VObj [("notificationDetails", VObj [("sourceType", VStr "TE")])])];
     stream_entry "Essay" "_1_1" "UA" [("dueDate", VStr "2025-09-01T00:00:00Z")];
     VObj [("providerId", VStr "bb-announcements")]]
    [extras_course "_1_1" "Writing"].

(** Two kept entries with different (name, course) pairs, ["Quiz-1"] of
    ["Math"] and ["Quiz"] of ["1-Math"], whose keys are both
    ["Quiz-1-Math"]. *)
Definition colliding_stream : value :=
  stream
    [stream_entry "Quiz-1" "_1_1" "UA" [];
     stream_entry "Quiz" "_2_1" "TE" []]
    [extras_course "_1_1" "Math"; extras_course "_2_1" "1-Math"].

(** Two entries for one activity with different lifecycle dates. *)
Definition repeated_stream : value :=
  stream
    [stream_entry "Essay" "_1_1" "UA" [("startDate", VStr "2025-09-01")];
     stream_entry "Lab" "_1_1" "UA" [];
     stream_entry "Essay" "_1_1" "UA" [("dueDate", VStr "2025-09-08")]]
    [extras_course "_1_1" "Writing"].

(** The (name, course) pair of an activity record. *)
Definition name_and_course (act : value) : value * value :=
  (field act "activityName", field act "courseName").

(** How many entries of a [Map] have the key [k]. *)
Definition count_key (k : value) (m : jsmap) : nat :=
  List.length (filter (fun p => same_value_zero (fst p) k) m).

(** A value that is not an object or an array. *)
Definition primitive (v : value) : bool :=
  match v with
  | VArr _ | VObj _ => false
  | _ => true
  end.

(** An input with both top-level fields whose stream entries are an array of
    records with primitive (or no) titles, and whose course table is missing
    or an array of records with primitive (or no) names. *)
Definition well_formed_stream (input : value) : Prop :=
  exists entries,
    field input "sv_streamEntries" = VArr entries /\
    truthy (field input "sv_extras") = true /\
    Forall (fun e => nullish e = false /\
                     primitive (field (field e "itemSpecificData") "title")
                       = true) entries /\
    (truthy (field (field input "sv_extras") "sx_courses") = false \/
     exists courses,
       field (field input "sv_extras") "sx_courses" = VArr courses /\
       Forall (fun c => nullish c = false /\ primitive (field c "name") = true)
         courses).

(* ------------------------------------------------------------------ *)
(** ** Reading the segments *)

(** The segments that read or write queue [q]: its requests, the settling of
    its actions and the segments that can open its gate. *)
Definition concerns (q : queue_id) (ev : event) : bool :=
  match q, ev with
  | Browser, InitializeDone => true
  | Browser, GetActivities _ => true
  | Browser, Settled Browser _ => true
  | Api, GetCourses _ => true
  | Api, Settled Api _ => true
  | Api, RouteContinued => true
  | Api, UltraResponse _ => true
  | _, _ => false
  end.

(** The last truthy [cookie] header of the requests of a run, [c] when there
    is none. *)
Fixpoint last_cookie (c : value) (evs : list (Z * event)) : value :=
  match evs with
  | [] => c
  | (_, RequestHeaders header_cookie) :: rest =>
      last_cookie (if truthy header_cookie then header_cookie else c) rest
  | _ :: rest => last_cookie c rest
  end.

(** The entry a course of the extras adds to the lookup table. *)
Definition course_pair (course : value) : value * value :=
  (field course "id", field course "name").

(** The type tag of a stream entry. *)
Definition source_type (entry : value) : value :=
  field (field (field entry "itemSpecificData") "notificationDetails")
    "sourceType".

(** A [Map] entry of the deduplication: the key is the key string of the
    record. *)
Definition keyed_entry (p : value * value) : Prop :=
  exists key, fst p = VStr key /\ activity_key (snd p) = Normal key.

(* ------------------------------------------------------------------ *)
(** ** src/mbe.js: the activity-stream response handler *)

(** [error.message] *)
Definition error_message (err : error) : string :=
  match err with
  | TypeError msg => msg
  | SyntaxError msg => msg
  end.

(** [Object.keys(v).length]: the number of distinct field names of an
    object, the length of an array or a string, 0 for another primitive. *)
Definition keys_count (v : value) : completion nat :=
  match v with
  | VUndef | VNull =>
      Throw (TypeError "Cannot convert undefined or null to object")
  | VObj fs => Normal (List.length (nodup string_dec (List.map fst fs)))
  | VArr l => Normal (List.length l)
  | VStr s => Normal (String.length s)
  | _ => Normal 0
  end.

(** [requestData.providers?.bb_deployment &&
     Object.keys(requestData.providers).length < 3]: whether the request is
    for the assignments stream. *)
Definition is_assignments_request (requestData : value) : completion bool :=
  providers <- get_prop requestData "providers" ;;
  bb_deployment <- get_prop_opt providers "bb_deployment" ;;
  if truthy bb_deployment then
    n <- keys_count providers ;;
    Normal (Nat.ltb n 3)
  else Normal false.

(** [this.emit(name, payload)] when the subscribers of [name] return; with
    a subscriber that throws it is [Subscribed.emit]. *)
Definition emit (name : string) (payload : value) (e : engine) : engine :=
  observe (Emit name payload) e.

Definition stream_failure (now : Z) (err : error) (e : engine) : engine :=
  _log now ERROR
    ("Error processing activity stream response: " ++ error_message err) e.

(** [_handleActivityStreamResponse]: [postDataJSON] is how
    [await response.request().postDataJSON()] settles and [json] how
    [await response.json()] settles; [now] is the clock when the handler
    reports. The engine is read and written only after the last [await].
    Returned with the engine: what the transformer printed on the console. *)
Definition _handleActivityStreamResponse (now : Z)
    (postDataJSON json : completion value) (e : engine) : engine * console :=
  match requestData <- postDataJSON ;; is_assignments_request requestData with
  | Throw err => (stream_failure now err e, [])
  | Normal false => (e, [])
  | Normal true =>
      match json with
      | Throw err => (stream_failure now err e, [])
      | Normal responseData =>
          match getActivitiesAsJson responseData with
          | (printed, Throw err) => (stream_failure now err e, printed)
          | (printed, Normal assignments) =>
              (_log now INFO
                 "Fetched and processed assignments from activity stream."
                 (emit "fetch:assignments" assignments e),
               printed)
          end
      end
  end.


(** A request for the assignments stream and one with a third provider. *)
Definition assignments_request : value :=
  VObj [("providers", VObj [("bb_deployment", VObj [])])].


(* ------------------------------------------------------------------ *)
(** ** src/mbe.js: the closure queued by getCourses *)

(** What [fetch] resolves to, as far as the closure reads it. *)
Record fetch_response : Type := mkResponse {
  response_ok : bool;
  response_status : Z;
  response_json : completion value
}.

Definition courses_url_prefix : string :=
  "https://mcl.blackboard.com/learn/api/v1/users/".

Definition courses_url_suffix : string :=
  "/memberships?expand=course.effectiveAvailability,course.permissions,courseRole&includeCount=true&limit=10000".

(** The template literal of the request URL, evaluated before the [try]
    block: it reads [this.userData.id]. *)
Definition courses_url (userData : value) : completion string :=
  id <- get_prop userData "id" ;;
  s <- to_string id ;;
  Normal (courses_url_prefix ++ s ++ courses_url_suffix).

(** The [try] block from the point where [fetch] settles: the message of
    the error the [catch] block receives, or the courses to emit; and what
    the transformer printed. *)
Definition courses_try (fetched : completion fetch_response)
  : (string + value) * console :=
  match fetched with
  | Throw err => (inl (error_message err), [])
  | Normal response =>
      if negb (response_ok response) then
        (inl ("API request failed with status "
                ++ Z_to_string (response_status response)), [])
      else
        match response_json response with
        | Throw err => (inl (error_message err), [])
        | Normal responseData =>
            match getCoursesAsJson responseData with
            | (printed, Throw err) => (inl (error_message err), printed)
            | (printed, Normal courses) => (inr courses, printed)
            end
        end
  end.

(* ------------------------------------------------------------------ *)
(** ** src/mbe.js: the page test and the timeouts of initialize and login *)

(** [s.includes(sub)] *)
Definition includes (s sub : string) : bool :=
  match cut sub s with
  | Some _ => true
  | None => false
  end.

Definition double_quote : string := String (ascii_of_nat 34) EmptyString.

(** The bytes of the two characters between [Map] and [a] in the literal of
    the source. *)
Definition header_middle : string :=
  String (ascii_of_nat 226) (String (ascii_of_nat 136)
  (String (ascii_of_nat 154) (String (ascii_of_nat 226)
  (String (ascii_of_nat 136) (String (ascii_of_nat 171) EmptyString))))).

Definition loginPageHeader : string :=
  "<h1 class=" ++ double_quote ++ "welcome" ++ double_quote
    ++ ">Login to Map" ++ header_middle ++ "a MCL Blackboard</h1>".

(** A segment that only logs. *)
Definition is_log_call (ev : event) : bool :=
  match ev with
  | LogCall _ _ => true
  | _ => false
  end.

Definition timeout_error : error := TypeError "Timeout 5000ms exceeded.".

(* ------------------------------------------------------------------ *)
(** ** src/mbe.js: the response listener *)

Definition ultra_url : string := "https://mcl.blackboard.com/ultra".

Definition stream_url : string :=
  "https://mcl.blackboard.com/learn/api/v1/streams/ultra".

Section ResponseListener.

(** [JSON.parse], an input of the model. *)
Variable JSON_parse : string -> completion value.

(** The listener [page.on('response', ...)]: [text] is how
    [await response.text()] settles; the other two are handed to
    [_handleActivityStreamResponse]. *)
Definition on_response (now : Z) (url method : string)
    (text : completion string) (postDataJSON json : completion value)
    (e : engine) : engine * console :=
  if (String.eqb url ultra_url && String.eqb method "GET")%bool then
    match text with
    | Normal responseBody =>
        (on_ultra_response JSON_parse now responseBody e, [])
    | Throw _ => (e, [])
    end
  else if (String.eqb url stream_url && String.eqb method "POST")%bool then
    _handleActivityStreamResponse now postDataJSON json e
  else (e, []).

End ResponseListener.

(** An observation that is a notification other than [log]. *)
Definition emits_data (o : obs) : bool :=
  match o with
  | Emit name _ => negb (String.eqb name "log")
  | _ => false
  end.

(* ================================================================== *)
(** * src/mbe.js with subscribers that may throw *)

(** [this.emit(name, payload)] of an [EventEmitter] calls the subscribers of
    [name] one after the other inside the segment of the caller, and what a
    subscriber throws is thrown by [emit], hence by [_log]. The definitions
    above read the engine with subscribers that return. In the module below
    the subscribers are an input: [subscribers name payload] is how the call
    of the subscribers of [name] with [payload] completes, a return or a
    throw (a subscriber that calls the engine back is not covered). A
    function of the engine returns the state it leaves and how it
    completes; a throw ends the segment at that point, with the writes made
    before it. *)

Definition returns {A : Type} (c : completion A) : bool :=
  match c with
  | Normal _ => true
  | Throw _ => false
  end.

(** The drain routine of [q] is left by a throw: nothing is awaited any
    more, and the flag is not written. *)
Definition abandon (q : queue_id) (e : engine) : engine :=
  let s := queue_of q e in
  set_queue q (mkQueue (actionQueue s) (isReady s) (isProcessing s) None) e.

(** The argument of [_log] in [getActivities] / [getCourses]. *)
Definition request_message (q : queue_id) : string :=
  match q with
  | Browser => "Queueing browser action: getActivities"
  | Api => "Queueing API action: getCourses"
  end.

Module Subscribed.

(** How the awaited calls of [login] settle, and the clock in the segments
    in which it logs. *)
Record login_run : Type := mkLogin {
  consent_click : completion unit;   (* click on the OK button, 5 s timeout *)
  consent_time : Z;                  (* the clock when that click has settled *)
  username_fill : completion unit;
  password_fill : completion unit;
  sign_in_click : completion unit;
  network_idle : completion unit;    (* waitForLoadState, 10 s timeout *)
  idle_time : Z                      (* the clock when that wait has settled *)
}.

(** How the awaited calls of [initialize] settle, and the clock in the
    segments in which it logs. *)
Record initialize_run : Type := mkInitialize {
  start_time : Z;                    (* the clock when [initialize] is called *)
  browser_launch : completion unit;
  browser_newPage : completion unit;
  page_goto : completion unit;
  page_content : completion string;
  content_time : Z;                  (* the clock when the content has arrived *)
  login_calls : login_run;
  done_time : Z                      (* the clock when [login] has resolved *)
}.

Section Subscribers.

Variable subscribers : string -> value -> completion unit.

(** [this.emit(name, payload)] *)
Definition emit (name : string) (payload : value) (e : engine)
  : engine * completion unit :=
  (observe (Emit name payload) e, subscribers name payload).

(** [_log(level, message)] *)
Definition _log (now : Z) (lvl : level) (message : string) (e : engine)
  : engine * completion unit :=
  emit "log" (log_payload now lvl message) e.

(** [c; k]: the statements [k] run when [c] completes normally. *)
Definition and_then (c : engine * completion unit)
    (k : engine -> engine * completion unit) : engine * completion unit :=
  match c with
  | (e, Normal _) => k e
  | (e, Throw err) => (e, Throw err)
  end.

(** [try { c } catch (error) { h }] *)
Definition catch_with (c : engine * completion unit)
    (h : error -> engine -> engine * completion unit)
  : engine * completion unit :=
  match c with
  | (e, Normal u) => (e, Normal u)
  | (e, Throw err) => h err e
  end.

(** The rest of one loop iteration of [_tryProcessBrowserQueue] /
    [_tryProcessApiQueue], from the point where the awaited action settles.
    On a rejection the [catch] block reports; when the report throws, the
    routine is left there, before [isProcessing...Queue = false]. *)
Definition resume (now : Z) (q : queue_id) (o : outcome) (e : engine)
  : option (engine * completion unit) :=
  let s := queue_of q e in
  match awaiting s with
  | None => None
  | Some a =>
      let e1 := observe (Finished q a o) e in
      match o with
      | Resolved => Some (drain_loop q e1, Normal tt)
      | Rejected message =>
          match _log now ERROR (failure_prefix q ++ message) e1 with
          | (e2, Normal _) => Some (drain_loop q e2, Normal tt)
          | (e2, Throw err) => Some (abandon q e2, Throw err)
          end
      end
  end.

Definition _checkApiReady (now : Z) (e : engine) : engine * completion unit :=
  if isApiReady e then (e, Normal tt)
  else if (truthy (cookie e) && truthy (userData e))%bool then
    and_then
      (_log now INFO "API credentials acquired. API queue is now ready."
         (set_ready Api e))
      (fun e1 => (_tryProcessApiQueue e1, Normal tt))
  else (e, Normal tt).

(** [JSON.parse], an input of the model. *)
Variable JSON_parse : string -> completion value.

(** The response handler for GET /ultra after [await response.text()]; its
    [catch] block swallows what [_checkApiReady] throws. *)
Definition on_ultra_response (now : Z) (responseBody : string) (e : engine)
  : engine :=
  match getString responseBody "user: " ("," ++ nl) with
  | Normal userDataString =>
      if truthy userDataString then
        match userDataString with
        | VStr text =>
            match JSON_parse text with
            | Normal u => fst (_checkApiReady now (set_userData u e))
            | Throw _ => e
            end
        | _ => e
        end
      else e
  | Throw _ => e
  end.

(** One segment: the state it leaves and whether it ran to its end. *)
Definition step (now : Z) (e : engine) (ev : event)
  : option (engine * completion unit) :=
  match ev with
  | InitializeDone =>
      Some (and_then
              (_log now INFO "Browser is ready. Processing browser action queue."
                 (set_ready Browser e))
              (fun e1 => (_tryProcessBrowserQueue e1, Normal tt)))
  | GetActivities a =>
      Some (and_then
              (_log now DEBUG "Queueing browser action: getActivities" e)
              (fun e1 => (_tryProcessBrowserQueue (push Browser a e1), Normal tt)))
  | GetCourses a =>
      Some (and_then
              (_log now DEBUG "Queueing API action: getCourses" e)
              (fun e1 => (_tryProcessApiQueue (push Api a e1), Normal tt)))
  | Settled q o => resume now q o e
  | RequestHeaders header_cookie =>
      Some (if truthy header_cookie then set_cookie header_cookie e else e,
            Normal tt)
  | RouteContinued => Some (_checkApiReady now e)
  | UltraResponse responseBody =>
      Some (on_ultra_response now responseBody e, Normal tt)
  | LogCall lvl message => Some (_log now lvl message e)
  end.

(** A run: the segments in the order the event loop schedules them; a throw
    ends its own segment only. *)
Fixpoint run (e : engine) (evs : list (Z * event)) : option engine :=
  match evs with
  | [] => Some e
  | (now, ev) :: rest =>
      match step now e ev with
      | Some (e', _) => run e' rest
      | None => None
      end
  end.

(** Whether a request made at [now] reaches its [push]. *)
Definition accepted (now : Z) (q : queue_id) : bool :=
  returns (subscribers "log" (log_payload now DEBUG (request_message q))).

(** The actions the callers handed to queue [q], in the order of the
    requests: those of the requests that reached their [push]. *)
Fixpoint enqueued (q : queue_id) (evs : list (Z * event)) : list action :=
  match evs with
  | [] => []
  | (now, GetActivities a) :: rest =>
      match q with
      | Browser =>
          if accepted now Browser then a :: enqueued q rest
          else enqueued q rest
      | Api => enqueued q rest
      end
  | (now, GetCourses a) :: rest =>
      match q with
      | Browser => enqueued q rest
      | Api =>
          if accepted now Api then a :: enqueued q rest else enqueued q rest
      end
  | _ :: rest => enqueued q rest
  end.

(* ------------------------------------------------------------------ *)
(** ** The activity-stream response handler *)

Definition stream_failure (now : Z) (err : error) (e : engine)
  : engine * completion unit :=
  _log now ERROR
    ("Error processing activity stream response: " ++ error_message err) e.

(** [_handleActivityStreamResponse]: the state it leaves, how its promise
    settles, and what the transformer printed. The emission and the INFO
    log are inside the [try] block; the ERROR log of the [catch] block is
    not guarded. *)
Definition _handleActivityStreamResponse (now : Z)
    (postDataJSON json : completion value) (e : engine)
  : (engine * completion unit) * console :=
  match requestData <- postDataJSON ;; is_assignments_request requestData with
  | Throw err => (stream_failure now err e, [])
  | Normal false => ((e, Normal tt), [])
  | Normal true =>
      match json with
      | Throw err => (stream_failure now err e, [])
      | Normal responseData =>
          match getActivitiesAsJson responseData with
          | (printed, Throw err) => (stream_failure now err e, printed)
          | (printed, Normal assignments) =>
              (catch_with
                 (and_then (emit "fetch:assignments" assignments e)
                    (_log now INFO
                       "Fetched and processed assignments from activity stream."))
                 (stream_failure now),
               printed)
          end
      end
  end.

(* ------------------------------------------------------------------ *)
(** ** The closure queued by getCourses *)

Definition courses_failure (now : Z) (message : string) (e : engine)
  : engine * completion unit :=
  _log now ERROR ("Failed to fetch or process courses: " ++ message) e.

(** The rest of the closure, from the point where [fetch] settles: the
    state it leaves, how its promise settles, and what the transformer
    printed. *)
Definition courses_action_end (now : Z) (fetched : completion fetch_response)
    (e : engine) : (engine * completion unit) * console :=
  match courses_try fetched with
  | (inr courses, printed) =>
      (catch_with
         (and_then (emit "fetch:courses" courses e)
            (_log now INFO "Successfully fetched and processed courses."))
         (fun err => courses_failure now (error_message err)),
       printed)
  | (inl message, printed) => (courses_failure now message e, printed)
  end.

(* ------------------------------------------------------------------ *)
(** ** initialize and login *)

(** A part of an [async] function: the segments it runs, oldest first, each
    with its clock reading, and how it completes. *)
Definition log_segment (now : Z) (lvl : level) (message : string)
  : list (Z * event) * completion unit :=
  ([(now, LogCall lvl message)],
   subscribers "log" (log_payload now lvl message)).

(** [s; k] *)
Definition followed_by {A : Type} (s : list (Z * event) * completion unit)
    (k : list (Z * event) * completion A) : list (Z * event) * completion A :=
  match s with
  | (segments, Normal _) => ((segments ++ fst k)%list, snd k)
  | (segments, Throw err) => (segments, Throw err)
  end.

(** [await c; k] for a call [c] whose result is not read *)
Definition awaited {A : Type} (c : completion unit)
    (k : list (Z * event) * completion A) : list (Z * event) * completion A :=
  match c with
  | Normal _ => k
  | Throw err => ([], Throw err)
  end.

(** The first [try] statement of [login]: the DEBUG log after the click is
    inside the [try] block, the one of the [catch] block is not guarded. *)
Definition consent (r : login_run) : list (Z * event) * completion unit :=
  let skipping :=
    log_segment (consent_time r) DEBUG
      "Cookie consent banner not found, skipping." in
  match consent_click r with
  | Normal _ =>
      match log_segment (consent_time r) DEBUG "Clicked cookie consent button."
      with
      | (segments, Normal u) => (segments, Normal u)
      | (segments, Throw _) => ((segments ++ fst skipping)%list, snd skipping)
      end
  | Throw _ => skipping
  end.

(** The last [try] statement of [login]. *)
Definition idle (r : login_run) : list (Z * event) * completion unit :=
  match network_idle r with
  | Normal _ => ([], Normal tt)
  | Throw _ =>
      log_segment (idle_time r) WARN
        "Network did not become idle after login, continuing anyway."
  end.

Definition login (r : login_run) : list (Z * event) * completion unit :=
  followed_by (consent r)
    (awaited (username_fill r)
       (awaited (password_fill r)
          (awaited (sign_in_click r) (idle r)))).

(** [initialize] from [this.isBrowserReady = true] on, in the segment read
    at [now]: the segment [InitializeDone]. *)
Definition ready_segment (now : Z) : list (Z * event) * completion bool :=
  ([(now, InitializeDone)],
   match subscribers "log"
           (log_payload now INFO
              "Browser is ready. Processing browser action queue.")
   with
   | Normal _ => Normal true
   | Throw err => Throw err
   end).

(** [initialize]: the log calls that precede [this.isBrowserReady = true]
    in the same segment are listed before [InitializeDone], with the same
    clock reading. *)
Definition initialize (r : initialize_run)
  : list (Z * event) * completion bool :=
  followed_by
    (log_segment (start_time r) INFO "Engine initialization started.")
    (awaited (browser_launch r)
       (awaited (browser_newPage r)
          (awaited (page_goto r)
             match page_content r with
             | Throw err => ([], Throw err)
             | Normal content =>
                 let isNotLoggedIn := includes content loginPageHeader in
                 if negb isNotLoggedIn then
                   followed_by
                     (log_segment (content_time r) INFO
                        "User is already logged in.")
                     (ready_segment (content_time r))
                 else
                   followed_by
                     (log_segment (content_time r) INFO
                        "User not logged in, proceeding with login.")
                     (followed_by (login (login_calls r))
                        (followed_by
                           (log_segment (done_time r) INFO "Login successful.")
                           (ready_segment (done_time r))))
             end))).

End Subscribers.

End Subscribed.

(* ------------------------------------------------------------------ *)
(** ** Reading a run with subscribers *)

(** Subscribers that return. *)
Definition passive (name : string) (payload : value) : completion unit :=
  Normal tt.

Definition subscriber_error : error := TypeError "subscriber failed".

(** A [log] subscriber that throws on every ERROR entry. *)
Definition throws_on_error_entries (name : string) (payload : value)
  : completion unit :=
  if (String.eqb name "log" && is_str (field payload "level") "ERROR")%bool
  then Throw subscriber_error else Normal tt.


(** A [log] subscriber that throws on the entries read at [t]. *)
Definition throws_at (t : Z) (name : string) (payload : value)
  : completion unit :=
  if (String.eqb name "log"
      && match field payload "date" with
         | VNum n => Z.eqb n t
         | _ => false
         end)%bool
  then Throw subscriber_error else Normal tt.

(** A subscriber of the data notifications that throws; [log] has none. *)
Definition throws_on_data (name : string) (payload : value)
  : completion unit :=
  if String.eqb name "log" then Normal tt else Throw subscriber_error.



(** The payload of the INFO entry emitted at [now] by the segment that opens
    the gate of [q]. *)
Definition gate_report (q : queue_id) (now : Z) : value :=
  VObj [("date", VNum now);
        ("level", VStr "INFO");
        ("message",
         VStr (match q with
               | Browser => "Browser is ready. Processing browser action queue."
               | Api => "API credentials acquired. API queue is now ready."
               end))].


(** The state of queue [q] between two segments, after the requests that
    enqueued [enq], whatever the subscribers do:
    - every enqueued action has been called or is still queued, in the order
      of the requests;
    - the called actions have settled, but for the one awaited;
    - the flag is up while the drain loop is suspended at an [await];
    - behind a closed gate nothing drains and nothing has been called. *)
Definition sequential (q : queue_id) (enq : list action) (e : engine) : Prop :=
  let s := queue_of q e in
  (invoked q (trace e) ++ actionQueue s)%list = enq /\
  (List.map fst (finished q (trace e)) ++ opt_list (awaiting s))%list
    = invoked q (trace e) /\
  (awaiting s <> None -> isProcessing s = true) /\
  (isReady s = false -> isProcessing s = false /\ invoked q (trace e) = []).

(** The drain routine of [q] was left by a throw: the flag is up and
    nothing is awaited. *)
Definition stalled (q : queue_id) (e : engine) : Prop :=
  isProcessing (queue_of q e) = true /\ awaiting (queue_of q e) = None.

(** Three requests for the activity page while the browser gate is closed,
    the end of [initialize], and the first action rejecting. *)
Definition three_requests : list (Z * event) :=
  [(1%Z, GetActivities 11); (2%Z, GetActivities 12); (3%Z, GetActivities 13)].

Definition failing_first_action : list (Z * event) :=
  (three_requests ++
   [(4%Z, InitializeDone); (5%Z, Settled Browser (Rejected "page closed"))])
  %list.

(** The state a run reaches, or the initial state when a segment was not
    enabled. *)
Definition state_after (o : option engine) : engine :=
  match o with
  | Some e => e
  | None => new_engine
  end.

Definition after_failing_first_action : engine :=
  state_after
    (Subscribed.run throws_on_error_entries sample_parse new_engine
       failing_first_action).







(** The payloads of the other reports. *)
Definition info_entry (now : Z) (message : string) : value :=
  VObj [("date", VNum now); ("level", VStr "INFO");
        ("message", VStr message)].

Definition error_entry (now : Z) (message : string) : value :=
  VObj [("date", VNum now); ("level", VStr "ERROR");
        ("message", VStr message)].

Definition debug_entry (now : Z) (message : string) : value :=
  VObj [("date", VNum now); ("level", VStr "DEBUG");
        ("message", VStr message)].

Definition warn_entry (now : Z) (message : string) : value :=
  VObj [("date", VNum now); ("level", VStr "WARN");
        ("message", VStr message)].

(** The subscribers return from the entry. *)
Definition reported (subscribers : string -> value -> completion unit)
    (entry : value) : Prop :=
  subscribers "log" entry = Normal tt.

(** [login] gets through: the consent step reports, the two fills and the
    sign-in click resolve, and the wait for the network resolves or is
    reported. *)
Definition login_can_finish (subscribers : string -> value -> completion unit)
    (r : Subscribed.login_run) : Prop :=
  let skipping :=
    debug_entry (Subscribed.consent_time r)
      "Cookie consent banner not found, skipping." in
  match Subscribed.consent_click r with
  | Normal _ =>
      reported subscribers
        (debug_entry (Subscribed.consent_time r)
           "Clicked cookie consent button.") \/
      reported subscribers skipping
  | Throw _ => reported subscribers skipping
  end /\
  (exists u, Subscribed.username_fill r = Normal u) /\
  (exists u, Subscribed.password_fill r = Normal u) /\
  (exists u, Subscribed.sign_in_click r = Normal u) /\
  match Subscribed.network_idle r with
  | Normal _ => True
  | Throw _ =>
      reported subscribers
        (warn_entry (Subscribed.idle_time r)
           "Network did not become idle after login, continuing anyway.")
  end.

(** [initialize] gets through: the awaited calls it needs resolve and the
    subscribers return from every entry on its way. *)
Definition initialize_can_finish
    (subscribers : string -> value -> completion unit)
    (r : Subscribed.initialize_run) : Prop :=
  reported subscribers
    (info_entry (Subscribed.start_time r) "Engine initialization started.") /\
  (exists u, Subscribed.browser_launch r = Normal u) /\
  (exists u, Subscribed.browser_newPage r = Normal u) /\
  (exists u, Subscribed.page_goto r = Normal u) /\
  exists content,
    Subscribed.page_content r = Normal content /\
    if includes content loginPageHeader then
      reported subscribers
        (info_entry (Subscribed.content_time r)
           "User not logged in, proceeding with login.") /\
      login_can_finish subscribers (Subscribed.login_calls r) /\
      reported subscribers
        (info_entry (Subscribed.done_time r) "Login successful.") /\
      reported subscribers (gate_report Browser (Subscribed.done_time r))
    else
      reported subscribers
        (info_entry (Subscribed.content_time r) "User is already logged in.") /\
      reported subscribers (gate_report Browser (Subscribed.content_time r)).

(** A timed segment that only logs. *)
Definition logs_only (segment : Z * event) : Prop :=
  is_log_call (snd segment) = true.

(** A login in which the consent banner is missing and the network never
    becomes idle. *)
Definition slow_login : Subscribed.login_run :=
  Subscribed.mkLogin (Throw timeout_error) 6%Z (Normal tt) (Normal tt)
    (Normal tt) (Throw timeout_error) 7%Z.

(** A [log] subscriber that throws on the report of the browser gate. *)
Definition throws_on_gate_report (name : string) (payload : value)
  : completion unit :=
  if (String.eqb name "log"
      && is_str (field payload "message")
           "Browser is ready. Processing browser action queue.")%bool
  then Throw subscriber_error else Normal tt.

(** The page shows the dashboard: the user is logged in already. *)
Definition logged_in_run : Subscribed.initialize_run :=
  Subscribed.mkInitialize 4%Z (Normal tt) (Normal tt) (Normal tt)
    (Normal "<body>dashboard</body>") 5%Z slow_login 8%Z.

(** The page shows the login header. *)
Definition login_needed_run : Subscribed.initialize_run :=
  Subscribed.mkInitialize 4%Z (Normal tt) (Normal tt) (Normal tt)
    (Normal ("<body>" ++ loginPageHeader ++ "</body>")) 5%Z slow_login 8%Z.

(* ================================================================== *)
(** * Properties *)

(* ------------------------------------------------------------------ *)
(** ** Strings *)

Lemma append_nil_r (s : string) : s ++ "" = s.
Proof. induction s as [|c s IH]; simpl; [reflexivity | now rewrite IH]. Qed.

Lemma append_assoc (a b c : string) : (a ++ b) ++ c = a ++ b ++ c.
Proof. induction a as [|x a IH]; simpl; [reflexivity | now rewrite IH]. Qed.

Lemma length_append (a b : string) :
  String.length (a ++ b) = String.length a + String.length b.
Proof. induction a as [|x a IH]; simpl; [reflexivity | now rewrite IH]. Qed.

Lemma prefix_true_iff (p s : string) :
  String.prefix p s = true <-> exists t, s = p ++ t.
Proof.
  revert s; induction p as [|c p IH]; intros s; simpl.
  - split; [intros _; now exists s | intros _; now destruct s].
  - destruct s as [|d s].
    + split; [discriminate | intros [t H]; discriminate].
    + simpl. destruct (Ascii.ascii_dec c d) as [->|ne].
      * rewrite IH. split; intros [t H]; exists t.
        -- now rewrite H.
        -- now injection H.
      * split; [discriminate | intros [t H]; injection H; congruence].
Qed.

Lemma drop_append (p t : string) : drop (String.length p) (p ++ t) = t.
Proof. induction p as [|c p IH]; simpl; [now destruct t | exact IH]. Qed.

Lemma prefix_drop (p s : string) :
  String.prefix p s = true -> s = p ++ drop (String.length p) s.
Proof.
  intros H. apply prefix_true_iff in H as [t ->]. now rewrite drop_append.
Qed.

Lemma cut_unfold (sep s : string) :
  cut sep s =
  if String.prefix sep s then Some (EmptyString, drop (String.length sep) s)
  else match s with
       | EmptyString => None
       | String c s' =>
           match cut sep s' with
           | Some (a, b) => Some (String c a, b)
           | None => None
           end
       end.
Proof. destruct s; reflexivity. Qed.

Lemma cut_sound (sep s a b : string) :
  cut sep s = Some (a, b) -> first_occurrence sep s a b.
Proof.
  revert a b; induction s as [|c s IH]; intros a b; rewrite cut_unfold.
  - destruct (String.prefix sep "") eqn:P; [|discriminate].
    intros [= <- <-]. split; [|simpl; lia].
    simpl. now apply prefix_drop.
  - destruct (String.prefix sep (String c s)) eqn:P.
    + intros [= <- <-]. split; [|simpl; lia].
      simpl. now apply prefix_drop.
    + destruct (cut sep s) as [[a' b']|] eqn:C; [|discriminate].
      intros [= <- <-]. destruct (IH a' b' eq_refl) as [E M].
      split; [simpl; now rewrite <- E|].
      intros pre' post' H. destruct pre' as [|d pre'].
      * exfalso. simpl in H.
        assert (String.prefix sep (String c s) = true)
          by (apply prefix_true_iff; now exists post').
        congruence.
      * simpl in H. injection H as _ H. simpl.
        specialize (M pre' post' H). lia.
Qed.

Lemma cut_none (sep s : string) : cut sep s = None -> ~ occurs sep s.
Proof.
  induction s as [|c s IH]; rewrite cut_unfold.
  - destruct (String.prefix sep "") eqn:P; [discriminate|].
    intros _ (pre & post & H). destruct pre; [|discriminate].
    simpl in H. assert (String.prefix sep "" = true)
      by (apply prefix_true_iff; now exists post). congruence.
  - destruct (String.prefix sep (String c s)) eqn:P; [discriminate|].
    destruct (cut sep s) as [[a b]|] eqn:C; [discriminate|].
    intros _ (pre & post & H). destruct pre as [|d pre].
    + simpl in H. assert (String.prefix sep (String c s) = true)
        by (apply prefix_true_iff; now exists post). congruence.
    + simpl in H. injection H as _ H. apply IH; [reflexivity|].
      now exists pre, post.
Qed.

Lemma cut_length (sep s a b : string) :
  cut sep s = Some (a, b) ->
  String.length s = String.length a + String.length sep + String.length b.
Proof.
  intros H. apply cut_sound in H as [E _]. subst s.
  rewrite !length_append. lia.
Qed.

Lemma hd_split_fuel (fuel : nat) (sep s : string) :
  sep <> "" -> String.length s <= fuel ->
  nth_error (split_fuel fuel sep s) 0 = Some (first_piece sep s).
Proof.
  intros Hsep Hlen. unfold first_piece. destruct fuel as [|f]; simpl.
  - destruct s; [|simpl in Hlen; lia].
    destruct sep; [congruence|]. reflexivity.
  - destruct (cut sep s) as [[a b]|]; reflexivity.
Qed.

Lemma first_piece_spec (sep s : string) :
  (exists rest, first_occurrence sep s (first_piece sep s) rest) \/
  (~ occurs sep s /\ first_piece sep s = s).
Proof.
  unfold first_piece. destruct (cut sep s) as [[a b]|] eqn:C.
  - left. exists b. now apply cut_sound.
  - right. split; [now apply cut_none | reflexivity].
Qed.

Lemma eqb_empty_false (s : string) : s <> "" -> String.eqb s "" = false.
Proof. intros H. apply String.eqb_neq. exact H. Qed.

Lemma split_no_match (s sep : string) :
  sep <> "" -> cut sep s = None -> split s sep = [s].
Proof.
  intros Hsep C. unfold split. rewrite (eqb_empty_false _ Hsep).
  destruct (String.length s); simpl; [reflexivity | now rewrite C].
Qed.

Lemma split_match (s sep a b : string) :
  sep <> "" -> cut sep s = Some (a, b) ->
  nth_error (split s sep) 1 = Some (first_piece sep b).
Proof.
  intros Hsep C. unfold split. rewrite (eqb_empty_false _ Hsep).
  pose proof (cut_length _ _ _ _ C) as L.
  assert (0 < String.length sep) by (destruct sep; [congruence | simpl; lia]).
  destruct (String.length s) as [|f] eqn:Ls; [lia|].
  simpl. rewrite C. simpl. apply hd_split_fuel; [assumption | lia].
Qed.

Lemma first_occurrence_cut (sep s pre post : string) :
  first_occurrence sep s pre post -> cut sep s = Some (pre, post).
Proof.
  intros [E M]. destruct (cut sep s) as [[a b]|] eqn:C.
  - destruct (cut_sound _ _ _ _ C) as [E' M'].
    pose proof (M a b E') as L1. pose proof (M' pre post E) as L2.
    assert (L : String.length a = String.length pre) by lia.
    clear L1 L2 M M' C. rewrite E in E'. clear E.
    revert a L E'. induction pre as [|c pre IH]; intros [|d a] L E'; simpl in *;
      try discriminate.
    + f_equal. f_equal.
      revert post b E'. induction sep as [|x sep IHs]; intros post b E'; simpl in *.
      * now symmetry.
      * injection E' as E'. now apply IHs.
    + injection E' as -> E'. injection L as L.
      specialize (IH a L E'). now injection IH as -> ->.
  - exfalso. apply (cut_none _ _ C). now exists pre, post.
Qed.

(* ------------------------------------------------------------------ *)
(** ** getString *)

Lemma split_head (s sep : string) :
  sep <> "" -> nth_error (split s sep) 0 = Some (first_piece sep s).
Proof.
  intros Hsep. unfold split. rewrite (eqb_empty_false _ Hsep).
  now apply hd_split_fuel.
Qed.

Lemma getString_left_absent (s l r : string) :
  l <> "" -> ~ occurs l s -> getString s l r = Normal not_found.
Proof.
  intros Hl Hno. cbv [getString getString_body call_split bind index_str].
  destruct (cut l s) as [[a b]|] eqn:C.
  - exfalso. apply Hno. destruct (cut_sound _ _ _ _ C) as [E _].
    now exists a, b.
  - rewrite (split_no_match _ _ Hl C). reflexivity.
Qed.

Lemma getString_left_present (s l r pre post : string) :
  l <> "" -> r <> "" -> first_occurrence l s pre post ->
  getString s l r = Normal (VStr (first_piece r (first_piece l post))).
Proof.
  intros Hl Hr F. apply first_occurrence_cut in F.
  cbv [getString getString_body call_split bind index_str].
  rewrite (split_match _ _ _ _ Hl F), (split_head _ _ Hr). reflexivity.
Qed.

(** C5, as the specification states it, fails: with the left delimiter
    present and the right delimiter absent the result is the rest of the
    text, not the not-found sentinel. *)
Lemma getString_right_absent_not_sentinel :
  ~ (forall s l r : string,
        ~ occurs l s \/ ~ occurs r s -> getString s l r = Normal not_found).
Proof.
  intros H.
  specialize (H page_without_right "user: " ("," ++ nl)).
  assert (N : ~ occurs ("," ++ nl) page_without_right)
    by (apply cut_none; vm_compute; reflexivity).
  specialize (H (or_intror N)). vm_compute in H. discriminate H.
Qed.

(** C5 (amended): [getString] never throws. With non-empty delimiters it
    returns the not-found sentinel when the left delimiter is absent; when the
    left delimiter is present it takes the segment of the text after the first
    occurrence of the left delimiter up to the next occurrence of the left
    delimiter (or to the end of the text) and returns the part of that segment
    before its first occurrence of the right delimiter, or the whole segment
    when the right delimiter does not occur in it. The two worked examples
    give [{x:1}] and the sentinel. *)
Theorem getString_between (s l r : string) :
  (exists v, getString s l r = Normal v) /\
  (l <> "" -> r <> "" ->
   (~ occurs l s -> getString s l r = Normal not_found) /\
   (forall pre post, first_occurrence l s pre post ->
      exists seg out,
        getString s l r = Normal (VStr out) /\
        ((exists rest, first_occurrence l post seg rest) \/
         (~ occurs l post /\ seg = post)) /\
        ((exists rest, first_occurrence r seg out rest) \/
         (~ occurs r seg /\ out = seg)))) /\
  getString page_with_user "user: " ("," ++ nl) = Normal (VStr "{x:1}") /\
  getString page_without_marker "user: " ("," ++ nl) = Normal not_found.
Proof.
  split; [|split; [|split; reflexivity]].
  - unfold getString, try_catch.
    destruct (getString_body s l r) as [v|e]; eauto.
  - intros Hl Hr. split.
    + now apply getString_left_absent.
    + intros pre post F.
      exists (first_piece l post), (first_piece r (first_piece l post)).
      split; [now apply (getString_left_present s l r pre post)|].
      split; apply first_piece_spec.
Qed.

Lemma getString_between_witness :
  exists seg out,
    getString "LaLb;" "L" ";" = Normal (VStr out) /\
    ((exists rest, first_occurrence "L" "aLb;" seg rest) \/
     (~ occurs "L" "aLb;" /\ seg = "aLb;")) /\
    ((exists rest, first_occurrence ";" seg out rest) \/
     (~ occurs ";" seg /\ out = seg)).
Proof.
  destruct (getString_between "LaLb;" "L" ";") as (_ & H & _).
  assert (Hl : "L" <> "") by discriminate.
  assert (Hr : ";" <> "") by discriminate.
  destruct (H Hl Hr) as (_ & K).
  apply (K "" "aLb;"). apply cut_sound. reflexivity.
Defined.

(* ------------------------------------------------------------------ *)
(** ** The drain loops *)

Lemma invoked_app (q : queue_id) (t1 t2 : list obs) :
  invoked q (t1 ++ t2)%list = (invoked q t1 ++ invoked q t2)%list.
Proof.
  induction t1 as [|o t1 IH]; simpl; [reflexivity|].
  destruct o as [n p|q' a|q' a o]; try exact IH.
  destruct q, q'; simpl; now rewrite ?IH.
Qed.

Lemma finished_app (q : queue_id) (t1 t2 : list obs) :
  finished q (t1 ++ t2)%list = (finished q t1 ++ finished q t2)%list.
Proof.
  induction t1 as [|o t1 IH]; simpl; [reflexivity|].
  destruct o as [n p|q' a|q' a o]; try exact IH.
  destruct q, q'; simpl; now rewrite ?IH.
Qed.

Lemma logs_app (t1 t2 : list obs) :
  logs (t1 ++ t2)%list = (logs t1 ++ logs t2)%list.
Proof.
  induction t1 as [|o t1 IH]; simpl; [reflexivity|].
  destruct o as [n p|q' a|q' a o]; try exact IH.
  destruct (String.eqb n "log"); simpl; now rewrite IH.
Qed.

Ltac break_engine e :=
  let b := fresh "b" in let a := fresh "a" in
  destruct e as [b a ? ? ?];
  destruct b as [? ? ? ?]; destruct a as [? ? ? ?].

(** Decide the tests of the code under [inv] until the state it returns is
    an explicit record. *)
Ltac run_code :=
  cbn -[inv];
  repeat match goal with
    | |- inv _ _ (if ?b then _ else _) => destruct b eqn:?; cbn -[inv] in *
    | |- inv _ _ (match ?l with [] => _ | _ :: _ => _ end) =>
        destruct l eqn:?; cbn -[inv] in *
    | |- inv _ _ (match ?o with Some _ => _ | None => _ end) =>
        destruct o eqn:?; cbn -[inv] in *
    end.

Ltac list_eq :=
  repeat rewrite <- app_assoc in *; cbn in *;
  solve [ assumption | congruence
        | repeat match goal with
            | H : (_ ++ _)%list = [] |- _ =>
                apply app_eq_nil in H; destruct H
            end; subst; cbn in *; congruence ].

Ltac queue_crush :=
  unfold inv in *; cbn in *;
  repeat match goal with
    | a : option action |- _ => destruct a
    end;
  cbn in *;
  rewrite ?invoked_app, ?finished_app, ?map_app in *; cbn in *;
  rewrite ?invoked_app, ?finished_app, ?map_app in *; cbn in *;
  rewrite ?app_nil_r in *;
  repeat match goal with
    | H : _ /\ _ |- _ => destruct H
    | H : _ <-> _ |- _ => destruct H
    | H : (_ || _)%bool = false |- _ =>
        apply orb_false_iff in H
    | H : negb _ = false |- _ => apply negb_false_iff in H
    end;
  subst;
  repeat match goal with
    | H : ?x = ?x -> _ |- _ => specialize (H eq_refl)
    | H : _ /\ _ |- _ => destruct H
    | H : Some _ <> None -> _ |- _ =>
        let K := fresh in
        assert (K : false = true) by (apply H; discriminate); discriminate K
    | H : ?b = true, K : ?b = true -> _ |- _ => specialize (K H)
    | H : ?b = false, K : ?b = false -> _ |- _ => specialize (K H)
    | H : ?b = true, K : ?b = false |- _ => congruence
    | H : None <> None |- _ => exfalso; apply H; reflexivity
    end;
  subst;
  repeat split; intros; try discriminate; try congruence; try list_eq;
  try solve [intuition (try discriminate; try congruence)].

Lemma inv_tryProcess (q q' : queue_id) (enq : list action) (e : engine) :
  inv q enq e -> inv q enq (_tryProcessQueue q' e).
Proof.
  intros H. break_engine e. unfold _tryProcessQueue, drain_loop.
  destruct q'; run_code; try exact H; destruct q; queue_crush.
Qed.





Section EngineInvariant.

Variable JSON_parse : string -> completion value.



End EngineInvariant.

Lemma finished_log (q : queue_id) (now : Z) (lvl : level) (message : string)
    (e : engine) :
  finished q (trace (_log now lvl message e)) = finished q (trace e).
Proof. cbn. rewrite finished_app. cbn. now rewrite app_nil_r. Qed.

Lemma finished_tryProcess (q q' : queue_id) (e : engine) :
  finished q (trace (_tryProcessQueue q' e)) = finished q (trace e).
Proof.
  unfold _tryProcessQueue, drain_loop.
  destruct (negb (isReady (queue_of q' e)) || isProcessing (queue_of q' e))%bool;
    [reflexivity|].
  destruct q'; cbn; destruct (actionQueue _); cbn;
    rewrite ?finished_app; cbn; now rewrite ?app_nil_r.
Qed.

Lemma finished_checkApiReady (q : queue_id) (now : Z) (e : engine) :
  finished q (trace (_checkApiReady now e)) = finished q (trace e).
Proof.
  unfold _checkApiReady. destruct (isApiReady e); [reflexivity|].
  destruct (truthy (cookie e) && truthy (userData e))%bool; [|reflexivity].
  rewrite finished_tryProcess, finished_log. reflexivity.
Qed.

Lemma ready_tryProcess (q q' : queue_id) (e : engine) :
  isReady (queue_of q (_tryProcessQueue q' e)) = isReady (queue_of q e).
Proof.
  unfold _tryProcessQueue, drain_loop.
  destruct (negb (isReady (queue_of q' e)) || isProcessing (queue_of q' e))%bool;
    [reflexivity|].
  destruct q, q'; cbn; destruct (actionQueue _); reflexivity.
Qed.

Lemma ready_checkApiReady (q : queue_id) (now : Z) (e : engine) :
  isReady (queue_of q e) = true ->
  isReady (queue_of q (_checkApiReady now e)) = true.
Proof.
  intros H. unfold _checkApiReady. destruct (isApiReady e); [exact H|].
  destruct (truthy (cookie e) && truthy (userData e))%bool; [|exact H].
  rewrite ready_tryProcess. destruct q; [exact H | reflexivity].
Qed.

Lemma resume_effect (now : Z) (q : queue_id) (o : outcome) (e : engine)
    (a : action) :
  awaiting (queue_of q e) = Some a ->
  exists e',
    resume now q o e = Some e' /\
    finished q (trace e') = (finished q (trace e) ++ [(a, o)])%list /\
    logs (trace e') = (logs (trace e) ++ error_log q (now, o))%list /\
    isReady (queue_of q e') = isReady (queue_of q e) /\
    match actionQueue (queue_of q e) with
    | [] => actionQueue (queue_of q e') = [] /\
            awaiting (queue_of q e') = None /\
            isProcessing (queue_of q e') = false /\
            invoked q (trace e') = invoked q (trace e)
    | b :: rest => actionQueue (queue_of q e') = rest /\
                   awaiting (queue_of q e') = Some b /\
                   isProcessing (queue_of q e') = isProcessing (queue_of q e) /\
                   invoked q (trace e') = (invoked q (trace e) ++ [b])%list
    end.
Proof.
  intros A. unfold resume. rewrite A. eexists. split; [reflexivity|].
  unfold drain_loop, _log, observe, error_log.
  destruct q, o; cbn in *; destruct (actionQueue _); cbn;
    rewrite ?finished_app, ?logs_app, ?invoked_app; cbn;
    rewrite ?finished_app, ?logs_app, ?invoked_app; cbn;
    rewrite ?app_nil_r; auto 10.
Qed.

(** Resuming the drain of one queue leaves the other queue alone. *)
Lemma resume_frame (now : Z) (q q' : queue_id) (o : outcome) (e e' : engine) :
  resume now q' o e = Some e' -> q <> q' ->
  finished q (trace e') = finished q (trace e).
Proof.
  unfold resume. destruct (awaiting (queue_of q' e)); [|discriminate].
  intros [= <-] N. unfold drain_loop, _log, observe.
  destruct q, q'; try congruence; destruct o; cbn;
    destruct (actionQueue _); cbn;
    rewrite ?finished_app; cbn; rewrite ?finished_app; cbn;
    now rewrite ?app_nil_r.
Qed.

Section EngineRuns.

Variable JSON_parse : string -> completion value.




(** The gate of a queue never closes again. *)
Lemma step_ready (q : queue_id) (now : Z) (e e' : engine) (ev : event) :
  step JSON_parse now e ev = Some e' ->
  isReady (queue_of q e) = true -> isReady (queue_of q e') = true.
Proof.
  intros S H. destruct ev; cbn in S.
  - injection S as <-. rewrite ready_tryProcess.
    destruct q; [reflexivity | exact H].
  - injection S as <-. rewrite ready_tryProcess. destruct q; exact H.
  - injection S as <-. rewrite ready_tryProcess. destruct q; exact H.
  - unfold resume in S. destruct (awaiting (queue_of q0 e)); [|discriminate].
    injection S as <-. unfold drain_loop, _log, observe.
    destruct q, q0, o; cbn in *; destruct (actionQueue _); cbn; exact H.
  - injection S as <-. destruct (truthy header_cookie); destruct q; exact H.
  - injection S as <-. now apply ready_checkApiReady.
  - injection S as <-. unfold on_ultra_response.
    destruct (getString _ _ _) as [v|]; [|exact H].
    destruct (truthy v); [|exact H].
    destruct v; try exact H.
    destruct (JSON_parse s); [|exact H].
    apply ready_checkApiReady. destruct q; exact H.
  - injection S as <-. destruct q; exact H.
Qed.

End EngineRuns.


Section Drain.

Variable JSON_parse : string -> completion value.


(** The segment that opens the gate of [q] neither enqueues onto [q] nor
    settles one of its actions. *)
Lemma gate_step (q : queue_id) (now : Z) (e e' : engine) (ev : event) :
  step JSON_parse now e ev = Some e' ->
  isReady (queue_of q e) = false -> isReady (queue_of q e') = true ->
  enqueued q [(now, ev)] = [] /\ settlements q [(now, ev)] = 0.
Proof.
  intros S H H'. destruct ev; cbn in S; try (split; reflexivity).
  - injection S as <-. rewrite ready_tryProcess in H'.
    destruct q; cbn in *; congruence.
  - injection S as <-. rewrite ready_tryProcess in H'.
    destruct q; cbn in *; congruence.
  - unfold resume in S. destruct (awaiting (queue_of q0 e)); [|discriminate].
    injection S as <-. unfold drain_loop, _log, observe in H'.
    destruct q, q0, o; cbn in *; destruct (actionQueue _); cbn in *;
      congruence.
Qed.

End Drain.

(* ------------------------------------------------------------------ *)
(** ** The credential gate *)

Lemma creds_tryProcess (q : queue_id) (e : engine) :
  cookie (_tryProcessQueue q e) = cookie e /\
  userData (_tryProcessQueue q e) = userData e.
Proof.
  unfold _tryProcessQueue, drain_loop.
  destruct (negb (isReady (queue_of q e)) || isProcessing (queue_of q e))%bool;
    [auto|].
  destruct q; cbn; destruct (actionQueue _); cbn; auto.
Qed.

Lemma checkApiReady_spec (now : Z) (e : engine) :
  isApiReady (_checkApiReady now e)
    = (isApiReady e || (truthy (cookie e) && truthy (userData e)))%bool /\
  cookie (_checkApiReady now e) = cookie e /\
  userData (_checkApiReady now e) = userData e.
Proof.
  unfold _checkApiReady.
  destruct (isApiReady e) eqn:R; [rewrite R; auto|].
  destruct (truthy (cookie e) && truthy (userData e))%bool; [|rewrite R; auto].
  unfold isApiReady.
  change (api ?x) with (queue_of Api x).
  rewrite ready_tryProcess.
  destruct (creds_tryProcess Api
              (_log now INFO "API credentials acquired. API queue is now ready."
                 (set_ready Api e))) as [-> ->].
  auto.
Qed.

(** C4, as the specification states it, fails: a cookie and a non-null
    identity are both recorded, every check has run, and the gate is still
    closed, because the parsed identity is [false]. *)
Lemma api_gate_closed_with_non_null_credentials :
  ~ (forall (JSON_parse : string -> completion value)
            (evs : list (Z * event)) (e : engine),
        run JSON_parse new_engine evs = Some e ->
        (isApiReady e = true <-> cookie e <> VNull /\ userData e <> VNull)).
Proof.
  intros H.
  destruct (H sample_parse falsy_identity_run _ eq_refl) as [_ K].
  assert (F : false = true) by (apply K; split; discriminate).
  discriminate F.
Qed.

Section Gate.

Variable JSON_parse : string -> completion value.

(** The segment at which the api gate opens is a credential check that
    finds a truthy cookie and a truthy identity. *)
Lemma gate_opening_step (now : Z) (e e' : engine) (ev : event) :
  step JSON_parse now e ev = Some e' ->
  isApiReady e = false -> isApiReady e' = true ->
  truthy (cookie e') = true /\ truthy (userData e') = true /\
  (ev = RouteContinued \/ exists body, ev = UltraResponse body).
Proof.
  assert (C : forall now e, isApiReady e = false ->
              isApiReady (_checkApiReady now e) = true ->
              truthy (cookie (_checkApiReady now e)) = true /\
              truthy (userData (_checkApiReady now e)) = true).
  { clear. intros now e C O.
    destruct (checkApiReady_spec now e) as (G & -> & ->).
    rewrite G, C in O. cbn in O. now apply andb_true_iff in O. }
  intros S Cl O. unfold isApiReady in Cl, O.
  change (api ?x) with (queue_of Api x) in Cl, O.
  destruct ev; cbn in S.
  - injection S as <-. rewrite ready_tryProcess in O. cbn in *. congruence.
  - injection S as <-. rewrite ready_tryProcess in O. cbn in *. congruence.
  - injection S as <-. rewrite ready_tryProcess in O. cbn in *. congruence.
  - destruct (gate_step JSON_parse Api now e e' (Settled q o) S Cl O)
      as [_ K].
    unfold resume in S. destruct (awaiting (queue_of q e)); [|discriminate].
    injection S as <-. unfold drain_loop, _log, observe in O.
    destruct q, o; cbn in *; destruct (actionQueue _); cbn in *; congruence.
  - injection S as <-. destruct (truthy header_cookie); cbn in *; congruence.
  - injection S as <-. destruct (C now e Cl O) as [K1 K2]. auto.
  - injection S as <-. unfold on_ultra_response in *.
    destruct (getString _ _ _) as [v|]; [|congruence].
    destruct (truthy v); [|congruence].
    destruct v; try congruence.
    destruct (JSON_parse s); [|congruence].
    destruct (C now (set_userData a e) Cl O) as [K1 K2]. eauto.
  - injection S as <-. cbn in *. congruence.
Qed.

Lemma run_ready (q : queue_id) (evs : list (Z * event)) :
  forall e e', run JSON_parse e evs = Some e' ->
    isReady (queue_of q e) = true -> isReady (queue_of q e') = true.
Proof.
  induction evs as [|[now ev] evs IH]; intros e e' R H; cbn in R.
  - now injection R as <-.
  - destruct (step JSON_parse now e ev) as [e1|] eqn:S; [|discriminate].
    apply (IH e1 e' R). now apply (step_ready JSON_parse q now e e1 ev).
Qed.

(** An open api gate has a history: some segment of the run left a truthy
    cookie and a truthy identity in the engine and the gate open. *)
Lemma gate_history (evs : list (Z * event)) :
  forall e e', run JSON_parse e evs = Some e' ->
    isApiReady e = false -> isApiReady e' = true ->
    exists evs1 now ev evs2 e1,
      evs = (evs1 ++ (now, ev) :: evs2)%list /\
      run JSON_parse e (evs1 ++ [(now, ev)]) = Some e1 /\
      isApiReady e1 = true /\
      truthy (cookie e1) = true /\ truthy (userData e1) = true /\
      (ev = RouteContinued \/ exists body, ev = UltraResponse body).
Proof.
  induction evs as [|[now ev] evs IH]; intros e e' R C O; cbn in R.
  - injection R as <-. congruence.
  - destruct (step JSON_parse now e ev) as [e1|] eqn:S; [|discriminate].
    destruct (isApiReady e1) eqn:G.
    + destruct (gate_opening_step now e e1 ev S C G) as (K1 & K2 & K3).
      exists [], now, ev, evs, e1. cbn. rewrite S. auto 10.
    + destruct (IH e1 e' R G O)
        as (evs1 & now1 & ev1 & evs2 & e2 & E & R1 & K).
      exists ((now, ev) :: evs1), now1, ev1, evs2, e2.
      split; [cbn; now rewrite E|].
      split; [cbn; now rewrite S|exact K].
Qed.

End Gate.

(** C4 (amended): the api gate is opened by the credential check, which sets
    [isApiReady] exactly when it was already set or the stored cookie and the
    stored identity are both truthy (a parsed identity of [null], [false],
    [0] or the empty string does not open the gate); no other segment opens
    the gate, so an open gate always follows a check that found a truthy
    cookie and a truthy identity recorded; and once [isApiReady] is true no
    segment sets it back to false. *)
Theorem api_gate_opens_on_truthy_credentials
    (JSON_parse : string -> completion value) (now : Z) (e : engine) :
  isApiReady (_checkApiReady now e)
    = (isApiReady e || (truthy (cookie e) && truthy (userData e)))%bool /\
  (forall ev e',
      step JSON_parse now e ev = Some e' ->
      isApiReady e = false -> isApiReady e' = true ->
      truthy (cookie e') = true /\ truthy (userData e') = true /\
      (ev = RouteContinued \/ exists body, ev = UltraResponse body)) /\
  (forall evs e',
      run JSON_parse e evs = Some e' ->
      isApiReady e = false -> isApiReady e' = true ->
      exists evs1 now1 ev evs2 e1,
        evs = (evs1 ++ (now1, ev) :: evs2)%list /\
        run JSON_parse e (evs1 ++ [(now1, ev)]) = Some e1 /\
        isApiReady e1 = true /\
        truthy (cookie e1) = true /\ truthy (userData e1) = true /\
        (ev = RouteContinued \/ exists body, ev = UltraResponse body)) /\
  (forall evs e',
      run JSON_parse e evs = Some e' ->
      isApiReady e = true -> isApiReady e' = true).
Proof.
  split; [apply checkApiReady_spec|]. split; [|split].
  - intros ev e'. apply gate_opening_step.
  - intros evs e'. apply gate_history.
  - intros evs e'. apply (run_ready JSON_parse Api).
Qed.

Lemma api_gate_opens_on_truthy_credentials_witness :
  exists e',
    run sample_parse after_cookie
      [(3%Z, UltraResponse ("x user: {}," ++ nl ++ "y"));
       (4%Z, UltraResponse ("x user: null," ++ nl ++ "y"));
       (5%Z, RouteContinued)] = Some e' /\
    isApiReady after_cookie = false /\
    isApiReady e' = true /\
    userData e' = VNull.
Proof.
  eexists. split; [reflexivity|]. split; [reflexivity|].
  split; [|reflexivity].
  assert (S : exists e1,
             step sample_parse 3%Z after_cookie
               (UltraResponse ("x user: {}," ++ nl ++ "y")) = Some e1 /\
             isApiReady e1 = true)
    by (eexists; split; reflexivity).
  destruct S as (e1 & S1 & G1).
  destruct (api_gate_opens_on_truthy_credentials sample_parse 4%Z e1)
    as (_ & _ & _ & M).
  apply (M [(4%Z, UltraResponse ("x user: null," ++ nl ++ "y"));
            (5%Z, RouteContinued)]); [|exact G1].
  injection S1 as <-. reflexivity.
Defined.

(* ------------------------------------------------------------------ *)
(** ** Log notifications *)

Lemma logs_tryProcess (q : queue_id) (e : engine) :
  logs (trace (_tryProcessQueue q e)) = logs (trace e).
Proof.
  unfold _tryProcessQueue, drain_loop.
  destruct (negb (isReady (queue_of q e)) || isProcessing (queue_of q e))%bool;
    [reflexivity|].
  destruct q; cbn; destruct (actionQueue _); cbn;
    rewrite ?logs_app; cbn; now rewrite ?app_nil_r.
Qed.

Lemma logs_log (now : Z) (lvl : level) (message : string) (e : engine) :
  logs (trace (_log now lvl message e))
    = (logs (trace e) ++ [log_payload now lvl message])%list.
Proof. cbn. now rewrite logs_app. Qed.

Lemma logs_checkApiReady (now : Z) (e : engine) :
  exists extra,
    logs (trace (_checkApiReady now e)) = (logs (trace e) ++ extra)%list /\
    Forall (logged_at now) extra.
Proof.
  unfold _checkApiReady. destruct (isApiReady e).
  - exists []. now rewrite app_nil_r.
  - destruct (truthy (cookie e) && truthy (userData e))%bool.
    + eexists. rewrite logs_tryProcess, logs_log. split; [reflexivity|].
      repeat constructor. now eexists _, _.
    + exists []. now rewrite app_nil_r.
Qed.

Lemma step_logs (JSON_parse : string -> completion value) (now : Z)
    (e e' : engine) (ev : event) :
  step JSON_parse now e ev = Some e' ->
  exists extra,
    logs (trace e') = (logs (trace e) ++ extra)%list /\
    Forall (logged_at now) extra.
Proof.
  intros S. destruct ev; cbn in S.
  1-3: injection S as <-; eexists; rewrite logs_tryProcess; cbn;
       rewrite logs_app; split; [reflexivity|];
       repeat constructor; now eexists _, _.
  - destruct (awaiting (queue_of q e)) as [a|] eqn:A;
      [|unfold resume in S; rewrite A in S; discriminate].
    destruct (resume_effect now q o e a A) as (e1 & R & _ & G & _).
    rewrite R in S. injection S as <-. eexists. split; [exact G|].
    destruct o; cbn; repeat constructor. now eexists _, _.
  - injection S as <-. exists []. rewrite app_nil_r.
    now destruct (truthy header_cookie).
  - injection S as <-. apply logs_checkApiReady.
  - injection S as <-. unfold on_ultra_response.
    destruct (getString _ _ _) as [v|];
      [|exists []; now rewrite app_nil_r].
    destruct (truthy v); [|exists []; now rewrite app_nil_r].
    destruct v; try (exists []; now rewrite app_nil_r).
    destruct (JSON_parse s); [|exists []; now rewrite app_nil_r].
    apply (logs_checkApiReady now (set_userData a e)).
  - injection S as <-. eexists. rewrite logs_log. split; [reflexivity|].
    repeat constructor. now eexists _, _.
Qed.

Lemma logged_at_shape (now : Z) (times : list Z) (p : value) :
  In now times -> logged_at now p -> log_shape times p.
Proof.
  intros I (lvl & message & ->). exists now, lvl, message.
  split; [exact I|]. split; [reflexivity|].
  destruct lvl; cbn; auto.
Qed.

Lemma log_shape_more (t1 t2 : list Z) (p : value) :
  log_shape t1 p -> log_shape (t1 ++ t2) p.
Proof.
  intros (now & lvl & message & I & E & L). exists now, lvl, message.
  split; [apply in_or_app; now left | auto].
Qed.

Lemma run_logs (JSON_parse : string -> completion value)
    (evs : list (Z * event)) :
  forall (times : list Z) (e e' : engine),
    Forall (log_shape times) (logs (trace e)) ->
    run JSON_parse e evs = Some e' ->
    Forall (log_shape (times ++ List.map fst evs)) (logs (trace e')).
Proof.
  induction evs as [|[now ev] evs IH]; intros times e e' H R; cbn in R.
  - injection R as <-. cbn. now rewrite app_nil_r.
  - destruct (step JSON_parse now e ev) as [e1|] eqn:S; [|discriminate].
    destruct (step_logs JSON_parse now e e1 ev S) as (extra & E & X).
    cbn [List.map fst].
    change (now :: List.map fst evs) with ([now] ++ List.map fst evs)%list.
    rewrite app_assoc. apply (IH _ e1 e'); [|exact R].
    rewrite E. apply Forall_app. split.
    + eapply Forall_impl; [|exact H]. intros p. apply log_shape_more.
    + eapply Forall_impl; [|exact X]. intros p.
      apply logged_at_shape. apply in_or_app. right. now left.
Qed.

(** C6, as the specification states it, fails: the payload has no
    [timestamp] field. *)
Lemma log_payload_has_no_timestamp :
  ~ (forall (now : Z) (lvl : level) (message : string),
        get_prop (log_payload now lvl message) "timestamp"
          = Normal (VNum now)).
Proof.
  intros H. specialize (H 0%Z INFO "Engine initialization started.").
  discriminate H.
Qed.

(** C6 (amended): every [log] notification the engine emits carries a
    payload of shape [{date, level, message}]: [date] is the reading of the
    clock in the segment that logged, [level] is one of INFO, DEBUG, WARN and
    ERROR, and [message] is a string. The field is named [date]; there is
    no [timestamp] field. *)
Theorem log_notifications_have_date_level_message
    (JSON_parse : string -> completion value) (evs : list (Z * event))
    (e : engine) (p : value) :
  run JSON_parse new_engine evs = Some e ->
  In p (logs (trace e)) ->
  log_shape (List.map fst evs) p /\
  get_prop p "timestamp" = Normal VUndef.
Proof.
  intros R I.
  pose proof (run_logs JSON_parse evs [] new_engine e (Forall_nil _) R) as F.
  cbn [app] in F. rewrite Forall_forall in F. specialize (F p I).
  split; [exact F|].
  destruct F as (now & lvl & message & _ & -> & _). reflexivity.
Qed.

Lemma log_notifications_have_date_level_message_witness :
  log_shape [1%Z; 2%Z; 3%Z; 4%Z]
    (log_payload 4%Z INFO "Browser is ready. Processing browser action queue.")
  /\ get_prop
       (log_payload 4%Z INFO
          "Browser is ready. Processing browser action queue.") "timestamp"
     = Normal VUndef.
Proof.
  apply (log_notifications_have_date_level_message sample_parse
           (early_requests ++ [(4%Z, InitializeDone)]) after_initialize).
  - reflexivity.
  - cbn. auto 10.
Defined.

(* ------------------------------------------------------------------ *)
(** ** getCoursesAsJson *)

Lemma get_prop_field (v : value) (k : string) :
  nullish v = false -> get_prop v k = Normal (field v k).
Proof. destruct v; cbn; intros H; try discriminate; reflexivity. Qed.

Lemma truthy_not_nullish (v : value) : truthy v = true -> nullish v = false.
Proof. destruct v; cbn; intros H; try discriminate; reflexivity. Qed.

Lemma results_array_spec (input : value) (results : list value) :
  results_array input = Some results <-> has_results input results.
Proof.
  unfold results_array, has_results. split.
  - destruct input; cbn; try discriminate.
    + destruct b; discriminate.
    + destruct (negb (n =? 0)%Z); discriminate.
    + destruct (negb (s =? "")); discriminate.
    + destruct (assoc "results" fields) as [[]|] eqn:A; try discriminate.
      intros [= ->]. now exists fields.
  - intros (fs & -> & A). cbn. now rewrite A.
Qed.

Lemma filterM_course_kept (results : list value) :
  Forall (fun v => nullish v = false) results ->
  filterM course_kept results = Normal (filter is_course results).
Proof.
  induction 1 as [|v l Hv Hl IH]; [reflexivity|].
  cbn [filterM filter]. rewrite IH. unfold course_kept, is_course.
  rewrite (get_prop_field v "course" Hv). cbn [bind].
  destruct (truthy (field v "course")) eqn:T; cbn [bind andb].
  - rewrite (get_prop_field _ "isOrganization" (truthy_not_nullish _ T)).
    cbn [bind]. reflexivity.
  - reflexivity.
Qed.

Lemma mapM_course_entry (kept : list value) :
  Forall (fun v => is_course v = true) kept ->
  mapM course_entry kept = Normal (List.map course_record kept).
Proof.
  induction 1 as [|v l Hv Hl IH]; [reflexivity|].
  cbn [mapM List.map]. rewrite IH. unfold course_entry, course_record.
  unfold is_course in Hv. apply andb_true_iff in Hv as [T _].
  assert (N : nullish v = false).
  { destruct v; try reflexivity; cbn in T; discriminate. }
  pose proof (truthy_not_nullish _ T) as Nc.
  rewrite (get_prop_field v "course" N). cbn [bind].
  rewrite !(get_prop_field _ _ Nc). reflexivity.
Qed.

(** C7, as the specification states it, fails: with a [results] array that
    holds [null] the transformer throws. *)
Lemma getCoursesAsJson_throws_on_null_record :
  ~ (forall input results,
        has_results input results ->
        snd (getCoursesAsJson input)
          = Normal (VObj [("courses",
                           VArr (List.map course_record
                                   (filter is_course results)))])).
Proof.
  intros H.
  specialize (H (VObj [("results", VArr [VNull])]) [VNull]).
  assert (R : has_results (VObj [("results", VArr [VNull])]) [VNull])
    by (eexists; split; reflexivity).
  specialize (H R). discriminate H.
Qed.

(** C7 (amended): an input without a [results] array gives [{courses: []}]
    and a diagnostic, without throwing. An input with a [results] array none
    of whose elements is [null] gives, without throwing, exactly the records
    whose [course] is truthy and whose [course.isOrganization] is falsy, in
    order, each mapped to [{courseId: course.courseId, courseName:
    course.name, id: course.id}]. The worked example gives the one course
    and leaves the organization out. *)
Theorem getCoursesAsJson_keeps_courses (input : value) :
  ((forall results, ~ has_results input results) ->
   getCoursesAsJson input
     = ([courses_diagnostic], Normal (VObj [("courses", VArr [])]))) /\
  (forall results,
      has_results input results ->
      Forall (fun v => nullish v = false) results ->
      getCoursesAsJson input
        = ([], Normal (VObj [("courses",
                              VArr (List.map course_record
                                      (filter is_course results)))]))) /\
  getCoursesAsJson sample_enrollments = ([], Normal sample_courses).
Proof.
  split; [|split; [|reflexivity]].
  - intros H. unfold getCoursesAsJson.
    destruct (results_array input) as [l|] eqn:R; [|reflexivity].
    exfalso. apply (H l). now apply results_array_spec.
  - intros results H N. apply results_array_spec in H.
    unfold getCoursesAsJson. rewrite H.
    rewrite (filterM_course_kept _ N). cbn [bind].
    rewrite mapM_course_entry; [reflexivity|].
    apply Forall_forall. intros v I. now apply filter_In in I.
Qed.

Lemma getCoursesAsJson_keeps_courses_witness :
  getCoursesAsJson (VObj [("results", VArr [VObj [("course", VStr "x")]; VNum 3])])
  = ([], Normal (VObj [("courses",
          VArr [VObj [("courseId", VUndef); ("courseName", VUndef);
                      ("id", VUndef)]])])).
Proof.
  destruct (getCoursesAsJson_keeps_courses
              (VObj [("results", VArr [VObj [("course", VStr "x")]; VNum 3])]))
    as (_ & H & _).
  apply (H [VObj [("course", VStr "x")]; VNum 3]).
  - eexists. split; reflexivity.
  - repeat constructor.
Defined.

(* ------------------------------------------------------------------ *)
(** ** getActivitiesAsJson *)

Lemma stream_parts_none (input : value) :
  stream_parts input = None <-> lacks_stream_parts input.
Proof.
  unfold stream_parts, lacks_stream_parts.
  destruct (truthy input) eqn:T; [|split; auto].
  rewrite !(get_prop_field input _ (truthy_not_nullish _ T)).
  destruct (truthy (field input "sv_streamEntries")),
           (truthy (field input "sv_extras")); cbn; split; auto;
    try discriminate; intros [H|[H|H]]; discriminate.
Qed.

Lemma mapM_In {A B : Type} (f : A -> completion B) (l : list A) :
  forall ys, mapM f l = Normal ys ->
    forall y, In y ys -> exists x, In x l /\ f x = Normal y.
Proof.
  induction l as [|x l IH]; intros ys E y I; cbn in E.
  - injection E as <-. destruct I.
  - destruct (f x) as [y0|] eqn:F; [|discriminate]. cbn in E.
    destruct (mapM f l) as [ys0|]; [|discriminate]. cbn in E.
    injection E as <-. destruct I as [<-|I].
    + exists x. split; [now left | exact F].
    + destruct (IH ys0 eq_refl y I) as (x' & I' & F').
      exists x'. split; [now right | exact F'].
Qed.

Lemma filterM_In {A : Type} (f : A -> completion bool) (l : list A) :
  forall ys, filterM f l = Normal ys ->
    forall y, In y ys -> In y l /\ f y = Normal true.
Proof.
  induction l as [|x l IH]; intros ys E y I; cbn in E.
  - injection E as <-. destruct I.
  - destruct (f x) as [b|] eqn:F; [|discriminate]. cbn in E.
    destruct (filterM f l) as [ys0|]; [|discriminate]. cbn in E.
    injection E as <-. destruct b.
    + destruct I as [<-|I]; [split; [now left | exact F]|].
      destruct (IH ys0 eq_refl y I). split; [now right | assumption].
    + destruct (IH ys0 eq_refl y I). split; [now right | assumption].
Qed.

Lemma map_set_values (k v x : value) (m : jsmap) :
  In x (map_values (map_set k v m)) -> x = v \/ In x (map_values m).
Proof.
  induction m as [|[k' v'] m IH]; cbn.
  - intros [<-|[]]. now left.
  - destruct (same_value_zero k' k); cbn.
    + intros [<-|I]; auto.
    + intros [<-|I]; auto. destruct (IH I); auto.
Qed.

Lemma map_of_pairs_values (ps : list (value * value)) (x : value) :
  In x (map_values (map_of_pairs ps)) -> In x (List.map snd ps).
Proof.
  unfold map_of_pairs.
  assert (G : forall m, In x (map_values
                (fold_left (fun m p => map_set (fst p) (snd p) m) ps m)) ->
              In x (map_values m) \/ In x (List.map snd ps)).
  { induction ps as [|[k v] ps IH]; intros m I; cbn in *; [now left|].
    destruct (IH _ I) as [J|J]; [|auto].
    destruct (map_set_values _ _ _ _ J); auto. }
  intros I. destruct (G [] I) as [[]|J]. exact J.
Qed.

Lemma mapM_keyed (acts : list value) :
  forall pairs, mapM keyed acts = Normal pairs -> List.map snd pairs = acts.
Proof.
  induction acts as [|a acts IH]; intros pairs E; cbn in E.
  - now injection E as <-.
  - unfold keyed at 1 in E. destruct (activity_key a); [|discriminate].
    cbn in E. destruct (mapM keyed acts) as [ps|]; [|discriminate].
    cbn in E. injection E as <-. cbn. now rewrite (IH ps eq_refl).
Qed.

Lemma to_activity_normal (courseMap : jsmap) (entry act : value) :
  to_activity courseMap entry = Normal act -> act = activity_of courseMap entry.
Proof.
  unfold to_activity, activity_of.
  destruct (nullish entry) eqn:N1; [destruct entry; discriminate|].
  rewrite !(get_prop_field entry _ N1). cbn [bind].
  destruct (nullish (field entry "itemSpecificData")) eqn:N2;
    [destruct (field entry "itemSpecificData"); discriminate|].
  rewrite !(get_prop_field _ _ N2). cbn [bind].
  destruct (nullish (field (field entry "itemSpecificData")
                       "notificationDetails")) eqn:N3;
    [destruct (field (field entry "itemSpecificData") "notificationDetails");
     discriminate|].
  rewrite !(get_prop_field _ _ N3). cbn [bind].
  now intros [= <-].
Qed.

Lemma map_get_no_entry (k : value) (courseMap : jsmap) :
  no_entry k courseMap -> map_get k courseMap = VUndef.
Proof.
  induction courseMap as [|[k' v] m IH]; intros H; cbn; [reflexivity|].
  rewrite (H k' v (or_introl eq_refl)). apply IH.
  intros k'' v' I. apply (H k'' v'). now right.
Qed.

Lemma js_or_truthy (a b : value) : truthy b = true -> truthy (js_or a b) = true.
Proof. unfold js_or. destruct (truthy a) eqn:T; auto. Qed.

Lemma truthy_not_empty (v : value) : truthy v = true -> v <> VStr "".
Proof. intros T ->. discriminate T. Qed.

Lemma stream_parts_some (input entries extras : value) :
  stream_parts input = Some (entries, extras) ->
  entries = field input "sv_streamEntries" /\
  extras = field input "sv_extras".
Proof.
  unfold stream_parts. destruct (truthy input) eqn:T; [|discriminate].
  rewrite !(get_prop_field input _ (truthy_not_nullish _ T)).
  destruct (truthy _ && truthy _)%bool; [|discriminate].
  now intros [= <- <-].
Qed.

(** Every record of the output comes from a stream entry of the input and
    has the defaults in place. *)
Lemma output_activities_from_entries (input out : value) :
  snd (getActivitiesAsJson input) = Normal out ->
  exists acts,
    out = VObj [("activities", VArr acts)] /\
    forall act, In act acts ->
      (truthy (field act "activityName") = true /\
       field act "activityName" <> VStr "") /\
      (truthy (field act "courseName") = true /\
       field act "courseName" <> VStr "") /\
      exists entries entry courseMap,
        field input "sv_streamEntries" = VArr entries /\
        In entry entries /\
        build_courseMap (field input "sv_extras") = Normal courseMap /\
        act = activity_of courseMap entry /\
        (truthy (field (field entry "itemSpecificData") "title") = false ->
         field act "activityName" = VStr "Untitled Activity") /\
        (no_entry (field entry "se_courseId") courseMap ->
         field act "courseName" = VStr "Unknown Course") /\
        (field (field (field entry "itemSpecificData") "notificationDetails")
           "dueDate" = VUndef ->
         field act "dueDate" = VNull) /\
        (field (field (field entry "itemSpecificData") "notificationDetails")
           "startDate" = VUndef ->
         field act "givenDate" = VNull).
Proof.
  unfold getActivitiesAsJson.
  destruct (stream_parts input) as [[en ex]|] eqn:P; cbn [snd].
  2: { intros [= <-]. exists []. split; [reflexivity|]. intros act []. }
  apply stream_parts_some in P as [-> ->].
  destruct (build_courseMap _) as [cm|] eqn:CM; [|discriminate]. cbn [bind].
  destruct (as_array _) as [entries|] eqn:AR; [|discriminate]. cbn [bind].
  destruct (kept_entries entries) as [kept|] eqn:K; [|discriminate].
  cbn [bind].
  destruct (mapM (to_activity cm) kept) as [all|] eqn:M; [|discriminate].
  cbn [bind].
  destruct (mapM keyed all) as [pairs|] eqn:KY; [|discriminate]. cbn [bind].
  intros [= <-]. eexists. split; [reflexivity|].
  intros act I.
  apply map_of_pairs_values in I. rewrite (mapM_keyed _ _ KY) in I.
  destruct (mapM_In _ _ _ M _ I) as (entry & Ik & T).
  apply to_activity_normal in T.
  assert (Ie : In entry entries).
  { unfold kept_entries in K.
    destruct (filterM from_provider entries) as [fp|] eqn:F1; [|discriminate].
    cbn [bind] in K.
    apply (filterM_In _ _ _ K) in Ik as [Ik _].
    now apply (filterM_In _ _ _ F1) in Ik as [Ik _]. }
  assert (E : field input "sv_streamEntries" = VArr entries).
  { destruct (field input "sv_streamEntries"); try discriminate AR.
    now injection AR as <-. }
  subst act. cbn [activity_of field assoc String.eqb Ascii.eqb Bool.eqb].
  change (field (activity_of cm entry) "activityName")
    with (js_or (field (field entry "itemSpecificData") "title")
            (VStr "Untitled Activity")).
  change (field (activity_of cm entry) "courseName")
    with (js_or (map_get (field entry "se_courseId") cm)
            (VStr "Unknown Course")).
  change (field (activity_of cm entry) "dueDate")
    with (js_or (field (field (field entry "itemSpecificData")
                          "notificationDetails") "dueDate") VNull).
  change (field (activity_of cm entry) "givenDate")
    with (js_or (field (field (field entry "itemSpecificData")
                          "notificationDetails") "startDate") VNull).
  assert (T1 : truthy (js_or (field (field entry "itemSpecificData") "title")
                         (VStr "Untitled Activity")) = true)
    by now apply js_or_truthy.
  assert (T2 : truthy (js_or (map_get (field entry "se_courseId") cm)
                         (VStr "Unknown Course")) = true)
    by now apply js_or_truthy.
  split; [split; [exact T1 | now apply truthy_not_empty]|].
  split; [split; [exact T2 | now apply truthy_not_empty]|].
  exists entries, entry, cm.
  repeat (split; [first [assumption | reflexivity]|]).
  split; [|split; [|split]].
  - intros F. unfold js_or. now rewrite F.
  - intros F. rewrite (map_get_no_entry _ _ F). reflexivity.
  - intros F. now rewrite F.
  - intros F. now rewrite F.
Qed.

(** A stream entry that passes the type filter has its details and its
    notification details, so mapping it never throws. *)
Lemma to_activity_of_kept (courseMap : jsmap) (entry : value) :
  is_assignment_or_test entry = Normal true ->
  to_activity courseMap entry = Normal (activity_of courseMap entry).
Proof.
  unfold is_assignment_or_test, to_activity, activity_of.
  destruct (nullish entry) eqn:N1; [destruct entry; discriminate|].
  rewrite !(get_prop_field entry _ N1). cbn [bind].
  destruct (nullish (field entry "itemSpecificData")) eqn:N2;
    [destruct (field entry "itemSpecificData"); discriminate|].
  assert (O2 : forall k, get_prop_opt (field entry "itemSpecificData") k
                         = Normal (field (field entry "itemSpecificData") k)).
  { intros k. destruct (field entry "itemSpecificData"); try discriminate;
      reflexivity. }
  rewrite O2, !(get_prop_field _ _ N2). cbn [bind].
  destruct (nullish (field (field entry "itemSpecificData")
                       "notificationDetails")) eqn:N3;
    [destruct (field (field entry "itemSpecificData") "notificationDetails");
     discriminate|].
  rewrite !(get_prop_field _ _ N3). reflexivity.
Qed.

(** C10: a stream entry that passes the filters is mapped, without a throw,
    to a record whose [activityName] is the entry's title, or
    ['Untitled Activity'] when the title is missing or falsy, whose
    [courseName] is ['Unknown Course'] when the lookup table of the extras
    has no entry for the entry's course id, and whose [dueDate] and
    [givenDate] are [null] when the entry has no [dueDate] or [startDate];
    and every record of the output [activities] array is the record of such
    an entry, with a truthy, hence non-empty, [activityName] and
    [courseName]. *)
Theorem activities_have_names :
  (forall courseMap entry,
      is_assignment_or_test entry = Normal true ->
      to_activity courseMap entry = Normal (activity_of courseMap entry)) /\
  (forall input out,
      snd (getActivitiesAsJson input) = Normal out ->
      exists acts,
        out = VObj [("activities", VArr acts)] /\
        forall act, In act acts ->
          (truthy (field act "activityName") = true /\
           field act "activityName" <> VStr "") /\
          (truthy (field act "courseName") = true /\
           field act "courseName" <> VStr "") /\
          exists entries entry courseMap,
            field input "sv_streamEntries" = VArr entries /\
            In entry entries /\
            build_courseMap (field input "sv_extras") = Normal courseMap /\
            act = activity_of courseMap entry /\
            (truthy (field (field entry "itemSpecificData") "title") = false ->
             field act "activityName" = VStr "Untitled Activity") /\
            (no_entry (field entry "se_courseId") courseMap ->
             field act "courseName" = VStr "Unknown Course") /\
            (field (field (field entry "itemSpecificData")
                      "notificationDetails") "dueDate" = VUndef ->
             field act "dueDate" = VNull) /\
            (field (field (field entry "itemSpecificData")
                      "notificationDetails") "startDate" = VUndef ->
             field act "givenDate" = VNull)).
Proof.
  split.
  - exact to_activity_of_kept.
  - exact output_activities_from_entries.
Qed.

Lemma activities_have_names_witness :
  exists acts,
    snd (getActivitiesAsJson sample_stream)
      = Normal (VObj [("activities", VArr acts)]) /\
    List.map name_and_course acts
      = [(VStr "Untitled Activity", VStr "Unknown Course");
         (VStr "Essay", VStr "Writing")] /\
    forall act, In act acts ->
      truthy (field act "activityName") = true /\
      truthy (field act "courseName") = true.
Proof.
  destruct activities_have_names as [_ K].
  destruct (K sample_stream _ eq_refl) as (acts & E & H).
  exists acts. split; [exact (f_equal Normal E)|].
  split; [injection E as <-; reflexivity|].
  intros act I. destruct (H act I) as ((T1 & _) & (T2 & _) & _). auto.
Defined.

(** C9 fails on the code: the key [`${activityName}-${courseName}`] is the
    same for the pairs ("Quiz-1", "Math") and ("Quiz", "1-Math"), so the two
    kept entries of [colliding_stream] collapse into one record and the
    activity "Quiz-1" of "Math" has no record in the output. Entries of one
    activity, as in [repeated_stream], do collapse to the last one seen, at
    the place of the first. *)
Theorem dedupe_key_collision :
  snd (getActivitiesAsJson colliding_stream)
    = Normal (VObj [("activities",
        VArr [VObj [("activityName", VStr "Quiz"); ("courseName", VStr "1-Math");
                    ("type", VStr "Test"); ("dueDate", VNull);
                    ("givenDate", VNull)]])]) /\
  (exists kept,
      (fields <- as_array (field colliding_stream "sv_streamEntries") ;;
       kept_entries fields) = Normal kept /\
      List.length kept = 2 /\
      exists cm,
        build_courseMap (field colliding_stream "sv_extras") = Normal cm /\
        List.map (fun e => name_and_course (activity_of cm e)) kept
          = [(VStr "Quiz-1", VStr "Math"); (VStr "Quiz", VStr "1-Math")]) /\
  snd (getActivitiesAsJson repeated_stream)
    = Normal (VObj [("activities",
        VArr [VObj [("activityName", VStr "Essay"); ("courseName", VStr "Writing");
                    ("type", VStr "Assignment");
                    ("dueDate", VStr "2025-09-08"); ("givenDate", VNull)];
              VObj [("activityName", VStr "Lab"); ("courseName", VStr "Writing");
                    ("type", VStr "Assignment"); ("dueDate", VNull);
                    ("givenDate", VNull)]])]).
Proof.
  split; [reflexivity|]. split; [|reflexivity].
  eexists. split; [reflexivity|]. split; [reflexivity|].
  eexists. split; reflexivity.
Qed.

(** *** What the deduplication does: one record per key, the last one seen *)

Lemma same_value_zero_eq (a b : value) :
  same_value_zero a b = true -> a = b.
Proof.
  destruct a, b; cbn; try discriminate; auto.
  - intros H. apply Bool.eqb_prop in H. now subst.
  - intros H. apply Z.eqb_eq in H. now subst.
  - intros H. apply String.eqb_eq in H. now subst.
Qed.

Lemma same_value_zero_trans (a b c : value) :
  same_value_zero a b = true -> same_value_zero a c = true ->
  same_value_zero b c = true.
Proof.
  intros H1 H2. apply same_value_zero_eq in H1. now subst.
Qed.

Lemma map_of_pairs_snoc (ps : list (value * value)) (k v : value) :
  map_of_pairs (ps ++ [(k, v)]) = map_set k v (map_of_pairs ps).
Proof. unfold map_of_pairs. now rewrite fold_left_app. Qed.

Lemma map_get_set_same (k v : value) (m : jsmap) :
  same_value_zero k k = true -> map_get k (map_set k v m) = v.
Proof.
  intros R. induction m as [|[k' v'] m IH]; cbn.
  - now rewrite R.
  - destruct (same_value_zero k' k) eqn:E; cbn; rewrite E; auto.
Qed.

Lemma map_get_set_other (k k0 v : value) (m : jsmap) :
  same_value_zero k k0 = false ->
  map_get k0 (map_set k v m) = map_get k0 m.
Proof.
  intros N. induction m as [|[k' v'] m IH]; cbn.
  - now rewrite N.
  - destruct (same_value_zero k' k) eqn:E; cbn.
    + destruct (same_value_zero k' k0) eqn:E0; [|reflexivity].
      rewrite (same_value_zero_trans _ _ _ E E0) in N. discriminate.
    + now rewrite IH.
Qed.

Lemma count_key_set (k k0 v : value) (m : jsmap) :
  count_key k0 m <= 1 -> count_key k0 (map_set k v m) <= 1.
Proof.
  unfold count_key. induction m as [|[k' v'] m IH]; cbn.
  - destruct (same_value_zero k k0); cbn; lia.
  - destruct (same_value_zero k' k) eqn:E; cbn.
    + destruct (same_value_zero k' k0); cbn; auto.
    + destruct (same_value_zero k' k0) eqn:E0; cbn; [|exact IH].
      intros L.
      assert (Z0 : List.length
                     (filter (fun p => same_value_zero (fst p) k0) m) = 0)
        by lia.
      clear IH L. revert Z0. induction m as [|[k1 v1] m IH]; cbn.
      * intros _. destruct (same_value_zero k k0) eqn:E1; cbn; [|lia].
        apply same_value_zero_eq in E1. subst k0. congruence.
      * destruct (same_value_zero k1 k) eqn:E1; cbn;
          destruct (same_value_zero k1 k0) eqn:E2; cbn; try lia; auto.
Qed.

(** However the stream repeats activities, the output has at most one
    record per key, and for a key that occurs it is the record seen last. *)
Lemma dedupe_last_per_key (key : string) (ps : list (value * value)) :
  count_key (VStr key) (map_of_pairs ps) <= 1 /\
  forall ps1 act ps2,
    ps = (ps1 ++ (VStr key, act) :: ps2)%list ->
    Forall (fun p => same_value_zero (fst p) (VStr key) = false) ps2 ->
    map_get (VStr key) (map_of_pairs ps) = act.
Proof.
  split.
  - induction ps as [|[k v] ps IH] using rev_ind; [cbn; lia|].
    rewrite map_of_pairs_snoc. now apply count_key_set.
  - intros ps1 act ps2 -> F.
    induction ps2 as [|[k v] ps2 IH] using rev_ind.
    + rewrite map_of_pairs_snoc. apply map_get_set_same.
      cbn. apply String.eqb_refl.
    + apply Forall_app in F as [F1 F2].
      change (ps1 ++ (VStr key, act) :: ps2 ++ [(k, v)])%list
        with (ps1 ++ ((VStr key, act) :: ps2) ++ [(k, v)])%list.
      rewrite app_assoc, map_of_pairs_snoc.
      rewrite map_get_set_other; [now apply IH|].
      now inversion F2.
Qed.

(** *** Inputs on which the transformer does not throw *)

Lemma mapM_total {A B : Type} (f : A -> completion B) (l : list A) :
  Forall (fun x => exists y, f x = Normal y) l ->
  exists ys, mapM f l = Normal ys.
Proof.
  induction 1 as [|x l [y Hy] Hl [ys IH]]; cbn.
  - now exists [].
  - rewrite Hy, IH. cbn. now eexists.
Qed.

Lemma filterM_total {A : Type} (f : A -> completion bool) (l : list A) :
  Forall (fun x => exists b, f x = Normal b) l ->
  exists ys, filterM f l = Normal ys.
Proof.
  induction 1 as [|x l [b Hb] Hl [ys IH]]; cbn.
  - now exists [].
  - rewrite Hb, IH. cbn. now eexists.
Qed.

Lemma to_string_primitive (v : value) :
  primitive v = true -> exists s, to_string v = Normal s.
Proof.
  destruct v; cbn; try discriminate; intros _; try (now eexists).
  destruct b; now eexists.
Qed.

Lemma map_set_primitive (k v : value) (m : jsmap) :
  primitive v = true ->
  Forall (fun p => primitive (snd p) = true) m ->
  Forall (fun p => primitive (snd p) = true) (map_set k v m).
Proof.
  intros Pv. induction 1 as [|[k' v'] m H Hm IH]; cbn.
  - repeat constructor. exact Pv.
  - destruct (same_value_zero k' k); constructor; auto.
Qed.

Lemma map_get_primitive (k : value) (m : jsmap) :
  Forall (fun p => primitive (snd p) = true) m ->
  primitive (map_get k m) = true.
Proof.
  induction 1 as [|[k' v'] m H Hm IH]; cbn; [reflexivity|].
  destruct (same_value_zero k' k); auto.
Qed.

Lemma fill_courseMap_total (courses : list value) :
  Forall (fun c => nullish c = false /\ primitive (field c "name") = true)
    courses ->
  forall m, Forall (fun p => primitive (snd p) = true) m ->
    exists cm, fill_courseMap courses m = Normal cm /\
               Forall (fun p => primitive (snd p) = true) cm.
Proof.
  induction 1 as [|c l [N P] Hl IH]; intros m Hm; cbn.
  - now exists m.
  - rewrite !(get_prop_field c _ N). cbn [bind].
    apply IH. now apply map_set_primitive.
Qed.

Lemma js_or_primitive (a b : value) :
  primitive a = true -> primitive b = true -> primitive (js_or a b) = true.
Proof. unfold js_or. now destruct (truthy a). Qed.

Lemma keyed_total (cm : jsmap) (entry : value) :
  Forall (fun p => primitive (snd p) = true) cm ->
  primitive (field (field entry "itemSpecificData") "title") = true ->
  exists p, keyed (activity_of cm entry) = Normal p.
Proof.
  intros Hm Pt. unfold keyed, activity_key, activity_of.
  cbn [get_prop assoc String.eqb Ascii.eqb Bool.eqb bind].
  destruct (to_string_primitive
              (js_or (field (field entry "itemSpecificData") "title")
                 (VStr "Untitled Activity"))) as [a ->];
    [now apply js_or_primitive|].
  destruct (to_string_primitive
              (js_or (map_get (field entry "se_courseId") cm)
                 (VStr "Unknown Course"))) as [c ->];
    [apply js_or_primitive; [now apply map_get_primitive | reflexivity]|].
  cbn. now eexists.
Qed.

Lemma get_prop_opt_total (v : value) (k : string) :
  exists x, get_prop_opt v k = Normal x.
Proof. destruct v; cbn; now eexists. Qed.

Lemma is_assignment_or_test_total (entry : value) :
  nullish entry = false -> exists b, is_assignment_or_test entry = Normal b.
Proof.
  intros N. unfold is_assignment_or_test.
  rewrite (get_prop_field entry _ N). cbn [bind].
  destruct (get_prop_opt_total (field entry "itemSpecificData")
              "notificationDetails") as [nd ->]. cbn [bind].
  destruct (get_prop_opt_total nd "sourceType") as [ty ->]. cbn [bind].
  now eexists.
Qed.

Lemma getActivitiesAsJson_total (input : value) :
  well_formed_stream input ->
  exists acts,
    getActivitiesAsJson input
      = ([], Normal (VObj [("activities", VArr acts)])).
Proof.
  intros (entries & E & X & F & C).
  assert (T : truthy input = true).
  { destruct input; try discriminate E. reflexivity. }
  unfold getActivitiesAsJson, stream_parts. rewrite T.
  rewrite !(get_prop_field input _ (truthy_not_nullish _ T)), E, X.
  cbn [truthy andb].
  assert (CM : exists cm,
             build_courseMap (field input "sv_extras") = Normal cm /\
             Forall (fun p => primitive (snd p) = true) cm).
  { unfold build_courseMap.
    rewrite (get_prop_field _ _ (truthy_not_nullish _ X)). cbn [bind].
    destruct C as [C|(courses & C & FC)].
    - rewrite C. now exists [].
    - rewrite C. cbn [truthy iterate bind].
      now apply fill_courseMap_total. }
  destruct CM as (cm & -> & Hcm). cbn [bind as_array].
  assert (K : exists kept, kept_entries entries = Normal kept).
  { unfold kept_entries.
    destruct (filterM_total from_provider entries) as [fp Efp].
    { eapply Forall_impl; [|exact F]. intros e [N _]. unfold from_provider.
      rewrite (get_prop_field e _ N). cbn. now eexists. }
    rewrite Efp. cbn [bind]. apply filterM_total.
    apply Forall_forall. intros e I.
    apply (filterM_In _ _ _ Efp) in I as [I _].
    rewrite Forall_forall in F. destruct (F e I) as [N _].
    now apply is_assignment_or_test_total. }
  destruct K as [kept K]. rewrite K. cbn [bind].
  assert (Ik : forall e, In e kept ->
                 In e entries /\ is_assignment_or_test e = Normal true).
  { intros e I. unfold kept_entries in K.
    destruct (filterM from_provider entries) as [fp|] eqn:Efp; [|discriminate].
    cbn [bind] in K. apply (filterM_In _ _ _ K) in I as [I Q].
    apply (filterM_In _ _ _ Efp) in I as [I _]. auto. }
  assert (M : mapM (to_activity cm) kept
              = Normal (List.map (activity_of cm) kept)).
  { clear K. induction kept as [|e kept IH]; [reflexivity|].
    cbn [mapM List.map].
    rewrite (to_activity_of_kept cm e (proj2 (Ik e (or_introl eq_refl)))).
    cbn [bind]. rewrite IH; [reflexivity|].
    intros e' I. apply Ik. now right. }
  rewrite M. cbn [bind].
  destruct (mapM_total keyed (List.map (activity_of cm) kept)) as [ps ->].
  { apply Forall_forall. intros a I. apply in_map_iff in I as (e & <- & I).
    apply keyed_total; [exact Hcm|].
    rewrite Forall_forall in F. now destruct (F e (proj1 (Ik e I))). }
  cbn [bind]. now eexists.
Qed.

(** C8, as the specification states it, fails: the transformer throws on an
    input whose stream entries hold [null]. *)
Lemma getActivitiesAsJson_can_throw :
  ~ (forall input, exists out, snd (getActivitiesAsJson input) = Normal out).
Proof.
  intros H. destruct (H stream_with_null_entry) as [out E].
  discriminate E.
Qed.

(** C8 (amended): for every input that is missing (falsy) or whose
    [sv_streamEntries] or [sv_extras] field is missing or falsy, the
    transformer returns [{activities: []}] with a diagnostic and does not
    throw. It does not throw either, and returns an [activities] array, on an
    input whose stream entries are an array of records and whose course
    table is missing or an array of records, the titles and course names
    being primitive values or missing. *)
Theorem getActivitiesAsJson_guard (input : value) :
  (lacks_stream_parts input ->
   getActivitiesAsJson input
     = ([activities_diagnostic], Normal no_activities)) /\
  (well_formed_stream input ->
   exists acts,
     getActivitiesAsJson input
       = ([], Normal (VObj [("activities", VArr acts)]))).
Proof.
  split.
  - intros H. apply stream_parts_none in H.
    unfold getActivitiesAsJson. now rewrite H.
  - apply getActivitiesAsJson_total.
Qed.

Lemma getActivitiesAsJson_guard_witness :
  getActivitiesAsJson
    (VObj [("sv_streamEntries", VArr []); ("sv_extras", VNull)])
    = ([activities_diagnostic], Normal no_activities) /\
  exists acts,
    getActivitiesAsJson sample_stream
      = ([], Normal (VObj [("activities", VArr acts)])).
Proof.
  split.
  - apply getActivitiesAsJson_guard. right. right. reflexivity.
  - apply getActivitiesAsJson_guard. eexists. split; [reflexivity|].
    split; [reflexivity|]. split.
    + repeat constructor.
    + right. eexists. split; [reflexivity|]. repeat constructor.
Defined.

(* ================================================================== *)
(** * Further properties of the code *)

(* ------------------------------------------------------------------ *)
(** ** The queues between segments *)



Lemma tryProcess_frame (q q' : queue_id) (e : engine) :
  q <> q' ->
  queue_of q (_tryProcessQueue q' e) = queue_of q e /\
  invoked q (trace (_tryProcessQueue q' e)) = invoked q (trace e).
Proof.
  intros N. unfold _tryProcessQueue, drain_loop.
  destruct (negb (isReady (queue_of q' e)) || isProcessing (queue_of q' e))%bool;
    [auto|].
  destruct q, q'; try congruence; cbn; destruct (actionQueue _); cbn;
    rewrite ?invoked_app; cbn; rewrite ?app_nil_r; auto.
Qed.

Lemma checkApiReady_frame (now : Z) (e : engine) :
  queue_of Browser (_checkApiReady now e) = queue_of Browser e /\
  invoked Browser (trace (_checkApiReady now e)) = invoked Browser (trace e).
Proof.
  unfold _checkApiReady. destruct (isApiReady e); [auto|].
  destruct (truthy (cookie e) && truthy (userData e))%bool; [|auto].
  destruct (tryProcess_frame Browser Api
              (_log now INFO "API credentials acquired. API queue is now ready."
                 (set_ready Api e))) as [-> ->]; [discriminate|].
  cbn. rewrite invoked_app. cbn. now rewrite app_nil_r.
Qed.

Lemma resume_frame_queue (now : Z) (q q' : queue_id) (o : outcome)
    (e e' : engine) :
  resume now q' o e = Some e' -> q <> q' ->
  queue_of q e' = queue_of q e /\
  invoked q (trace e') = invoked q (trace e).
Proof.
  unfold resume. destruct (awaiting (queue_of q' e)); [|discriminate].
  intros [= <-] N. unfold drain_loop, _log, observe.
  destruct q, q'; try congruence; destruct o; cbn;
    destruct (actionQueue _); cbn;
    rewrite ?invoked_app; cbn; rewrite ?invoked_app; cbn;
    rewrite ?app_nil_r; auto.
Qed.

(** X3: the two queues do not interfere: a segment that does not concern a
    queue (a request for the other queue, the settling of an action of the
    other queue, the opening of the other gate, a request header, a log call)
    leaves that queue's pending actions, gate, flag and awaited action as they
    were, and neither calls nor settles any of its actions. *)
Theorem queues_do_not_interfere
    (JSON_parse : string -> completion value) (q : queue_id) (now : Z)
    (e e' : engine) (ev : event) :
  step JSON_parse now e ev = Some e' ->
  concerns q ev = false ->
  queue_of q e' = queue_of q e /\
  invoked q (trace e') = invoked q (trace e) /\
  finished q (trace e') = finished q (trace e).
Proof.
  intros S C. destruct ev; cbn in S.
  - destruct q; [discriminate C|]. injection S as <-.
    rewrite finished_tryProcess.
    match goal with
    | |- context [_tryProcessQueue ?q' ?x] =>
        destruct (tryProcess_frame Api q' x) as [-> ->]; [discriminate|]
    end.
    cbn. rewrite invoked_app, finished_app. cbn. now rewrite !app_nil_r.
  - destruct q; [discriminate C|]. injection S as <-.
    rewrite finished_tryProcess.
    match goal with
    | |- context [_tryProcessQueue ?q' ?x] =>
        destruct (tryProcess_frame Api q' x) as [-> ->]; [discriminate|]
    end.
    cbn. rewrite invoked_app, finished_app. cbn. now rewrite !app_nil_r.
  - destruct q; [|discriminate C]. injection S as <-.
    rewrite finished_tryProcess.
    match goal with
    | |- context [_tryProcessQueue ?q' ?x] =>
        destruct (tryProcess_frame Browser q' x) as [-> ->]; [discriminate|]
    end.
    cbn. rewrite invoked_app, finished_app. cbn. now rewrite !app_nil_r.
  - assert (N : q <> q0) by (destruct q, q0; cbn in C; congruence).
    destruct (resume_frame_queue now q q0 o e e' S N) as [-> ->].
    now rewrite (resume_frame now q q0 o e e' S N).
  - injection S as <-. destruct (truthy header_cookie); destruct q; auto.
  - destruct q; [|discriminate C]. injection S as <-.
    rewrite finished_checkApiReady.
    destruct (checkApiReady_frame now e) as [-> ->]. auto.
  - destruct q; [|discriminate C]. injection S as <-.
    unfold on_ultra_response.
    destruct (getString _ _ _) as [v|]; [|auto].
    destruct (truthy v); [|auto].
    destruct v; auto.
    destruct (JSON_parse s); [|auto].
    rewrite finished_checkApiReady.
    destruct (checkApiReady_frame now (set_userData a e)) as [-> ->]. auto.
  - injection S as <-. cbn. rewrite invoked_app, finished_app. cbn.
    rewrite !app_nil_r. destruct q; auto.
Qed.

Lemma queues_do_not_interfere_witness :
  exists e',
    step sample_parse 5%Z after_initialize (Settled Browser (Rejected "x"))
      = Some e' /\
    queue_of Api e' = queue_of Api after_initialize /\
    invoked Api (trace e') = [] /\
    finished Api (trace e') = [].
Proof.
  eexists. split; [reflexivity|].
  apply (queues_do_not_interfere sample_parse Api 5%Z after_initialize _
           (Settled Browser (Rejected "x"))); reflexivity.
Defined.

(* ------------------------------------------------------------------ *)
(** ** The harvester *)

Lemma cookie_step (JSON_parse : string -> completion value) (now : Z)
    (e e' : engine) (ev : event) :
  step JSON_parse now e ev = Some e' ->
  cookie e' = last_cookie (cookie e) [(now, ev)].
Proof.
  intros S. destruct ev; cbn in S; cbn [last_cookie].
  - injection S as <-. now rewrite (proj1 (creds_tryProcess _ _)).
  - injection S as <-. now rewrite (proj1 (creds_tryProcess _ _)).
  - injection S as <-. now rewrite (proj1 (creds_tryProcess _ _)).
  - unfold resume in S. destruct (awaiting (queue_of q e)); [|discriminate].
    injection S as <-. unfold drain_loop, _log, observe.
    destruct q, o; cbn; destruct (actionQueue _); reflexivity.
  - injection S as <-. now destruct (truthy header_cookie).
  - injection S as <-. now destruct (checkApiReady_spec now e) as (_ & -> & _).
  - injection S as <-. unfold on_ultra_response.
    destruct (getString _ _ _) as [v|]; [|reflexivity].
    destruct (truthy v); [|reflexivity].
    destruct v; try reflexivity.
    destruct (JSON_parse s); [|reflexivity].
    now destruct (checkApiReady_spec now (set_userData a e)) as (_ & -> & _).
  - injection S as <-. reflexivity.
Qed.

Lemma last_cookie_truthy (c : value) (evs : list (Z * event)) :
  truthy c = true -> truthy (last_cookie c evs) = true.
Proof.
  revert c. induction evs as [|[now ev] evs IH]; intros c T; cbn; [exact T|].
  destruct ev; auto. apply IH. now destruct (truthy header_cookie) eqn:H.
Qed.

(** X4: the stored cookie is last-write-wins over the request headers and is
    never cleared: after any run it is the last truthy [cookie] header the
    route handler saw, or the cookie the run started with when it saw none;
    no other segment writes it, and once truthy it stays truthy. *)
Theorem cookie_is_last_truthy_header
    (JSON_parse : string -> completion value) (evs : list (Z * event))
    (e e' : engine) :
  run JSON_parse e evs = Some e' ->
  cookie e' = last_cookie (cookie e) evs /\
  (truthy (cookie e) = true -> truthy (cookie e') = true).
Proof.
  intros R.
  assert (E : cookie e' = last_cookie (cookie e) evs).
  { revert e R. induction evs as [|[now ev] evs IH]; intros e R; cbn in R.
    - now injection R as <-.
    - destruct (step JSON_parse now e ev) as [e1|] eqn:S; [|discriminate].
      rewrite (IH e1 R), (cookie_step JSON_parse now e e1 ev S).
      destruct ev; reflexivity. }
  split; [exact E|]. intros T. rewrite E. now apply last_cookie_truthy.
Qed.

Lemma cookie_is_last_truthy_header_witness :
  exists e',
    run sample_parse after_cookie
      [(3%Z, RequestHeaders (VStr "JSESSIONID=2"));
       (4%Z, RequestHeaders VUndef);
       (5%Z, RouteContinued)] = Some e' /\
    cookie e' = VStr "JSESSIONID=2".
Proof.
  eexists. split; [reflexivity|].
  apply (cookie_is_last_truthy_header sample_parse
           [(3%Z, RequestHeaders (VStr "JSESSIONID=2"));
            (4%Z, RequestHeaders VUndef);
            (5%Z, RouteContinued)] after_cookie).
  reflexivity.
Defined.

(** X5: the credential check is idempotent: running it again right after it
    ran changes nothing, whether the first run opened the gate or not; in
    particular the gate is announced and the drain started at most once by
    repeated checks. *)
Theorem checkApiReady_idempotent (now1 now2 : Z) (e : engine) :
  _checkApiReady now2 (_checkApiReady now1 e) = _checkApiReady now1 e.
Proof.
  destruct (checkApiReady_spec now1 e) as (G & C & U).
  destruct (isApiReady (_checkApiReady now1 e)) eqn:R.
  - unfold _checkApiReady at 1. now rewrite R.
  - symmetry in G. apply orb_false_iff in G as [G1 G2].
    assert (E : _checkApiReady now1 e = e)
      by (unfold _checkApiReady; now rewrite G1, G2).
    rewrite E. unfold _checkApiReady. now rewrite G1, G2.
Qed.

(** X6: the response handler for the identity page records an identity only
    when the marker is found, the fragment is not empty and it parses. A body
    without the marker, with an empty fragment, or with a fragment that does
    not parse leaves the engine exactly as it was (nothing is logged). A
    fragment that parses replaces the stored identity, also when the gate is
    already open, keeps the cookie, and is followed at once by the credential
    check. *)
Theorem ultra_response_records_identity
    (JSON_parse : string -> completion value) (now : Z) (body : string)
    (e : engine) :
  (~ occurs "user: " body -> on_ultra_response JSON_parse now body e = e) /\
  (forall text,
      getString body "user: " ("," ++ nl) = Normal (VStr text) ->
      (text = "" \/ exists err, JSON_parse text = Throw err) ->
      on_ultra_response JSON_parse now body e = e) /\
  (forall text u,
      getString body "user: " ("," ++ nl) = Normal (VStr text) ->
      text <> "" -> JSON_parse text = Normal u ->
      userData (on_ultra_response JSON_parse now body e) = u /\
      cookie (on_ultra_response JSON_parse now body e) = cookie e /\
      isApiReady (on_ultra_response JSON_parse now body e)
        = (isApiReady e || (truthy (cookie e) && truthy u))%bool).
Proof.
  split; [|split].
  - intros N. unfold on_ultra_response.
    rewrite (getString_left_absent body "user: " ("," ++ nl));
      [reflexivity | discriminate | exact N].
  - intros text G [->|[err P]]; unfold on_ultra_response; rewrite G.
    + reflexivity.
    + destruct (truthy (VStr text)); [|reflexivity]. now rewrite P.
  - intros text u G N P. unfold on_ultra_response. rewrite G.
    assert (T : truthy (VStr text) = true).
    { cbn. apply negb_true_iff. now apply String.eqb_neq. }
    rewrite T, P.
    destruct (checkApiReady_spec now (set_userData u e)) as (-> & -> & ->).
    auto.
Qed.

Lemma ultra_response_records_identity_witness :
  on_ultra_response sample_parse 3%Z
    ("x user: [1," ++ nl ++ "y") after_cookie = after_cookie /\
  userData (on_ultra_response sample_parse 3%Z
              ("x user: 1," ++ nl ++ "y") after_cookie) = VNum 1.
Proof.
  destruct (ultra_response_records_identity sample_parse 3%Z
              ("x user: [1," ++ nl ++ "y") after_cookie) as (_ & H & _).
  destruct (ultra_response_records_identity sample_parse 3%Z
              ("x user: 1," ++ nl ++ "y") after_cookie) as (_ & _ & K).
  split.
  - apply (H "[1"); [reflexivity|]. right. eexists. reflexivity.
  - apply (K "1" (VNum 1)); [reflexivity | discriminate | reflexivity].
Defined.

(* ------------------------------------------------------------------ *)
(** ** More on getCoursesAsJson *)

Lemma filterM_throws_on_nullish (results : list value) :
  Exists (fun v => nullish v = true) results ->
  exists err, filterM course_kept results = Throw err.
Proof.
  induction 1 as [v l H|v l H IH]; cbn.
  - destruct v; try discriminate H; cbn; now eexists.
  - destruct (course_kept v) as [b|err]; cbn; [|now eexists].
    destruct IH as [err ->]. cbn. now eexists.
Qed.

Lemma nullish_Forall_or_Exists (l : list value) :
  Forall (fun v => nullish v = false) l \/ Exists (fun v => nullish v = true) l.
Proof.
  induction l as [|v l [IH|IH]]; [left; constructor| |].
  - destruct (nullish v) eqn:N; [right; now constructor | left; now constructor].
  - right. now constructor 2.
Qed.

(** X7: the courses transformer throws exactly when the input has a
    [results] array that holds a [null] (or [undefined]) element. On every
    other input it returns: for an input whose [results] array holds no such
    element, the [{courses: [...]}] object whose records are the records of
    the input's own enrollments that are courses, all of them and in their
    order; for an input without a [results] array, [{courses: []}]. *)
Theorem getCoursesAsJson_throws_iff_null_record (input : value) :
  ((exists err, snd (getCoursesAsJson input) = Throw err) <->
   (exists results,
       has_results input results /\
       Exists (fun v => nullish v = true) results)) /\
  (forall results,
      has_results input results ->
      Forall (fun v => nullish v = false) results ->
      snd (getCoursesAsJson input)
        = Normal (VObj [("courses",
                         VArr (List.map course_record
                                 (filter is_course results)))])) /\
  ((forall results, ~ has_results input results) ->
   snd (getCoursesAsJson input) = Normal (VObj [("courses", VArr [])])).
Proof.
  destruct (results_array input) as [results|] eqn:R.
  - pose proof (proj1 (results_array_spec input results) R) as H.
    assert (U : forall results', has_results input results' ->
                  results' = results).
    { intros results' (fs & Ei & A). destruct H as (fs' & Ei' & A').
      rewrite Ei in Ei'. injection Ei' as <-. rewrite A in A'.
      now injection A'. }
    destruct (nullish_Forall_or_Exists results) as [F|X].
    + assert (E : getCoursesAsJson input
                  = ([], Normal (VObj [("courses",
                           VArr (List.map course_record
                                   (filter is_course results)))]))).
      { unfold getCoursesAsJson. rewrite R, (filterM_course_kept _ F).
        cbn [bind]. rewrite mapM_course_entry; [reflexivity|].
        apply Forall_forall. intros v I. now apply filter_In in I. }
      rewrite E. cbn [snd]. split; [|split].
      * split; [intros [err K]; discriminate K|].
        intros (results' & H' & X). exfalso.
        rewrite (U _ H') in X.
        rewrite Forall_forall in F. apply Exists_exists in X as (v & I & N).
        rewrite (F v I) in N. discriminate N.
      * intros results' H' _. now rewrite (U _ H').
      * intros N. exfalso. exact (N results H).
    + destruct (filterM_throws_on_nullish results X) as [err T].
      assert (E : snd (getCoursesAsJson input) = Throw err).
      { unfold getCoursesAsJson. rewrite R. cbn [snd]. now rewrite T. }
      rewrite E. split; [|split].
      * split; [intros _; now exists results | intros _; now exists err].
      * intros results' H' F. exfalso. rewrite (U _ H') in F.
        rewrite Forall_forall in F. apply Exists_exists in X as (v & I & N).
        rewrite (F v I) in N. discriminate N.
      * intros N. exfalso. exact (N results H).
  - assert (E : getCoursesAsJson input
                = ([courses_diagnostic], Normal (VObj [("courses", VArr [])])))
      by (unfold getCoursesAsJson; now rewrite R).
    rewrite E. cbn [snd]. split; [|split].
    + split; [intros [err K]; discriminate K|].
      intros (results & H & _). apply results_array_spec in H. congruence.
    + intros results H _. apply results_array_spec in H. congruence.
    + intros _. reflexivity.
Qed.

Lemma getCoursesAsJson_throws_iff_null_record_witness :
  (exists err,
      snd (getCoursesAsJson
             (VObj [("results", VArr [VObj [("course", VNull)]; VUndef])]))
        = Throw err) /\
  snd (getCoursesAsJson sample_enrollments) = Normal sample_courses.
Proof.
  split.
  - apply (getCoursesAsJson_throws_iff_null_record
             (VObj [("results", VArr [VObj [("course", VNull)]; VUndef])])).
    eexists. split; [eexists; split; reflexivity|].
    constructor 2. now constructor.
  - destruct (getCoursesAsJson_throws_iff_null_record sample_enrollments)
      as (_ & H & _).
    assert (R : has_results sample_enrollments
                  [VObj [("course",
                          VObj [("courseId", VStr "A-1"); ("name", VStr "Intro");
                                ("id", VStr "_1_1");
                                ("isOrganization", VBool false)])];
                   VObj [("course", VObj [("isOrganization", VBool true)])]])
      by (eexists; split; reflexivity).
    apply (H _ R). repeat constructor.
Defined.

(* ------------------------------------------------------------------ *)
(** ** More on getActivitiesAsJson *)

Lemma fill_courseMap_pairs (courses : list value) :
  Forall (fun c => nullish c = false) courses ->
  forall m,
    fill_courseMap courses m
      = Normal (fold_left (fun m p => map_set (fst p) (snd p) m)
                  (List.map course_pair courses) m).
Proof.
  induction 1 as [|c l N Hl IH]; intros m; cbn; [reflexivity|].
  rewrite !(get_prop_field c _ N). cbn [bind]. apply IH.
Qed.

Lemma not_same_value_zero (a b : value) :
  a <> b -> same_value_zero a b = false.
Proof.
  intros N. destruct (same_value_zero a b) eqn:E; [|reflexivity].
  now apply same_value_zero_eq in E.
Qed.

Lemma map_get_absent (k : value) (ps : list (value * value)) :
  Forall (fun p => same_value_zero (fst p) k = false) ps ->
  map_get k (map_of_pairs ps) = VUndef.
Proof.
  induction ps as [|[k' v] ps IH] using rev_ind; intros F; [reflexivity|].
  apply Forall_app in F as [F1 F2]. rewrite map_of_pairs_snoc.
  rewrite map_get_set_other; [now apply IH | now inversion F2].
Qed.

(** X8: the course lookup table is last-write-wins: when the extras list
    their courses as an array of records, looking up an id gives the name of
    the last course listed with that id, and [undefined] when no course has
    it; when the extras list no courses the table is empty. *)
Theorem courseMap_last_course_wins (sv_extras : value) (courses : list value) :
  nullish sv_extras = false ->
  field sv_extras "sx_courses" = VArr courses ->
  Forall (fun c => nullish c = false) courses ->
  exists courseMap,
    build_courseMap sv_extras = Normal courseMap /\
    (forall id before course after,
        courses = (before ++ course :: after)%list ->
        field course "id" = VStr id ->
        Forall (fun c => field c "id" <> VStr id) after ->
        map_get (VStr id) courseMap = field course "name") /\
    (forall id,
        Forall (fun c => field c "id" <> VStr id) courses ->
        map_get (VStr id) courseMap = VUndef).
Proof.
  intros N E F. unfold build_courseMap.
  rewrite (get_prop_field _ _ N), E. cbn [bind truthy iterate].
  rewrite (fill_courseMap_pairs _ F). eexists. split; [reflexivity|].
  change (fold_left (fun m p => map_set (fst p) (snd p) m)
            (List.map course_pair courses) [])
    with (map_of_pairs (List.map course_pair courses)).
  split.
  - intros id before course after -> I A.
    rewrite map_app. cbn [List.map]. unfold course_pair at 2. rewrite I.
    apply (proj2 (dedupe_last_per_key id _) (List.map course_pair before)
             (field course "name") (List.map course_pair after) eq_refl).
    apply Forall_map. eapply Forall_impl; [|exact A].
    intros c Hc. cbn. now apply not_same_value_zero.
  - intros id A. apply map_get_absent.
    apply Forall_map. eapply Forall_impl; [|exact A].
    intros c Hc. cbn. now apply not_same_value_zero.
Qed.

Lemma courseMap_last_course_wins_witness :
  exists courseMap,
    build_courseMap
      (VObj [("sx_courses",
              VArr [extras_course "_1_1" "Math"; extras_course "_2_1" "Art";
                    extras_course "_1_1" "Maths II"])]) = Normal courseMap /\
    map_get (VStr "_1_1") courseMap = VStr "Maths II" /\
    map_get (VStr "_3_1") courseMap = VUndef.
Proof.
  destruct (courseMap_last_course_wins
              (VObj [("sx_courses",
                 VArr [extras_course "_1_1" "Math"; extras_course "_2_1" "Art";
                       extras_course "_1_1" "Maths II"])])
              [extras_course "_1_1" "Math"; extras_course "_2_1" "Art";
               extras_course "_1_1" "Maths II"]
              eq_refl eq_refl)
    as (cm & B & L & A); [repeat constructor|].
  exists cm. split; [exact B|]. split.
  - apply (L "_1_1" [extras_course "_1_1" "Math"; extras_course "_2_1" "Art"]
             (extras_course "_1_1" "Maths II") []); try reflexivity.
    constructor.
  - apply A. repeat constructor; discriminate.
Defined.

Lemma get_prop_opt_field (v : value) (k : string) :
  get_prop_opt v k = Normal (field v k).
Proof. destruct v; reflexivity. Qed.

Lemma is_str_true (v : value) (s : string) : is_str v s = true -> v = VStr s.
Proof.
  destruct v; cbn; try discriminate. intros H.
  apply String.eqb_eq in H. now subst.
Qed.

Lemma from_provider_true (entry : value) :
  from_provider entry = Normal true ->
  field entry "providerId" = VStr "bb-nautilus".
Proof.
  unfold from_provider.
  destruct (nullish entry) eqn:N; [destruct entry; discriminate|].
  rewrite (get_prop_field _ _ N). cbn [bind]. intros [= H].
  now apply is_str_true.
Qed.

Lemma is_assignment_or_test_true (entry : value) :
  is_assignment_or_test entry = Normal true ->
  source_type entry = VStr "UA" \/ source_type entry = VStr "TE".
Proof.
  unfold is_assignment_or_test, source_type.
  destruct (nullish entry) eqn:N; [destruct entry; discriminate|].
  rewrite (get_prop_field _ _ N). cbn [bind].
  rewrite get_prop_opt_field. cbn [bind].
  rewrite get_prop_opt_field. cbn [bind]. intros [= H].
  apply orb_true_iff in H as [H|H]; apply is_str_true in H; auto.
Qed.

Lemma mapM_to_activity (cm : jsmap) (kept : list value) :
  forall all, mapM (to_activity cm) kept = Normal all ->
    all = List.map (activity_of cm) kept.
Proof.
  induction kept as [|e kept IH]; intros all M; cbn in M.
  - now injection M as <-.
  - destruct (to_activity cm e) as [a|] eqn:T; [|discriminate]. cbn in M.
    destruct (mapM (to_activity cm) kept) as [as'|]; [|discriminate].
    cbn in M. injection M as <-. cbn.
    now rewrite (to_activity_normal _ _ _ T), (IH _ eq_refl).
Qed.

Lemma kept_entries_In (entries kept : list value) :
  kept_entries entries = Normal kept ->
  forall e, In e kept ->
    In e entries /\ from_provider e = Normal true /\
    is_assignment_or_test e = Normal true.
Proof.
  unfold kept_entries. intros K e I.
  destruct (filterM from_provider entries) as [fp|] eqn:F; [|discriminate].
  cbn [bind] in K. apply (filterM_In _ _ _ K) in I as [I Q].
  apply (filterM_In _ _ _ F) in I as [I P]. auto.
Qed.

(** The stages of the transformer on an input that passes the guard and on
    which it returns. *)
Lemma transformer_pipeline (input out : value) :
  snd (getActivitiesAsJson input) = Normal out ->
  stream_parts input <> None ->
  exists entries cm kept pairs,
    field input "sv_streamEntries" = VArr entries /\
    build_courseMap (field input "sv_extras") = Normal cm /\
    kept_entries entries = Normal kept /\
    mapM keyed (List.map (activity_of cm) kept) = Normal pairs /\
    out = VObj [("activities", VArr (map_values (map_of_pairs pairs)))].
Proof.
  unfold getActivitiesAsJson.
  destruct (stream_parts input) as [[en ex]|] eqn:P; [|congruence].
  apply stream_parts_some in P as [-> ->]. cbn [snd].
  destruct (build_courseMap _) as [cm|] eqn:CM; [|discriminate]. cbn [bind].
  destruct (as_array _) as [entries|] eqn:AR; [|discriminate]. cbn [bind].
  destruct (kept_entries entries) as [kept|] eqn:K; [|discriminate].
  cbn [bind].
  destruct (mapM (to_activity cm) kept) as [all|] eqn:M; [|discriminate].
  cbn [bind]. apply mapM_to_activity in M. subst all.
  destruct (mapM keyed _) as [pairs|] eqn:KY; [|discriminate]. cbn [bind].
  intros [= <-] _. exists entries, cm, kept, pairs.
  repeat split; auto.
  destruct (field input "sv_streamEntries"); try discriminate AR.
  now injection AR as <-.
Qed.

(** X9: only activities of the expected provider and of the two recognized
    types reach the output: every output record is the record of a stream
    entry whose [providerId] is ['bb-nautilus'] and whose source type is
    ['UA'] or ['TE'], and its [type] is ['Assignment'] for ['UA'] and
    ['Test'] for ['TE']. *)
Theorem output_activities_are_assignments_or_tests (input out : value) :
  snd (getActivitiesAsJson input) = Normal out ->
  exists acts,
    out = VObj [("activities", VArr acts)] /\
    forall act, In act acts ->
      exists entries entry cm,
        field input "sv_streamEntries" = VArr entries /\
        In entry entries /\
        act = activity_of cm entry /\
        field entry "providerId" = VStr "bb-nautilus" /\
        ((source_type entry = VStr "UA" /\
          field act "type" = VStr "Assignment") \/
         (source_type entry = VStr "TE" /\ field act "type" = VStr "Test")).
Proof.
  intros H. destruct (stream_parts input) as [p|] eqn:P.
  - destruct (transformer_pipeline input out H)
      as (entries & cm & kept & pairs & E & CM & K & KY & ->);
      [congruence|].
    eexists. split; [reflexivity|]. intros act I.
    apply map_of_pairs_values in I. rewrite (mapM_keyed _ _ KY) in I.
    apply in_map_iff in I as (entry & <- & I).
    destruct (kept_entries_In _ _ K entry I) as (Ie & Pv & Ty).
    exists entries, entry, cm. repeat (split; [auto using from_provider_true|]).
    apply is_assignment_or_test_true in Ty.
    unfold source_type in *. cbn [activity_of field assoc String.eqb Ascii.eqb
                                   Bool.eqb].
    destruct Ty as [Ty|Ty]; rewrite Ty; cbn; auto.
  - unfold getActivitiesAsJson in H. rewrite P in H. injection H as <-.
    exists []. split; [reflexivity|]. intros act [].
Qed.

Lemma output_activities_are_assignments_or_tests_witness :
  exists acts,
    snd (getActivitiesAsJson sample_stream)
      = Normal (VObj [("activities", VArr acts)]) /\
    List.map (fun a => field a "type") acts = [VStr "Test"; VStr "Assignment"].
Proof.
  destruct (output_activities_are_assignments_or_tests sample_stream _ eq_refl)
    as (acts & E & _).
  exists acts. split; [exact (f_equal Normal E)|].
  injection E as <-. reflexivity.
Defined.

Lemma mapM_keyed_entries (acts : list value) :
  forall pairs, mapM keyed acts = Normal pairs -> Forall keyed_entry pairs.
Proof.
  induction acts as [|a acts IH]; intros pairs E; cbn in E.
  - injection E as <-. constructor.
  - unfold keyed at 1 in E. destruct (activity_key a) as [k|] eqn:K;
      [|discriminate].
    cbn in E. destruct (mapM keyed acts) as [ps|]; [|discriminate].
    cbn in E. injection E as <-. constructor; [now exists k | now apply IH].
Qed.

Lemma map_set_keys (k v x : value) (m : jsmap) :
  In x (List.map fst (map_set k v m)) -> x = k \/ In x (List.map fst m).
Proof.
  induction m as [|[k' v'] m IH]; cbn.
  - intros [<-|[]]. now left.
  - destruct (same_value_zero k' k); cbn; [auto|].
    intros [<-|I]; auto. destruct (IH I); auto.
Qed.

Lemma map_set_NoDup (k v : value) (m : jsmap) :
  same_value_zero k k = true ->
  NoDup (List.map fst m) -> NoDup (List.map fst (map_set k v m)).
Proof.
  intros R. induction m as [|[k' v'] m IH]; cbn; intros N.
  - repeat constructor. intros [].
  - inversion N as [|? ? Hn Hm]; subst.
    destruct (same_value_zero k' k) eqn:E; cbn; [exact N|].
    constructor; [|now apply IH].
    intros I. apply map_set_keys in I as [->|I]; [congruence | contradiction].
Qed.

Lemma map_set_keyed (key : string) (v : value) (m : jsmap) :
  activity_key v = Normal key ->
  Forall keyed_entry m -> Forall keyed_entry (map_set (VStr key) v m).
Proof.
  intros K. induction 1 as [|[k' v'] m H Hm IH]; cbn.
  - repeat constructor. now exists key.
  - destruct (same_value_zero k' (VStr key)) eqn:E; constructor; auto.
    apply same_value_zero_eq in E. subst k'. now exists key.
Qed.

Lemma map_of_pairs_keyed (pairs : list (value * value)) :
  Forall keyed_entry pairs ->
  Forall keyed_entry (map_of_pairs pairs) /\
  NoDup (List.map fst (map_of_pairs pairs)).
Proof.
  induction pairs as [|[k v] pairs IH] using rev_ind; intros F.
  - split; constructor.
  - apply Forall_app in F as [F1 F2]. destruct (IH F1) as [I1 I2].
    inversion F2 as [|? ? (key & Ek & Ev) _]; subst. cbn in Ek, Ev. subst k.
    rewrite map_of_pairs_snoc. split.
    + now apply map_set_keyed.
    + apply map_set_NoDup; [apply String.eqb_refl | exact I2].
Qed.

Lemma keyed_entries_keys (m : jsmap) :
  Forall keyed_entry m ->
  exists keys,
    mapM activity_key (map_values m) = Normal keys /\
    List.map VStr keys = List.map fst m.
Proof.
  induction 1 as [|[k v] m (key & Ek & Ev) Hm (keys & M & E)]; cbn.
  - now exists [].
  - cbn in Ek, Ev. unfold map_values in M. rewrite Ev, M. cbn.
    exists (key :: keys). cbn. now rewrite E, Ek.
Qed.

(** X10: the output has at most one record per key: the key strings
    [`${activityName}-${courseName}`] of the output records are pairwise
    different. *)
Theorem output_activity_keys_are_distinct (input out : value) :
  snd (getActivitiesAsJson input) = Normal out ->
  exists acts keys,
    out = VObj [("activities", VArr acts)] /\
    mapM activity_key acts = Normal keys /\
    NoDup keys.
Proof.
  intros H. destruct (stream_parts input) as [p|] eqn:P.
  - destruct (transformer_pipeline input out H)
      as (entries & cm & kept & pairs & E & CM & K & KY & ->);
      [congruence|].
    destruct (map_of_pairs_keyed pairs (mapM_keyed_entries _ _ KY)) as [F N].
    destruct (keyed_entries_keys _ F) as (keys & M & Ek).
    exists (map_values (map_of_pairs pairs)), keys.
    split; [reflexivity|]. split; [exact M|].
    rewrite <- Ek in N. now apply NoDup_map_inv in N.
  - unfold getActivitiesAsJson in H. rewrite P in H. injection H as <-.
    exists [], []. repeat split. constructor.
Qed.

Lemma output_activity_keys_are_distinct_witness :
  exists acts,
    snd (getActivitiesAsJson repeated_stream)
      = Normal (VObj [("activities", VArr acts)]) /\
    mapM activity_key acts = Normal ["Essay-Writing"; "Lab-Writing"].
Proof.
  destruct (output_activity_keys_are_distinct repeated_stream _ eq_refl)
    as (acts & keys & E & M & _).
  exists acts. split; [exact (f_equal Normal E)|].
  injection E as <-. reflexivity.
Defined.

Lemma mapM_app_inv {A B : Type} (f : A -> completion B) (l1 : list A) :
  forall x l2 ys,
    mapM f (l1 ++ x :: l2)%list = Normal ys ->
    exists ys1 y ys2,
      ys = (ys1 ++ y :: ys2)%list /\ mapM f l1 = Normal ys1 /\
      f x = Normal y /\ mapM f l2 = Normal ys2.
Proof.
  induction l1 as [|a l1 IH]; intros x l2 ys M; cbn in M.
  - destruct (f x) as [y|] eqn:F; [|discriminate]. cbn in M.
    destruct (mapM f l2) as [ys2|]; [|discriminate]. cbn in M.
    injection M as <-. now exists [], y, ys2.
  - destruct (f a) as [b|] eqn:F; [|discriminate]. cbn in M.
    destruct (mapM f (l1 ++ x :: l2)%list) as [ys'|] eqn:M'; [|discriminate].
    cbn in M. injection M as <-.
    destruct (IH x l2 ys' M') as (ys1 & y & ys2 & -> & M1 & Fx & M2).
    exists (b :: ys1), y, ys2. cbn. rewrite F, M1. auto.
Qed.

Lemma map_get_In (k v : value) (m : jsmap) :
  map_get k m = v -> v <> VUndef -> In v (map_values m).
Proof.
  induction m as [|[k' v'] m IH]; cbn; [congruence|].
  destruct (same_value_zero k' k); [intros ->; now left|].
  intros G N. right. now apply IH.
Qed.

(** X11: among the kept entries that share a key, the last one seen
    survives: on an input that passes the guard, the record of a kept entry
    is in the output whenever no kept entry after it in the stream has the
    same key string. *)
Theorem last_entry_of_a_key_survives (input out : value)
    (entries before after : list value) (entry : value) (cm : jsmap)
    (key : string) :
  snd (getActivitiesAsJson input) = Normal out ->
  field input "sv_streamEntries" = VArr entries ->
  truthy (field input "sv_extras") = true ->
  build_courseMap (field input "sv_extras") = Normal cm ->
  kept_entries entries = Normal (before ++ entry :: after)%list ->
  activity_key (activity_of cm entry) = Normal key ->
  Forall (fun e => activity_key (activity_of cm e) <> Normal key) after ->
  exists acts,
    out = VObj [("activities", VArr acts)] /\
    In (activity_of cm entry) acts.
Proof.
  intros H E X CM K Ky A.
  destruct (transformer_pipeline input out H)
    as (entries' & cm' & kept & pairs & E' & CM' & K' & KY & ->).
  { unfold getActivitiesAsJson in H.
    destruct (stream_parts input) eqn:P; [discriminate|].
    apply stream_parts_none in P as [P|[P|P]].
    - destruct input; cbn in E; discriminate.
    - rewrite E in P. discriminate.
    - congruence. }
  rewrite E in E'. injection E' as <-. rewrite CM in CM'. injection CM' as <-.
  rewrite K in K'. injection K' as <-.
  eexists. split; [reflexivity|].
  rewrite map_app in KY. cbn [List.map] in KY.
  destruct (mapM_app_inv _ _ _ _ _ KY) as (ps1 & p & ps2 & -> & M1 & Kp & M2).
  unfold keyed in Kp. rewrite Ky in Kp. cbn in Kp. injection Kp as <-.
  apply (map_get_In (VStr key)); [|discriminate].
  apply (proj2 (dedupe_last_per_key key _) ps1 _ ps2 eq_refl).
  apply Forall_forall. intros p I.
  destruct (mapM_In _ _ _ M2 p I) as (a & Ia & Ka).
  apply in_map_iff in Ia as (e & <- & Ie).
  rewrite Forall_forall in A. specialize (A e Ie).
  unfold keyed in Ka. destruct (activity_key (activity_of cm e)) as [k'|];
    [|discriminate].
  cbn in Ka. injection Ka as <-. cbn.
  apply String.eqb_neq. congruence.
Qed.

Lemma last_entry_of_a_key_survives_witness :
  exists acts,
    snd (getActivitiesAsJson repeated_stream)
      = Normal (VObj [("activities", VArr acts)]) /\
    In (VObj [("activityName", VStr "Essay"); ("courseName", VStr "Writing");
              ("type", VStr "Assignment"); ("dueDate", VStr "2025-09-08");
              ("givenDate", VNull)]) acts.
Proof.
  destruct (last_entry_of_a_key_survives repeated_stream _
              [stream_entry "Essay" "_1_1" "UA" [("startDate", VStr "2025-09-01")];
               stream_entry "Lab" "_1_1" "UA" [];
               stream_entry "Essay" "_1_1" "UA" [("dueDate", VStr "2025-09-08")]]
              [stream_entry "Essay" "_1_1" "UA" [("startDate", VStr "2025-09-01")];
               stream_entry "Lab" "_1_1" "UA" []]
              []
              (stream_entry "Essay" "_1_1" "UA" [("dueDate", VStr "2025-09-08")])
              [(VStr "_1_1", VStr "Writing")]
              "Essay-Writing"
              eq_refl eq_refl eq_refl eq_refl eq_refl eq_refl (Forall_nil _))
    as (acts & E & I).
  exists acts. split; [exact (f_equal Normal E) | exact I].
Defined.

(* ------------------------------------------------------------------ *)
(** ** getString as an inverse *)

(** X12: extracting what was embedded: when a text carries the left
    delimiter once, followed by a payload and the right delimiter, and the
    right delimiter first occurs after the payload, [getString] returns the
    payload. *)
Theorem getString_extracts_embedded (pre l mid r post : string) :
  l <> "" -> r <> "" ->
  first_occurrence l (pre ++ l ++ mid ++ r ++ post) pre (mid ++ r ++ post) ->
  ~ occurs l (mid ++ r ++ post) ->
  first_occurrence r (mid ++ r ++ post) mid post ->
  getString (pre ++ l ++ mid ++ r ++ post) l r = Normal (VStr mid).
Proof.
  intros Hl Hr F N G.
  rewrite (getString_left_present _ l r pre (mid ++ r ++ post) Hl Hr F).
  assert (E : first_piece l (mid ++ r ++ post) = mid ++ r ++ post).
  { unfold first_piece. destruct (cut l (mid ++ r ++ post)) as [[a b]|] eqn:C;
      [|reflexivity].
    exfalso. apply N. destruct (cut_sound _ _ _ _ C) as [E _].
    now exists a, b. }
  rewrite E. unfold first_piece. now rewrite (first_occurrence_cut _ _ _ _ G).
Qed.

Lemma getString_extracts_embedded_witness :
  getString ("<script>" ++ "user: " ++ "{}" ++ ("," ++ nl) ++ "locale: en")
    "user: " ("," ++ nl) = Normal (VStr "{}").
Proof.
  apply (getString_extracts_embedded "<script>" "user: " "{}" ("," ++ nl)
           "locale: en").
  - discriminate.
  - discriminate.
  - apply cut_sound. reflexivity.
  - apply cut_none. reflexivity.
  - apply cut_sound. reflexivity.
Defined.

(* ------------------------------------------------------------------ *)
(** ** The activity-stream response handler *)






(* ------------------------------------------------------------------ *)
(** ** The closure queued by getCourses *)

(** X17: the request URL of the courses closure embeds the identity's id.
    Building it throws, and so rejects the closure, exactly when the stored
    identity is [null] or [undefined] or its id cannot be converted to a
    string; an identity without an id asks for [users/undefined]. Right after
    the segment that opens the api gate the identity is not null. *)
Theorem courses_url_of_identity (identity : value) :
  ((exists err, courses_url identity = Throw err) <->
   (nullish identity = true \/
    exists err, to_string (field identity "id") = Throw err)) /\
  (forall s,
      nullish identity = false ->
      to_string (field identity "id") = Normal s ->
      courses_url identity
        = Normal (courses_url_prefix ++ s ++ courses_url_suffix)) /\
  (nullish identity = false ->
   field identity "id" = VUndef ->
   courses_url identity
     = Normal (courses_url_prefix ++ "undefined" ++ courses_url_suffix)) /\
  (forall (JSON_parse : string -> completion value) now e e' ev,
      step JSON_parse now e ev = Some e' ->
      isApiReady e = false -> isApiReady e' = true ->
      userData e' = identity ->
      nullish identity = false).
Proof.
  assert (U : forall s, nullish identity = false ->
                to_string (field identity "id") = Normal s ->
                courses_url identity
                  = Normal (courses_url_prefix ++ s ++ courses_url_suffix)).
  { intros s N T. unfold courses_url.
    rewrite (get_prop_field _ _ N). cbn [bind]. now rewrite T. }
  split; [|split; [exact U|split]].
  - split.
    + intros [err H]. destruct (nullish identity) eqn:N; [now left|]. right.
      unfold courses_url in H. rewrite (get_prop_field _ _ N) in H.
      cbn [bind] in H.
      destruct (to_string (field identity "id")) as [s|err'];
        [discriminate H | now exists err'].
    + intros [N|[err T]].
      * destruct identity; try discriminate N; now eexists.
      * destruct (nullish identity) eqn:N.
        -- destruct identity; try discriminate N; now eexists.
        -- unfold courses_url. rewrite (get_prop_field _ _ N). cbn [bind].
           rewrite T. now exists err.
  - intros N I. apply U; [exact N|]. now rewrite I.
  - intros JSON_parse now e e' ev S C O <-.
    destruct (gate_opening_step JSON_parse now e e' ev S C O) as (_ & T & _).
    now apply truthy_not_nullish.
Qed.

Lemma courses_url_of_identity_witness :
  courses_url (VObj [("id", VStr "_7_1")])
    = Normal (courses_url_prefix ++ "_7_1" ++ courses_url_suffix) /\
  exists err, courses_url VNull = Throw err.
Proof.
  split.
  - apply (courses_url_of_identity (VObj [("id", VStr "_7_1")])); reflexivity.
  - apply (courses_url_of_identity VNull). now left.
Defined.

(* ------------------------------------------------------------------ *)
(** ** The page test of initialize *)

Lemma includes_occurs (s sub : string) :
  includes s sub = true <-> occurs sub s.
Proof.
  unfold includes. destruct (cut sub s) as [[a b]|] eqn:C.
  - split; [intros _|reflexivity].
    destruct (cut_sound _ _ _ _ C) as [E _]. now exists a, b.
  - split; [discriminate|]. intros O. now apply cut_none in C.
Qed.

(* ------------------------------------------------------------------ *)
(** ** The response listener *)

Lemma tryProcess_trace (q : queue_id) (e : engine) :
  exists ext,
    trace (_tryProcessQueue q e) = (trace e ++ ext)%list /\
    Forall (fun o => emits_data o = false) ext.
Proof.
  unfold _tryProcessQueue, drain_loop.
  destruct (negb (isReady (queue_of q e)) || isProcessing (queue_of q e))%bool.
  - exists []. now rewrite app_nil_r.
  - destruct q; cbn; destruct (actionQueue _); cbn.
    1,3: exists []; now rewrite app_nil_r.
    all: eexists; split; [reflexivity | repeat constructor].
Qed.

Lemma checkApiReady_trace (now : Z) (e : engine) :
  exists ext,
    trace (_checkApiReady now e) = (trace e ++ ext)%list /\
    Forall (fun o => emits_data o = false) ext.
Proof.
  unfold _checkApiReady. destruct (isApiReady e).
  - exists []. now rewrite app_nil_r.
  - destruct (truthy (cookie e) && truthy (userData e))%bool.
    + match goal with
      | |- context [_tryProcessQueue Api ?x] =>
          destruct (tryProcess_trace Api x) as (ext & -> & F)
      end.
      cbn. rewrite <- app_assoc. eexists. split; [reflexivity|].
      constructor; [reflexivity | exact F].
    + exists []. now rewrite app_nil_r.
Qed.

Lemma handleActivityStream_frame (now : Z)
    (postDataJSON json : completion value) (e : engine) :
  let e' := fst (_handleActivityStreamResponse now postDataJSON json e) in
  browser e' = browser e /\ api e' = api e /\
  cookie e' = cookie e /\ userData e' = userData e.
Proof.
  cbn zeta.
  unfold _handleActivityStreamResponse, stream_failure, emit, _log, observe.
  destruct (requestData <- postDataJSON;; is_assignments_request requestData)
    as [[|]|err]; cbn; auto.
  destruct json as [resp|err]; cbn; auto.
  destruct (getActivitiesAsJson resp) as [printed [res|err]]; cbn; auto.
Qed.

(** X21: the response listener dispatches on the exact URL and method. A
    response that is neither the GET of the identity page nor the POST of the
    activity stream leaves the engine untouched, and so does an identity page
    whose text cannot be read. The identity page never makes the engine emit
    a data notification; the activity stream never changes the queues, the
    gates or the credentials. *)
Theorem responses_are_dispatched
    (JSON_parse : string -> completion value) (now : Z) (url method : string)
    (text : completion string) (postDataJSON json : completion value)
    (e : engine) :
  let r := on_response JSON_parse now url method text postDataJSON json e in
  (~ (url = ultra_url /\ method = "GET") ->
   ~ (url = stream_url /\ method = "POST") ->
   r = (e, [])) /\
  (url = ultra_url -> method = "GET" ->
   (forall err, text = Throw err -> r = (e, [])) /\
   exists ext,
     trace (fst r) = (trace e ++ ext)%list /\
     Forall (fun o => emits_data o = false) ext) /\
  (url = stream_url -> method = "POST" ->
   browser (fst r) = browser e /\ api (fst r) = api e /\
   cookie (fst r) = cookie e /\ userData (fst r) = userData e).
Proof.
  cbn zeta. unfold on_response. split; [|split].
  - intros N1 N2.
    destruct (String.eqb url ultra_url && String.eqb method "GET")%bool eqn:A.
    { apply andb_true_iff in A as [A1 A2].
      apply String.eqb_eq in A1, A2. exfalso. auto. }
    destruct (String.eqb url stream_url && String.eqb method "POST")%bool
      eqn:B; [|reflexivity].
    apply andb_true_iff in B as [B1 B2].
    apply String.eqb_eq in B1, B2. exfalso. auto.
  - intros -> ->. cbn [String.eqb andb]. rewrite !String.eqb_refl. cbn [andb].
    split; [now intros err ->|].
    destruct text as [body|err]; cbn [fst];
      [|exists []; now rewrite app_nil_r].
    unfold on_ultra_response.
    destruct (getString _ _ _) as [v|]; [|exists []; now rewrite app_nil_r].
    destruct (truthy v); [|exists []; now rewrite app_nil_r].
    destruct v; try (exists []; now rewrite app_nil_r).
    destruct (JSON_parse s); [|exists []; now rewrite app_nil_r].
    apply (checkApiReady_trace now (set_userData a e)).
  - intros -> ->.
    assert (A : (String.eqb stream_url ultra_url && String.eqb "POST" "GET")%bool
                = false) by reflexivity.
    rewrite A, !String.eqb_refl. cbn [andb].
    apply (handleActivityStream_frame now postDataJSON json e).
Qed.

Lemma responses_are_dispatched_witness :
  on_response sample_parse 9%Z "https://mcl.blackboard.com/ultra/stream" "GET"
    (Normal ("x user: {}," ++ nl ++ "y")) (Normal assignments_request)
    (Normal sample_stream) after_cookie = (after_cookie, []) /\
  userData (fst (on_response sample_parse 9%Z stream_url "POST"
                   (Normal ("x user: {}," ++ nl ++ "y"))
                   (Normal assignments_request) (Normal sample_stream)
                   after_cookie)) = VNull.
Proof.
  split.
  - apply (responses_are_dispatched sample_parse 9%Z
             "https://mcl.blackboard.com/ultra/stream" "GET");
      intros [H _]; discriminate H.
  - destruct (responses_are_dispatched sample_parse 9%Z stream_url "POST"
                (Normal ("x user: {}," ++ nl ++ "y"))
                (Normal assignments_request) (Normal sample_stream)
                after_cookie) as (_ & _ & H).
    destruct (H eq_refl eq_refl) as (_ & _ & _ & U). exact U.
Defined.

(* ================================================================== *)
(** * The engine with subscribers that may throw *)

(* ------------------------------------------------------------------ *)
(** ** Subscribers that return *)

Lemma checkApiReady_with_passive_subscribers (now : Z) (e : engine) :
  Subscribed._checkApiReady passive now e = (_checkApiReady now e, Normal tt).
Proof.
  unfold Subscribed._checkApiReady, _checkApiReady.
  destruct (isApiReady e); [reflexivity|].
  destruct (truthy (cookie e) && truthy (userData e))%bool; reflexivity.
Qed.

(** With subscribers that return, every segment runs to its end and leaves
    the state of the reading in which a report cannot fail. *)
Lemma step_with_passive_subscribers (JSON_parse : string -> completion value)
    (now : Z) (e : engine) (ev : event) :
  Subscribed.step passive JSON_parse now e ev
    = option_map (fun e' => (e', Normal tt)) (step JSON_parse now e ev).
Proof.
  destruct ev; cbn; try reflexivity.
  - unfold Subscribed.resume, resume.
    destruct (awaiting (queue_of q e)); [|reflexivity].
    destruct o; reflexivity.
  - now rewrite checkApiReady_with_passive_subscribers.
  - unfold Subscribed.on_ultra_response, on_ultra_response.
    destruct (getString _ _ _) as [v|]; [|reflexivity].
    destruct (truthy v); [|reflexivity].
    destruct v; try reflexivity.
    destruct (JSON_parse s); [|reflexivity].
    now rewrite checkApiReady_with_passive_subscribers.
Qed.

Lemma run_with_passive_subscribers (JSON_parse : string -> completion value)
    (evs : list (Z * event)) :
  forall e, Subscribed.run passive JSON_parse e evs = run JSON_parse e evs.
Proof.
  induction evs as [|[now ev] evs IH]; intros e; cbn; [reflexivity|].
  rewrite step_with_passive_subscribers.
  destruct (step JSON_parse now e ev); cbn; [apply IH | reflexivity].
Qed.

(* ------------------------------------------------------------------ *)
(** ** The queues between segments, whatever the subscribers do *)

Ltac run_code_s :=
  cbn -[sequential];
  repeat match goal with
    | |- sequential _ _ (if ?b then _ else _) =>
        destruct b eqn:?; cbn -[sequential] in *
    | |- sequential _ _ (match ?l with [] => _ | _ :: _ => _ end) =>
        destruct l eqn:?; cbn -[sequential] in *
    | |- sequential _ _ (match ?o with Some _ => _ | None => _ end) =>
        destruct o eqn:?; cbn -[sequential] in *
    end.

Ltac sequential_crush :=
  unfold sequential in *; cbn in *;
  repeat match goal with
    | a : option action |- _ => destruct a
    end;
  cbn in *;
  rewrite ?invoked_app, ?finished_app, ?map_app in *; cbn in *;
  rewrite ?invoked_app, ?finished_app, ?map_app in *; cbn in *;
  rewrite ?app_nil_r in *;
  repeat match goal with
    | H : _ /\ _ |- _ => destruct H
    | H : (_ || _)%bool = false |- _ =>
        apply orb_false_iff in H
    | H : negb _ = false |- _ => apply negb_false_iff in H
    end;
  subst;
  repeat match goal with
    | H : ?x = ?x -> _ |- _ => specialize (H eq_refl)
    | H : _ /\ _ |- _ => destruct H
    | H : Some ?a <> None -> _ |- _ =>
        let K := fresh in
        assert (K : Some a <> None) by discriminate; specialize (H K); clear K
    | H : ?b = true, K : ?b = true -> _ |- _ => specialize (K H)
    | H : ?b = false, K : ?b = false -> _ |- _ => specialize (K H)
    | H : ?b = true, K : ?b = false |- _ => congruence
    | H : None <> None |- _ => exfalso; apply H; reflexivity
    end;
  subst;
  repeat split; intros; try discriminate; try congruence; try list_eq;
  try solve [intuition (try discriminate; try congruence)].

Lemma sequential_tryProcess (q q' : queue_id) (enq : list action)
    (e : engine) :
  sequential q enq e -> sequential q enq (_tryProcessQueue q' e).
Proof.
  intros H. break_engine e. unfold _tryProcessQueue, drain_loop.
  destruct q'; run_code_s; try exact H; destruct q; sequential_crush.
Qed.

Lemma sequential_observe_emit (q : queue_id) (enq : list action)
    (name : string) (payload : value) (e : engine) :
  sequential q enq e -> sequential q enq (observe (Emit name payload) e).
Proof.
  unfold sequential, observe. destruct q; cbn;
    rewrite ?invoked_app, ?finished_app; cbn; rewrite ?app_nil_r;
    exact (fun H => H).
Qed.

Section SubscribedInvariant.

Variable subscribers : string -> value -> completion unit.
Variable JSON_parse : string -> completion value.

Lemma sequential_checkApiReady (q : queue_id) (enq : list action) (now : Z)
    (e : engine) :
  sequential q enq e ->
  sequential q enq (fst (Subscribed._checkApiReady subscribers now e)).
Proof.
  intros H. unfold Subscribed._checkApiReady.
  destruct (isApiReady e) eqn:R; [exact H|].
  destruct (truthy (cookie e) && truthy (userData e))%bool; [|exact H].
  unfold Subscribed.and_then, Subscribed._log, Subscribed.emit.
  destruct (subscribers "log" _); cbn [fst].
  - apply sequential_tryProcess, sequential_observe_emit.
    break_engine e. destruct q; cbn in R; subst; sequential_crush.
  - apply sequential_observe_emit.
    break_engine e. destruct q; cbn in R; subst; sequential_crush.
Qed.

Lemma sequential_on_ultra_response (q : queue_id) (enq : list action)
    (now : Z) (body : string) (e : engine) :
  sequential q enq e ->
  sequential q enq
    (Subscribed.on_ultra_response subscribers JSON_parse now body e).
Proof.
  intros H. unfold Subscribed.on_ultra_response.
  destruct (getString body "user: " ("," ++ nl)) as [v|]; [|exact H].
  destruct (truthy v); [|exact H].
  destruct v; try exact H.
  destruct (JSON_parse s); [|exact H].
  apply sequential_checkApiReady. destruct q; exact H.
Qed.

Lemma step_sequential (q : queue_id) (enq : list action) (now : Z)
    (e e' : engine) (c : completion unit) (ev : event) :
  sequential q enq e ->
  Subscribed.step subscribers JSON_parse now e ev = Some (e', c) ->
  sequential q (enq ++ Subscribed.enqueued subscribers q [(now, ev)]) e'.
Proof.
  intros H S. destruct ev; cbn in S;
    unfold Subscribed.and_then, Subscribed._log, Subscribed.emit in S.
  - rewrite app_nil_r.
    destruct (subscribers "log" _); injection S as <- <-; break_engine e;
      unfold _tryProcessQueue, drain_loop;
      run_code_s; destruct q; sequential_crush.
  - cbn [Subscribed.enqueued]. unfold Subscribed.accepted, request_message.
    destruct (subscribers "log" _); injection S as <- <-; break_engine e;
      unfold _tryProcessQueue, drain_loop;
      run_code_s; destruct q; sequential_crush.
  - cbn [Subscribed.enqueued]. unfold Subscribed.accepted, request_message.
    destruct (subscribers "log" _); injection S as <- <-; break_engine e;
      unfold _tryProcessQueue, drain_loop;
      run_code_s; destruct q; sequential_crush.
  - rewrite app_nil_r. break_engine e.
    unfold Subscribed.resume, Subscribed._log, Subscribed.emit, drain_loop,
      abandon in S.
    destruct q0, o; cbn in S;
      match type of S with
      | match ?o with Some _ => _ | None => _ end = _ =>
          destruct o eqn:?; [|discriminate S]
      end;
      try match type of S with
      | context [subscribers ?n ?p] => destruct (subscribers n p)
      end;
      injection S as <- <-; run_code_s; destruct q; sequential_crush.
  - injection S as <- <-. cbn. rewrite app_nil_r.
    destruct (truthy header_cookie); destruct q; exact H.
  - cbn. rewrite app_nil_r.
    pose proof (sequential_checkApiReady q enq now e H) as K.
    injection S as S. rewrite S in K. exact K.
  - injection S as <- <-. cbn. rewrite app_nil_r.
    now apply sequential_on_ultra_response.
  - injection S as <- <-. cbn. rewrite app_nil_r.
    now apply sequential_observe_emit.
Qed.

Lemma subscribed_enqueued_app (q : queue_id) (evs1 evs2 : list (Z * event)) :
  Subscribed.enqueued subscribers q (evs1 ++ evs2)%list
    = (Subscribed.enqueued subscribers q evs1
         ++ Subscribed.enqueued subscribers q evs2)%list.
Proof.
  induction evs1 as [|[now ev] evs1 IH]; [reflexivity|].
  destruct ev, q; cbn; rewrite ?IH; try reflexivity;
    destruct (Subscribed.accepted subscribers now _); reflexivity.
Qed.

Lemma subscribed_run_app (e : engine) (evs1 evs2 : list (Z * event)) :
  Subscribed.run subscribers JSON_parse e (evs1 ++ evs2)%list =
  match Subscribed.run subscribers JSON_parse e evs1 with
  | Some e' => Subscribed.run subscribers JSON_parse e' evs2
  | None => None
  end.
Proof.
  revert e. induction evs1 as [|[now ev] evs1 IH]; intros e; cbn;
    [reflexivity|].
  destruct (Subscribed.step subscribers JSON_parse now e ev) as [[e1 c]|];
    [apply IH | reflexivity].
Qed.

Lemma sequential_new (q : queue_id) : sequential q [] new_engine.
Proof.
  destruct q; cbn; repeat split; intros; try discriminate;
    try reflexivity; exfalso; auto.
Qed.

Lemma run_sequential (q : queue_id) (evs : list (Z * event)) :
  forall (enq : list action) (e e' : engine),
    sequential q enq e ->
    Subscribed.run subscribers JSON_parse e evs = Some e' ->
    sequential q (enq ++ Subscribed.enqueued subscribers q evs) e'.
Proof.
  induction evs as [|[now ev] evs IH]; intros enq e e' H R; cbn in R.
  - injection R as <-. cbn. now rewrite app_nil_r.
  - destruct (Subscribed.step subscribers JSON_parse now e ev) as [[e1 c]|]
      eqn:S; [|discriminate].
    pose proof (step_sequential q enq now e e1 c ev H S) as H1.
    specialize (IH _ _ _ H1 R).
    change ((now, ev) :: evs) with ([(now, ev)] ++ evs)%list.
    now rewrite subscribed_enqueued_app, app_assoc.
Qed.

End SubscribedInvariant.

(* ------------------------------------------------------------------ *)
(** ** The drain loop and its reports *)



Section SubscribedDrain.

Variable subscribers : string -> value -> completion unit.
Variable JSON_parse : string -> completion value.









End SubscribedDrain.

(* ------------------------------------------------------------------ *)
(** ** The segment that opens a gate *)


Section SubscribedGate.

Variable subscribers : string -> value -> completion unit.
Variable JSON_parse : string -> completion value.




(* ------------------------------------------------------------------ *)
(** ** A drain routine left by a throw *)

Ltac stall_crush :=
  repeat match goal with
    | |- context [if ?b then _ else _] => destruct b eqn:?; cbn in *
    | |- context [match ?l with [] => _ | _ :: _ => _ end] =>
        destruct l eqn:?; cbn in *
    end;
  try match goal with
    | H : (_ || true)%bool = false |- _ =>
        rewrite orb_true_r in H; discriminate H
    end;
  rewrite ?invoked_app; cbn; rewrite ?invoked_app; cbn;
  rewrite ?app_nil_r;
  repeat split; try reflexivity; try assumption; try congruence;
  first [ exists []; now rewrite app_nil_r | eexists; reflexivity ].

Lemma stalled_tryProcess (q q' : queue_id) (e : engine) :
  stalled q e ->
  stalled q (_tryProcessQueue q' e) /\
  invoked q (trace (_tryProcessQueue q' e)) = invoked q (trace e) /\
  actionQueue (queue_of q (_tryProcessQueue q' e))
    = actionQueue (queue_of q e).
Proof.
  intros [P A]. break_engine e. unfold stalled, _tryProcessQueue, drain_loop.
  destruct q, q'; cbn in *; subst; cbn;
    repeat match goal with
      | |- context [if ?b then _ else _] => destruct b eqn:?; cbn in *
      | |- context [match ?l with [] => _ | _ :: _ => _ end] =>
          destruct l eqn:?; cbn in *
      end;
    try match goal with
      | H : (_ || true)%bool = false |- _ =>
          rewrite orb_true_r in H; discriminate H
      end;
    rewrite ?invoked_app; cbn; rewrite ?app_nil_r; auto.
Qed.

Lemma stalled_observe_emit (q : queue_id) (name : string) (payload : value)
    (e : engine) :
  stalled q e ->
  stalled q (observe (Emit name payload) e) /\
  invoked q (trace (observe (Emit name payload) e)) = invoked q (trace e) /\
  actionQueue (queue_of q (observe (Emit name payload) e))
    = actionQueue (queue_of q e).
Proof.
  intros H. unfold stalled, observe in *.
  destruct q; cbn in *; rewrite invoked_app; cbn; rewrite app_nil_r; auto.
Qed.

Lemma stalled_subscribed_checkApiReady (q : queue_id) (now : Z)
    (e : engine) :
  stalled q e ->
  let e' := fst (Subscribed._checkApiReady subscribers now e) in
  stalled q e' /\
  invoked q (trace e') = invoked q (trace e) /\
  actionQueue (queue_of q e') = actionQueue (queue_of q e).
Proof.
  intros H. cbn zeta. unfold Subscribed._checkApiReady.
  destruct (isApiReady e); [auto|].
  destruct (truthy (cookie e) && truthy (userData e))%bool; [|auto].
  unfold Subscribed.and_then, Subscribed._log, Subscribed.emit.
  assert (K : stalled q (set_ready Api e) /\
              invoked q (trace (set_ready Api e)) = invoked q (trace e) /\
              actionQueue (queue_of q (set_ready Api e))
                = actionQueue (queue_of q e))
    by (destruct q; exact (conj H (conj eq_refl eq_refl))).
  destruct K as (K1 & K2 & K3).
  destruct (stalled_observe_emit q "log"
              (log_payload now INFO
                 "API credentials acquired. API queue is now ready.")
              _ K1) as (L1 & L2 & L3).
  destruct (subscribers "log" _); cbn [fst].
  - destruct (stalled_tryProcess q Api _ L1) as (M1 & M2 & M3).
    rewrite M2, M3, L2, L3, K2, K3. auto.
  - rewrite L2, L3, K2, K3. auto.
Qed.

(** Once the drain routine of [q] was left by a throw, no segment calls an
    action of [q] or clears its flag; requests only lengthen the queue. *)
Lemma step_stalled (q : queue_id) (now : Z) (e e' : engine)
    (c : completion unit) (ev : event) :
  stalled q e ->
  Subscribed.step subscribers JSON_parse now e ev = Some (e', c) ->
  stalled q e' /\
  invoked q (trace e') = invoked q (trace e) /\
  exists more,
    actionQueue (queue_of q e') = (actionQueue (queue_of q e) ++ more)%list.
Proof.
  intros H S.
  assert (W : forall e1,
             stalled q e1 /\ invoked q (trace e1) = invoked q (trace e) /\
             actionQueue (queue_of q e1) = actionQueue (queue_of q e) ->
             stalled q e1 /\ invoked q (trace e1) = invoked q (trace e) /\
             exists more,
               actionQueue (queue_of q e1)
                 = (actionQueue (queue_of q e) ++ more)%list).
  { intros e1 (K1 & K2 & K3). split; [exact K1|]. split; [exact K2|].
    exists []. now rewrite app_nil_r. }
  destruct ev; cbn in S;
    unfold Subscribed.and_then, Subscribed._log, Subscribed.emit in S.
  - destruct H as [P A].
    destruct (subscribers "log" _); injection S as <- <-; break_engine e;
      unfold stalled, _tryProcessQueue, drain_loop;
      destruct q; cbn in *; subst; cbn; stall_crush.
  - destruct H as [P A].
    destruct (subscribers "log" _); injection S as <- <-; break_engine e;
      unfold stalled, _tryProcessQueue, drain_loop;
      destruct q; cbn in *; subst; cbn; stall_crush.
  - destruct H as [P A].
    destruct (subscribers "log" _); injection S as <- <-; break_engine e;
      unfold stalled, _tryProcessQueue, drain_loop;
      destruct q; cbn in *; subst; cbn; stall_crush.
  - destruct H as [P A].
    unfold Subscribed.resume, Subscribed._log, Subscribed.emit, drain_loop,
      abandon, observe in S.
    break_engine e.
    destruct q, q0; cbn in *; subst;
      try discriminate S;
      match type of S with
      | match ?o with Some _ => _ | None => _ end = _ =>
          destruct o eqn:?; [|discriminate S]
      end;
      destruct o;
      try match type of S with
      | context [subscribers ?n ?p] => destruct (subscribers n p)
      end;
      injection S as <- <-; unfold stalled; cbn; stall_crush.
  - injection S as <- <-. apply W.
    destruct (truthy header_cookie); destruct q; auto.
  - assert (E : e' = fst (Subscribed._checkApiReady subscribers now e))
      by (injection S as S; now rewrite S).
    subst e'. apply W. now apply stalled_subscribed_checkApiReady.
  - injection S as <- <-. apply W. unfold Subscribed.on_ultra_response.
    destruct (getString _ _ _) as [v|]; [|auto].
    destruct (truthy v); [|auto].
    destruct v; auto.
    destruct (JSON_parse s) as [u|]; [|auto].
    destruct (stalled_subscribed_checkApiReady q now (set_userData u e))
      as (K1 & K2 & K3); [destruct q; exact H|].
    rewrite K2, K3. destruct q; auto.
  - injection S as <- <-. apply W. now apply stalled_observe_emit.
Qed.

Lemma run_stalled (q : queue_id) (evs : list (Z * event)) :
  forall e e',
    stalled q e ->
    Subscribed.run subscribers JSON_parse e evs = Some e' ->
    stalled q e' /\
    invoked q (trace e') = invoked q (trace e) /\
    exists more,
      actionQueue (queue_of q e') = (actionQueue (queue_of q e) ++ more)%list.
Proof.
  induction evs as [|[now ev] evs IH]; intros e e' H R; cbn in R.
  - injection R as <-. split; [exact H|]. split; [reflexivity|].
    exists []. now rewrite app_nil_r.
  - destruct (Subscribed.step subscribers JSON_parse now e ev) as [[e1 c]|]
      eqn:S; [|discriminate].
    destruct (step_stalled q now e e1 c ev H S) as (H1 & N1 & m1 & Q1).
    destruct (IH _ _ H1 R) as (H2 & N2 & m2 & Q2).
    split; [exact H2|]. split; [congruence|].
    exists (m1 ++ m2)%list. now rewrite Q2, Q1, app_assoc.
Qed.

(* ------------------------------------------------------------------ *)
(** ** Requests while a drain is active *)




End SubscribedGate.

(* ------------------------------------------------------------------ *)
(** ** Queued actions, the gate and the drain *)










(** X2: whatever the subscribers do, the drain of a queue is sequential: in
    every state the engine reaches, the actions called are the actions that
    have settled, in the same order, followed by the one action awaited, if
    any; so an action is called only after every action called before it on
    the same queue has settled, and the flag is up whenever one is
    awaited. *)
Theorem drain_is_sequential
    (subscribers : string -> value -> completion unit)
    (JSON_parse : string -> completion value) (q : queue_id)
    (evs : list (Z * event)) (e : engine) :
  Subscribed.run subscribers JSON_parse new_engine evs = Some e ->
  invoked q (trace e)
    = (List.map fst (finished q (trace e))
         ++ opt_list (awaiting (queue_of q e)))%list /\
  (awaiting (queue_of q e) <> None -> isProcessing (queue_of q e) = true) /\
  List.length (invoked q (trace e))
    <= S (List.length (finished q (trace e))).
Proof.
  intros R.
  pose proof (run_sequential subscribers JSON_parse q evs [] _ _
                (sequential_new q) R) as (_ & I2 & I3 & _).
  split; [now symmetry|]. split; [exact I3|].
  rewrite <- I2, length_app, length_map.
  destruct (awaiting (queue_of q e)); cbn; lia.
Qed.

Lemma drain_is_sequential_witness :
  invoked Browser (trace after_failing_first_action) = [11] /\
  finished Browser (trace after_failing_first_action)
    = [(11, Rejected "page closed")] /\
  awaiting (queue_of Browser after_failing_first_action) = None.
Proof.
  assert (R : Subscribed.run throws_on_error_entries sample_parse new_engine
                failing_first_action = Some after_failing_first_action)
    by (vm_compute; reflexivity).
  assert (F : finished Browser (trace after_failing_first_action)
              = [(11, Rejected "page closed")])
    by (vm_compute; reflexivity).
  assert (A : awaiting (queue_of Browser after_failing_first_action) = None)
    by (vm_compute; reflexivity).
  destruct (drain_is_sequential throws_on_error_entries sample_parse Browser
              failing_first_action after_failing_first_action R)
    as (H & _).
  rewrite F, A in H. split; [exact H | split; [exact F | exact A]].
Defined.

(* ------------------------------------------------------------------ *)
(** ** The activity-stream response handler and its subscribers *)




(* ------------------------------------------------------------------ *)
(** ** The closure queued by getCourses and its subscribers *)




(** X16: a failure of the closure before the emission is caught and
    reported as exactly one ERROR entry, whatever the subscribers do, and
    nothing is emitted: a response that is not ok gives the message
    [API request failed with status <status>], whatever its body; a rejected
    fetch, an unparsable body and a transformer failure give their own
    message. The closure settles as the subscribers of that entry complete.
    It never touches the queues, the gates or the credentials. *)
Theorem courses_failures_are_logged
    (subscribers : string -> value -> completion unit) (now : Z)
    (fetched : completion fetch_response) (e : engine) :
  let result := Subscribed.courses_action_end subscribers now fetched e in
  let e' := fst (fst result) in
  (browser e' = browser e /\ api e' = api e /\
   cookie e' = cookie e /\ userData e' = userData e) /\
  (forall response,
      fetched = Normal response -> response_ok response = false ->
      let entry :=
        error_entry now
          ("Failed to fetch or process courses: "
             ++ "API request failed with status "
             ++ Z_to_string (response_status response)) in
      trace e' = (trace e ++ [Emit "log" entry])%list /\
      snd (fst result) = subscribers "log" entry) /\
  (forall err,
      fetched = Throw err \/
      (exists response,
          fetched = Normal response /\ response_ok response = true /\
          (response_json response = Throw err \/
           exists responseData,
             response_json response = Normal responseData /\
             snd (getCoursesAsJson responseData) = Throw err)) ->
      let entry :=
        error_entry now
          ("Failed to fetch or process courses: " ++ error_message err) in
      trace e' = (trace e ++ [Emit "log" entry])%list /\
      snd (fst result) = subscribers "log" entry).
Proof.
  cbn zeta.
  unfold Subscribed.courses_action_end, Subscribed.courses_failure,
    Subscribed.catch_with, Subscribed.and_then, Subscribed._log,
    Subscribed.emit, observe.
  split; [|split].
  - destruct (courses_try fetched) as [[message|courses] printed]; cbn; auto.
    destruct (subscribers "fetch:courses" courses);
      [destruct (subscribers "log" _)|]; cbn; auto.
  - intros resp -> O. unfold courses_try. rewrite O. cbn. split; reflexivity.
  - intros err [->|(resp & -> & O & [J|(rd & J & G)])]; unfold courses_try.
    + cbn. split; reflexivity.
    + rewrite O, J. cbn. split; reflexivity.
    + rewrite O, J. cbn.
      destruct (getCoursesAsJson rd) as [printed res]. cbn in G. subst res.
      cbn. split; reflexivity.
Qed.

Lemma courses_failures_are_logged_witness :
  trace (fst (fst (Subscribed.courses_action_end throws_on_data 9%Z
                     (Normal (mkResponse false 401 (Normal sample_enrollments)))
                     new_engine)))
  = [Emit "log"
       (VObj [("date", VNum 9); ("level", VStr "ERROR");
              ("message",
               VStr "Failed to fetch or process courses: API request failed with status 401")])].
Proof.
  destruct (courses_failures_are_logged throws_on_data 9%Z
              (Normal (mkResponse false 401 (Normal sample_enrollments)))
              new_engine) as (_ & H & _).
  exact (proj1 (H (mkResponse false 401 (Normal sample_enrollments))
                  eq_refl eq_refl)).
Defined.

(* ------------------------------------------------------------------ *)
(** ** initialize, login and their subscribers *)

Lemma log_payload_info (now : Z) (message : string) :
  log_payload now INFO message = info_entry now message.
Proof. reflexivity. Qed.

Lemma log_payload_debug (now : Z) (message : string) :
  log_payload now DEBUG message = debug_entry now message.
Proof. reflexivity. Qed.

Lemma log_payload_warn (now : Z) (message : string) :
  log_payload now WARN message = warn_entry now message.
Proof. reflexivity. Qed.

Ltac settle :=
  repeat match goal with
    | |- ~ _ => intro
    | |- _ /\ _ => split
    | |- _ <-> _ => split
    | |- _ -> _ => intro
    | H : _ /\ _ |- _ => destruct H
    | H : exists _, _ |- _ => destruct H
    | H : _ \/ _ |- _ => destruct H
    | H : Throw _ = Normal _ |- _ => discriminate H
    | H : Normal _ = Throw _ |- _ => discriminate H
    | H : False |- _ => destruct H
    | H : (_, _) = (_, _) |- _ => discriminate H
    | |- exists _, Normal _ = Normal _ => eexists; reflexivity
    end;
  try reflexivity; try discriminate; auto.

Section SubscribedLogin.

Variable subscribers : string -> value -> completion unit.

Lemma login_outcomes (r : Subscribed.login_run) :
  (snd (Subscribed.login subscribers r) = Normal tt <->
   login_can_finish subscribers r) /\
  Forall logs_only (fst (Subscribed.login subscribers r)) /\
  (exists message rest,
      fst (Subscribed.login subscribers r)
        = (Subscribed.consent_time r, LogCall DEBUG message) :: rest) /\
  (In (Subscribed.idle_time r,
       LogCall WARN
         "Network did not become idle after login, continuing anyway.")
      (fst (Subscribed.login subscribers r)) ->
   exists err, Subscribed.network_idle r = Throw err) /\
  (snd (Subscribed.login subscribers r) = Normal tt ->
   (exists err, Subscribed.network_idle r = Throw err) ->
   In (Subscribed.idle_time r,
       LogCall WARN
         "Network did not become idle after login, continuing anyway.")
      (fst (Subscribed.login subscribers r))).
Proof.
  unfold Subscribed.login, Subscribed.consent, Subscribed.idle,
    Subscribed.followed_by, Subscribed.awaited, Subscribed.log_segment,
    login_can_finish, reported, logs_only.
  rewrite !log_payload_debug, !log_payload_warn.
  cbn [fst snd].
  destruct (Subscribed.consent_click r) as [[]|?];
    destruct (subscribers "log"
                (debug_entry (Subscribed.consent_time r)
                   "Cookie consent banner not found, skipping.")) as [[]|?];
    try destruct (subscribers "log"
                    (debug_entry (Subscribed.consent_time r)
                       "Clicked cookie consent button.")) as [[]|?];
    destruct (Subscribed.username_fill r) as [[]|?];
    destruct (Subscribed.password_fill r) as [[]|?];
    destruct (Subscribed.sign_in_click r) as [[]|?];
    destruct (Subscribed.network_idle r) as [[]|?];
    try destruct (subscribers "log"
                    (warn_entry (Subscribed.idle_time r)
                       "Network did not become idle after login, continuing anyway."))
      as [[]|?];
    cbn;
    (split; [settle|]);
    (split; [repeat constructor|]);
    (split; [eexists _, _; reflexivity|]);
    (split; [intros I; repeat (destruct I as [I|I]; try discriminate I);
             try contradiction; eexists; reflexivity
            |settle]).
Qed.

End SubscribedLogin.

Lemma gate_report_browser (now : Z) :
  gate_report Browser now
    = info_entry now "Browser is ready. Processing browser action queue.".
Proof. reflexivity. Qed.

Lemma Forall_logs_only_snoc (logs : list (Z * event)) (now : Z)
    (lvl : level) (message : string) :
  Forall logs_only logs ->
  Forall logs_only (logs ++ [(now, LogCall lvl message)])%list.
Proof.
  intros H. apply Forall_app. split; [exact H | repeat constructor].
Qed.

Section SubscribedInitialize.

Variable subscribers : string -> value -> completion unit.

(** How [initialize] settles, and the shape of its segments: they only log,
    but for the last one when the segment that opens the gate was
    reached. *)
Lemma initialize_outcomes (r : Subscribed.initialize_run) :
  (snd (Subscribed.initialize subscribers r) = Normal true <->
   initialize_can_finish subscribers r) /\
  (snd (Subscribed.initialize subscribers r) = Normal true ->
   exists logs now,
     fst (Subscribed.initialize subscribers r)
       = (logs ++ [(now, InitializeDone)])%list /\
     Forall logs_only logs /\
     subscribers "log" (gate_report Browser now) = Normal tt) /\
  (forall err,
      snd (Subscribed.initialize subscribers r) = Throw err ->
      Forall logs_only (fst (Subscribed.initialize subscribers r)) \/
      exists logs now,
        fst (Subscribed.initialize subscribers r)
          = (logs ++ [(now, InitializeDone)])%list /\
        Forall logs_only logs /\
        subscribers "log" (gate_report Browser now) = Throw err) /\
  snd (Subscribed.initialize subscribers r) <> Normal false.
Proof.
  destruct (login_outcomes subscribers (Subscribed.login_calls r))
    as (L1 & L2 & _).
  unfold Subscribed.initialize, Subscribed.followed_by, Subscribed.awaited,
    Subscribed.log_segment, Subscribed.ready_segment, initialize_can_finish,
    reported.
  rewrite !log_payload_info, !gate_report_browser.
  cbn [fst snd].
  assert (Early : forall (segments : list (Z * event)) (err : error),
             Forall logs_only segments ->
             ~ initialize_can_finish subscribers r ->
             (Throw err = Normal true <-> initialize_can_finish subscribers r)
             /\
             (@Throw bool err = Normal true ->
              exists logs now,
                segments = (logs ++ [(now, InitializeDone)])%list /\
                Forall logs_only logs /\
                subscribers "log" (gate_report Browser now) = Normal tt) /\
             (forall err0,
                 @Throw bool err = Throw err0 ->
                 Forall logs_only segments \/
                 exists logs now,
                   segments = (logs ++ [(now, InitializeDone)])%list /\
                   Forall logs_only logs /\
                   subscribers "log" (gate_report Browser now) = Throw err0) /\
             @Throw bool err <> Normal false).
  { intros segments err F N. split; [split; [discriminate | contradiction]|].
    split; [discriminate|]. split; [intros; now left | discriminate]. }
  unfold initialize_can_finish, reported in Early.
  rewrite ?gate_report_browser in Early.
  destruct (subscribers "log"
              (info_entry (Subscribed.start_time r)
                 "Engine initialization started.")) as [[]|e0].
  2: { apply Early; [repeat constructor | settle]. }
  destruct (Subscribed.browser_launch r) as [[]|e1].
  2: { apply Early; [repeat constructor | settle]. }
  destruct (Subscribed.browser_newPage r) as [[]|e2].
  2: { apply Early; [repeat constructor | settle]. }
  destruct (Subscribed.page_goto r) as [[]|e3].
  2: { apply Early; [repeat constructor | settle]. }
  destruct (Subscribed.page_content r) as [content|e4].
  2: { apply Early; [repeat constructor | settle]. }
  assert (Content : forall P : string -> Prop,
             (exists c, Normal content = Normal c /\ P c) <-> P content).
  { intros P. split; [intros (c & [= <-] & H); exact H | intros H; now exists content]. }
  destruct (includes content loginPageHeader) eqn:I; cbn [negb fst snd app].
  - destruct (subscribers "log"
                (info_entry (Subscribed.content_time r)
                   "User not logged in, proceeding with login."))
      as [[]|e5].
    2: { apply Early; [repeat constructor|].
         intros (_ & _ & _ & _ & c & [= <-] & H). rewrite I in H. settle. }
    destruct (Subscribed.login subscribers (Subscribed.login_calls r))
      as [segs [[]|lerr]]; cbn [fst snd app] in *.
    2: { apply Early; [repeat constructor; exact L2|].
         intros (_ & _ & _ & _ & c & [= <-] & H). rewrite I in H.
         destruct H as (_ & H & _). apply L1 in H. discriminate H. }
    destruct (subscribers "log"
                (info_entry (Subscribed.done_time r) "Login successful."))
      as [[]|e6]; cbn [fst snd app].
    2: { apply Early.
         - repeat constructor. now apply Forall_logs_only_snoc.
         - intros (_ & _ & _ & _ & c & [= <-] & H). rewrite I in H. settle. }
    assert (Shape :
              ((Subscribed.start_time r,
                LogCall INFO "Engine initialization started.")
               :: (Subscribed.content_time r,
                   LogCall INFO "User not logged in, proceeding with login.")
               :: segs ++
                  [(Subscribed.done_time r, LogCall INFO "Login successful.");
                   (Subscribed.done_time r, InitializeDone)])%list
              = (((Subscribed.start_time r,
                   LogCall INFO "Engine initialization started.")
                  :: (Subscribed.content_time r,
                      LogCall INFO "User not logged in, proceeding with login.")
                  :: segs ++
                     [(Subscribed.done_time r,
                       LogCall INFO "Login successful.")])
                 ++ [(Subscribed.done_time r, InitializeDone)])%list).
    { cbn. now rewrite <- app_assoc. }
    assert (Logs :
              Forall logs_only
                ((Subscribed.start_time r,
                  LogCall INFO "Engine initialization started.")
                 :: (Subscribed.content_time r,
                     LogCall INFO "User not logged in, proceeding with login.")
                 :: segs ++
                    [(Subscribed.done_time r,
                      LogCall INFO "Login successful.")])%list).
    { repeat constructor. now apply Forall_logs_only_snoc. }
    destruct (subscribers "log"
                (info_entry (Subscribed.done_time r)
                   "Browser is ready. Processing browser action queue."))
      as [[]|e7] eqn:G.
    + split; [split; [intros _|reflexivity]|].
      { split; [reflexivity|]. do 3 (split; [now exists tt|]).
        exists content. split; [reflexivity|]. rewrite I.
        split; [reflexivity|]. split; [now apply L1|].
        split; reflexivity. }
      split; [intros _|split; [discriminate | discriminate]].
      eexists _, _. split; [exact Shape|]. split; [exact Logs|].
      rewrite gate_report_browser. exact G.
    + split; [split; [discriminate|]|].
      { intros (_ & _ & _ & _ & c & [= <-] & H). rewrite I in H.
        destruct H as (_ & _ & _ & H). discriminate H. }
      split; [discriminate|]. split; [|discriminate].
      intros err [= <-]. right.
      eexists _, _. split; [exact Shape|]. split; [exact Logs|].
      rewrite gate_report_browser. exact G.
  - destruct (subscribers "log"
                (info_entry (Subscribed.content_time r)
                   "User is already logged in.")) as [[]|e5].
    2: { apply Early; [repeat constructor|].
         intros (_ & _ & _ & _ & c & [= <-] & H). rewrite I in H. settle. }
    cbn [fst snd app].
    destruct (subscribers "log"
                (info_entry (Subscribed.content_time r)
                   "Browser is ready. Processing browser action queue."))
      as [[]|e7] eqn:G.
    + split; [split; [intros _|reflexivity]|].
      { split; [reflexivity|]. do 3 (split; [now exists tt|]).
        exists content. split; [reflexivity|]. rewrite I.
        split; reflexivity. }
      split; [intros _|split; [discriminate | discriminate]].
      exists [(Subscribed.start_time r,
               LogCall INFO "Engine initialization started.");
              (Subscribed.content_time r,
               LogCall INFO "User is already logged in.")],
        (Subscribed.content_time r).
      split; [reflexivity|]. split; [repeat constructor|].
      rewrite gate_report_browser. exact G.
    + split; [split; [discriminate|]|].
      { intros (_ & _ & _ & _ & c & [= <-] & H). rewrite I in H.
        destruct H as (_ & H). discriminate H. }
      split; [discriminate|]. split; [|discriminate].
      intros err [= <-]. right.
      exists [(Subscribed.start_time r,
               LogCall INFO "Engine initialization started.");
              (Subscribed.content_time r,
               LogCall INFO "User is already logged in.")],
        (Subscribed.content_time r).
      split; [reflexivity|]. split; [repeat constructor|].
      rewrite gate_report_browser. exact G.
Qed.

End SubscribedInitialize.

(** X18: [login] tolerates a missing consent banner and a network that does
    not become idle. It resolves exactly when the two fills and the sign-in
    click resolve and the subscribers return from its reports: from the
    DEBUG entry about the consent banner (when they throw on the entry of
    the click, the [catch] block reports the banner as not found) and, if
    the network did not become idle, from the WARN entry. Its segments only
    log, the first one a DEBUG line read when the click has settled; a WARN
    line appears only when the network did not become idle, and always when
    [login] resolves although it did not. *)
Theorem login_tolerates_banner_and_network
    (subscribers : string -> value -> completion unit)
    (r : Subscribed.login_run) :
  (snd (Subscribed.login subscribers r) = Normal tt <->
   login_can_finish subscribers r) /\
  Forall logs_only (fst (Subscribed.login subscribers r)) /\
  (exists message rest,
      fst (Subscribed.login subscribers r)
        = (Subscribed.consent_time r, LogCall DEBUG message) :: rest) /\
  (In (Subscribed.idle_time r,
       LogCall WARN
         "Network did not become idle after login, continuing anyway.")
      (fst (Subscribed.login subscribers r)) ->
   exists err, Subscribed.network_idle r = Throw err) /\
  (snd (Subscribed.login subscribers r) = Normal tt ->
   (exists err, Subscribed.network_idle r = Throw err) ->
   In (Subscribed.idle_time r,
       LogCall WARN
         "Network did not become idle after login, continuing anyway.")
      (fst (Subscribed.login subscribers r))).
Proof. exact (login_outcomes subscribers r). Qed.

Lemma login_tolerates_banner_and_network_witness :
  snd (Subscribed.login throws_on_error_entries slow_login) = Normal tt /\
  In (7%Z,
      LogCall WARN
        "Network did not become idle after login, continuing anyway.")
     (fst (Subscribed.login throws_on_error_entries slow_login)).
Proof.
  destruct (login_tolerates_banner_and_network throws_on_error_entries
              slow_login) as ((_ & H) & _ & _ & _ & K).
  assert (R : snd (Subscribed.login throws_on_error_entries slow_login)
              = Normal tt).
  { apply H. unfold login_can_finish, reported. cbn.
    split; [reflexivity|]. do 3 (split; [now exists tt|]). reflexivity. }
  split; [exact R|]. apply (K R). now exists timeout_error.
Defined.

(** X19: [initialize] resolves (to [true]) exactly when the launch, the new
    page, the navigation and the reading of the page content resolve, the
    login gets through if the page shows the login header, and the
    subscribers return from every entry [initialize] logs. When it
    resolves, its last segment is the one that opens the browser gate and
    all the others only log. When it rejects, either all its segments only
    log, so none opens the gate, or its last segment is the one that opens
    the gate and the subscribers threw on the report of the gate, after the
    gate was set. *)
Theorem initialize_resolves_iff_awaits_resolve
    (subscribers : string -> value -> completion unit)
    (r : Subscribed.initialize_run) :
  (snd (Subscribed.initialize subscribers r) = Normal true <->
   initialize_can_finish subscribers r) /\
  (snd (Subscribed.initialize subscribers r) = Normal true ->
   exists logs now,
     fst (Subscribed.initialize subscribers r)
       = (logs ++ [(now, InitializeDone)])%list /\
     Forall logs_only logs /\
     subscribers "log" (gate_report Browser now) = Normal tt) /\
  (forall err,
      snd (Subscribed.initialize subscribers r) = Throw err ->
      Forall logs_only (fst (Subscribed.initialize subscribers r)) \/
      exists logs now,
        fst (Subscribed.initialize subscribers r)
          = (logs ++ [(now, InitializeDone)])%list /\
        Forall logs_only logs /\
        subscribers "log" (gate_report Browser now) = Throw err) /\
  snd (Subscribed.initialize subscribers r) <> Normal false.
Proof. exact (initialize_outcomes subscribers r). Qed.

Lemma initialize_resolves_iff_awaits_resolve_witness :
  snd (Subscribed.initialize throws_on_error_entries login_needed_run)
    = Normal true.
Proof.
  apply (initialize_resolves_iff_awaits_resolve throws_on_error_entries
           login_needed_run).
  unfold initialize_can_finish, reported.
  split; [reflexivity|]. do 3 (split; [now exists tt|]).
  eexists. split; [reflexivity|].
  assert (I : includes ("<body>" ++ loginPageHeader ++ "</body>")
                loginPageHeader = true) by (vm_compute; reflexivity).
  rewrite I. split; [reflexivity|]. split; [|split; reflexivity].
  unfold login_can_finish, reported. cbn.
  split; [reflexivity|]. do 3 (split; [now exists tt|]). reflexivity.
Defined.

Section SubscribedInitializeRun.

Variable subscribers : string -> value -> completion unit.
Variable JSON_parse : string -> completion value.

Lemma subscribed_run_log_calls (tevs : list (Z * event)) :
  Forall logs_only tevs ->
  forall e,
    exists e',
      Subscribed.run subscribers JSON_parse e tevs = Some e' /\
      browser e' = browser e /\ api e' = api e /\
      cookie e' = cookie e /\ userData e' = userData e /\
      forall q, invoked q (trace e') = invoked q (trace e).
Proof.
  induction tevs as [|[now ev] tevs IH]; intros F e.
  - exists e. cbn. auto 10.
  - inversion F as [|? ? L F']; subst. unfold logs_only in L. cbn in L.
    destruct ev; try discriminate L.
    destruct (IH F' (observe (Emit "log" (log_payload now lvl message)) e))
      as (e' & R & B & A & C & U & N).
    exists e'. cbn [Subscribed.run Subscribed.step].
    unfold Subscribed._log, Subscribed.emit. split; [exact R|].
    repeat (split; [assumption|]).
    intros q. rewrite N. cbn. rewrite invoked_app. cbn. apply app_nil_r.
Qed.

Lemma not_logs_only_done (tevs : list (Z * event)) (now : Z) :
  Forall logs_only tevs -> ~ In (now, InitializeDone) tevs.
Proof.
  intros F I. rewrite Forall_forall in F. specialize (F _ I).
  discriminate F.
Qed.

(** The segment [InitializeDone] when the subscribers return from the
    report of the gate. *)
Lemma ready_segment_effect (now : Z) (e : engine) :
  let e' := _tryProcessBrowserQueue
              (observe (Emit "log" (gate_report Browser now))
                 (set_ready Browser e)) in
  api e' = api e /\ cookie e' = cookie e /\ userData e' = userData e /\
  invoked Api (trace e') = invoked Api (trace e) /\
  isBrowserReady e' = true /\
  (isProcessing (browser e) = false ->
   forall a rest,
     actionQueue (browser e) = a :: rest ->
     awaiting (browser e') = Some a /\
     actionQueue (browser e') = rest /\
     invoked Browser (trace e') = (invoked Browser (trace e) ++ [a])%list).
Proof.
  cbn zeta.
  match goal with
  | |- context [_tryProcessQueue Browser ?x] =>
      destruct (tryProcess_frame Api Browser x) as [Q N]; [discriminate|];
      destruct (creds_tryProcess Browser x) as [C U];
      pose proof (ready_tryProcess Browser Browser x) as R
  end.
  cbn [queue_of] in Q, R. rewrite Q, N, C, U.
  unfold isBrowserReady. rewrite R.
  repeat (split; [cbn; rewrite ?invoked_app; cbn; now rewrite ?app_nil_r|]).
  intros P a rest A. unfold _tryProcessQueue, drain_loop.
  destruct e as [[qb rb pb ab] ap c u tr]. cbn in P, A. subst.
  cbn. rewrite !invoked_app. cbn. now rewrite app_nil_r.
Qed.

End SubscribedInitializeRun.

(** X20: running the segments of [initialize] changes the browser queue
    only: the api queue, its gate and the credentials are as before, and no
    api action is called. The browser gate is open afterwards exactly when
    it was open before or the segment that opens it was reached. If
    [initialize] rejects, no browser action is called and the browser queue,
    its flag and the awaited action are as before, also when it rejects on
    the report of the gate, after the gate was set and before the drain
    starts. If it resolves, the browser gate is open at the end, and when
    actions were pending behind the closed gate the first of them has been
    called and the others still wait in order. *)
Theorem initialize_drives_browser_gate
    (subscribers : string -> value -> completion unit)
    (JSON_parse : string -> completion value)
    (r : Subscribed.initialize_run) (e : engine) :
  exists e',
    Subscribed.run subscribers JSON_parse e
      (fst (Subscribed.initialize subscribers r)) = Some e' /\
    (api e' = api e /\ cookie e' = cookie e /\ userData e' = userData e /\
     invoked Api (trace e') = invoked Api (trace e)) /\
    (isBrowserReady e' = true <->
     isBrowserReady e = true \/
     exists now,
       In (now, InitializeDone) (fst (Subscribed.initialize subscribers r))) /\
    (forall err,
        snd (Subscribed.initialize subscribers r) = Throw err ->
        actionQueue (browser e') = actionQueue (browser e) /\
        isProcessing (browser e') = isProcessing (browser e) /\
        awaiting (browser e') = awaiting (browser e) /\
        invoked Browser (trace e') = invoked Browser (trace e)) /\
    (snd (Subscribed.initialize subscribers r) = Normal true ->
     isBrowserReady e' = true /\
     (isProcessing (browser e) = false ->
      forall a rest,
        actionQueue (browser e) = a :: rest ->
        awaiting (browser e') = Some a /\
        actionQueue (browser e') = rest /\
        invoked Browser (trace e')
          = (invoked Browser (trace e) ++ [a])%list)).
Proof.
  destruct (initialize_outcomes subscribers r) as (_ & S & T & NF).
  destruct (snd (Subscribed.initialize subscribers r)) as [[|]|err] eqn:Res.
  - destruct (S eq_refl) as (logs & now & E & F & G). rewrite E.
    destruct (subscribed_run_log_calls subscribers JSON_parse logs F e)
      as (e1 & R & B & A & C & U & N).
    destruct (ready_segment_effect now e1) as (A' & C' & U' & N' & G' & K).
    eexists. split.
    { rewrite subscribed_run_app, R. cbn [Subscribed.run Subscribed.step].
      unfold Subscribed.and_then, Subscribed._log, Subscribed.emit.
      change (log_payload now INFO
                "Browser is ready. Processing browser action queue.")
        with (gate_report Browser now).
      rewrite G. reflexivity. }
    split; [rewrite A', C', U', N', (N Api); auto|].
    split.
    { split; [intros _; right; exists now; apply in_or_app; right; now left
             | intros _; exact G']. }
    split; [intros err0 H; discriminate H|].
    intros _. split; [exact G'|].
    intros P a rest Q. rewrite <- B in P, Q. rewrite <- (N Browser).
    now apply K.
  - now contradiction NF.
  - destruct (T err eq_refl) as [F|(logs & now & E & F & G)].
    + destruct (subscribed_run_log_calls subscribers JSON_parse _ F e)
        as (e' & R & B & A & C & U & N).
      exists e'. split; [exact R|]. split; [rewrite (N Api); auto|].
      split.
      { unfold isBrowserReady. rewrite B. split; [now left|].
        intros [H|[now I]]; [exact H|].
        now apply not_logs_only_done in I. }
      split; [intros err0 _; rewrite B, (N Browser); auto|].
      intros H. discriminate H.
    + rewrite E.
      destruct (subscribed_run_log_calls subscribers JSON_parse logs F e)
        as (e1 & R & B & A & C & U & N).
      eexists. split.
      { rewrite subscribed_run_app, R. cbn [Subscribed.run Subscribed.step].
        unfold Subscribed.and_then, Subscribed._log, Subscribed.emit.
        change (log_payload now INFO
                  "Browser is ready. Processing browser action queue.")
          with (gate_report Browser now).
        rewrite G. reflexivity. }
      split.
      { cbn. rewrite invoked_app. cbn. rewrite app_nil_r, (N Api). auto. }
      split.
      { split; [intros _; right; exists now; apply in_or_app; right; now left
               | intros _; reflexivity]. }
      split; [|intros H; discriminate H].
      intros err0 _. cbn. rewrite invoked_app. cbn.
      rewrite app_nil_r, (N Browser), B. auto.
Qed.

Lemma initialize_drives_browser_gate_witness :
  snd (Subscribed.initialize throws_on_gate_report logged_in_run)
    = Throw subscriber_error /\
  exists e',
    Subscribed.run throws_on_gate_report sample_parse after_early_requests
      (fst (Subscribed.initialize throws_on_gate_report logged_in_run))
      = Some e' /\
    isBrowserReady e' = true /\
    actionQueue (browser e') = [11; 12] /\
    isProcessing (browser e') = false /\
    invoked Browser (trace e') = [].
Proof.
  assert (T : snd (Subscribed.initialize throws_on_gate_report logged_in_run)
              = Throw subscriber_error) by (vm_compute; reflexivity).
  split; [exact T|].
  destruct (initialize_drives_browser_gate throws_on_gate_report sample_parse
              logged_in_run after_early_requests)
    as (e' & R & _ & G & K & _).
  destruct (K subscriber_error T) as (K1 & K2 & _ & K4).
  exists e'. split; [exact R|]. split.
  - apply G. right. exists 5%Z. vm_compute. auto.
  - rewrite K1, K2, K4. repeat match goal with |- _ /\ _ => split end;
      vm_compute; reflexivity.
Defined.

(* ------------------------------------------------------------------ *)
(** ** After a report that threw *)

(** X22: a drain routine that was left by a throwing report does not come
    back. From a state in which the flag of a queue is up and none of its
    actions is awaited, whatever segments follow and whatever the
    subscribers do, the flag stays up, no action of the queue is called any
    more, and the requests that follow only lengthen the queue. *)
Theorem stalled_drain_never_resumes
    (subscribers : string -> value -> completion unit)
    (JSON_parse : string -> completion value) (q : queue_id)
    (evs : list (Z * event)) (e e' : engine) :
  isProcessing (queue_of q e) = true ->
  awaiting (queue_of q e) = None ->
  Subscribed.run subscribers JSON_parse e evs = Some e' ->
  isProcessing (queue_of q e') = true /\
  awaiting (queue_of q e') = None /\
  invoked q (trace e') = invoked q (trace e) /\
  exists more,
    actionQueue (queue_of q e') = (actionQueue (queue_of q e) ++ more)%list.
Proof.
  intros P A R.
  destruct (run_stalled subscribers JSON_parse q evs e e' (conj P A) R)
    as ((P' & A') & N & Q).
  auto.
Qed.

Lemma stalled_drain_never_resumes_witness :
  exists e',
    Subscribed.run throws_on_error_entries sample_parse
      after_failing_first_action
      [(6%Z, GetActivities 14); (7%Z, RouteContinued)] = Some e' /\
    isProcessing (queue_of Browser e') = true /\
    invoked Browser (trace e') = [11] /\
    actionQueue (queue_of Browser e') = [12; 13; 14].
Proof.
  pose (e' := state_after
                (Subscribed.run throws_on_error_entries sample_parse
                   after_failing_first_action
                   [(6%Z, GetActivities 14); (7%Z, RouteContinued)])).
  assert (R : Subscribed.run throws_on_error_entries sample_parse
                after_failing_first_action
                [(6%Z, GetActivities 14); (7%Z, RouteContinued)] = Some e')
    by (vm_compute; reflexivity).
  assert (P : isProcessing (queue_of Browser after_failing_first_action)
              = true) by (vm_compute; reflexivity).
  assert (A : awaiting (queue_of Browser after_failing_first_action) = None)
    by (vm_compute; reflexivity).
  destruct (stalled_drain_never_resumes throws_on_error_entries sample_parse
              Browser _ after_failing_first_action e' P A R)
    as (P' & _ & N & _).
  exists e'. split; [exact R|]. split; [exact P'|]. split.
  - rewrite N. vm_compute. reflexivity.
  - vm_compute. reflexivity.
Defined.

(** X23: whatever the subscribers do, while the gate of a queue is closed
    the queue holds the actions of the requests that got past their own
    DEBUG entry, in the order of the requests; none has been called and no
    drain is active. A request on whose DEBUG entry a subscriber throws
    enqueues nothing. *)
Theorem closed_gate_holds_accepted_requests
    (subscribers : string -> value -> completion unit)
    (JSON_parse : string -> completion value) (q : queue_id)
    (evs : list (Z * event)) (e : engine) :
  Subscribed.run subscribers JSON_parse new_engine evs = Some e ->
  isReady (queue_of q e) = false ->
  actionQueue (queue_of q e) = Subscribed.enqueued subscribers q evs /\
  invoked q (trace e) = [] /\
  isProcessing (queue_of q e) = false /\
  awaiting (queue_of q e) = None.
Proof.
  intros R C.
  pose proof (run_sequential subscribers JSON_parse q evs [] _ _
                (sequential_new q) R) as (I1 & I2 & _ & I4).
  destruct (I4 C) as [P N]. rewrite N in I1, I2. cbn in I1.
  repeat split; auto.
  destruct (awaiting (queue_of q e)); [|reflexivity].
  apply app_eq_nil in I2 as [_ I2]. discriminate I2.
Qed.

Lemma closed_gate_holds_accepted_requests_witness :
  exists e,
    Subscribed.run (throws_at 3%Z) sample_parse new_engine early_requests
      = Some e /\
    actionQueue (queue_of Browser e) = [11] /\
    invoked Browser (trace e) = [].
Proof.
  pose (e := state_after
               (Subscribed.run (throws_at 3%Z) sample_parse new_engine
                  early_requests)).
  assert (R : Subscribed.run (throws_at 3%Z) sample_parse new_engine
                early_requests = Some e) by (vm_compute; reflexivity).
  assert (C : isReady (queue_of Browser e) = false)
    by (vm_compute; reflexivity).
  destruct (closed_gate_holds_accepted_requests (throws_at 3%Z) sample_parse
              Browser early_requests e R C) as (Q & N & _).
  exists e. split; [exact R|]. split; [|exact N].
  rewrite Q. vm_compute. reflexivity.
Defined.
